(** * Wide, Deep and Cross networks for structured data

    A shallow embedding of the notebook
    [examples/structured_data/ipynb/wide_deep_cross_networks.ipynb]:
    the pandas data preparation (decoding of the binary-encoded
    categorical blocks, reshaping to the 13-column frame, the train/test
    split, the vocabularies), the Keras functional graphs built by the
    three model constructors, and the effects of [run_experiment].

    Integers are [Z], with the wrap-around of [int64] written out where
    a column is computed with; strings are [string]; a pandas frame is a
    header plus a list of rows carrying their index label; an exception
    is a value of [exn] in the [result] monad.  The random generator is
    an explicit stream of draws that the split threads through. *)

From Stdlib Require Import String Ascii Bool Arith ZArith QArith Lia.
From Stdlib Require Import Reals Lra.
From Stdlib Require Import DecimalString List Permutation Sorted.
From Stdlib Require DecimalNat DecimalPos DecimalZ.
Import ListNotations.

Local Close Scope Q_scope.
Local Close Scope R_scope.
Local Open Scope string_scope.
Local Open Scope nat_scope.
Local Open Scope list_scope.

(* ================================================================== *)
(** ** Exceptions *)

Inductive exn : Type :=
| IndexError
| KeyError
| ValueError
| TypeError
| InvalidArgumentError
| EmptyDataError.

Inductive result (A : Type) : Type :=
| Ok (a : A)
| Raise (e : exn).

Arguments Ok {A} a.
Arguments Raise {A} e.

Definition rbind {A B} (m : result A) (k : A -> result B) : result B :=
  match m with
  | Ok a => k a
  | Raise e => Raise e
  end.

Notation "x <- m ;; k" := (rbind m (fun x => k))
  (at level 61, m at next level, right associativity).

(** [df.apply(f, axis=1)]: [f] on every row, in row order; the first
    exception aborts the whole call. *)
Fixpoint apply_rows {A B} (f : A -> result B) (rows : list A) : result (list B) :=
  match rows with
  | [] => Ok []
  | x :: rest =>
      y <- f x ;;
      ys <- apply_rows f rest ;;
      Ok (y :: ys)
  end.

(** [l[i]] for a non-negative index. *)
Definition getitem {A} (l : list A) (i : nat) : result A :=
  match nth_error l i with
  | Some a => Ok a
  | None => Raise IndexError
  end.

(* ================================================================== *)
(** ** Preparing the data *)

Definition data_url : string :=
  "https://archive.ics.uci.edu/ml/machine-learning-databases/covtype/covtype.data.gz".

(** [str(n)] for a natural number. *)
Definition str_of_nat (n : nat) : string :=
  NilZero.string_of_uint (Nat.to_uint n).

Definition soil_type_values : list string :=
  map (fun idx => ("soil_type_" ++ str_of_nat (idx + 1))%string) (seq 0 40).

Definition wilderness_area_values : list string :=
  map (fun idx => ("area_type_" ++ str_of_nat (idx + 1))%string) (seq 0 4).

(** A row of [raw_data]: the integer cells of columns [0], [1], ... of one
    line of the headerless CSV.  A frame is the list of its rows, which
    all have the same length, the number of columns of the frame. *)
Definition raw_row := list Z.

(** A CSV file of integers in which every line has the same number of
    fields: [table_width] fields per line, a line giving the integer of
    each field position.  (In a file with lines of different lengths
    pandas takes the width from the first line, fills the short lines
    with NaN and turns their columns into floats; such files are left
    out.) *)
Record csv_table : Type := mkTable {
  table_width : nat;
  table_lines : list (nat -> Z)
}.

(** [pd.read_csv(url, header=None)], [web] giving the file behind a URL.
    No line is taken for column names: every line is a row and the
    columns are known by their position.  A file without a line, or with
    blank lines only, is an [EmptyDataError]. *)
Definition read_csv (web : string -> csv_table) (url : string)
  : result (list raw_row) :=
  let table := web url in
  match table_width table, table_lines table with
  | 0, _ | _, [] => Raise EmptyDataError
  | width, lines => Ok (map (fun line => map line (seq 0 width)) lines)
  end.

(** The first code cell. *)
Definition raw_data (web : string -> csv_table) : result (list raw_row) :=
  read_csv web data_url.

(** The number of columns of a frame given by its rows.  A frame without
    rows has no column: a headerless file gives a row per line and the
    columns are those of the lines. *)
Definition frame_width (raw_data : list raw_row) : nat :=
  match raw_data with
  | [] => 0
  | x :: _ => length x
  end.

(** [x.to_numpy().nonzero()[0]]: the positions of the nonzero entries, in
    increasing order. *)
Fixpoint nonzero_from (i : nat) (x : list Z) : list nat :=
  match x with
  | [] => []
  | v :: rest =>
      if (v =? 0)%Z then nonzero_from (S i) rest
      else i :: nonzero_from (S i) rest
  end.

Definition nonzero (x : list Z) : list nat := nonzero_from 0 x.

(** [values[0::1]]: a copy of the whole list. *)
Definition slice_0_1 {A} (values : list A) : list A := skipn 0 values.

(** The lambda applied to each row of a binary-encoded block:
    [values[0::1][x.to_numpy().nonzero()[0][0]]]. *)
Definition decode_block (values : list string) (x : list Z) : result string :=
  i <- getitem (nonzero x) 0 ;;
  getitem (slice_0_1 values) i.

(** [raw_data.loc[:, a:b]] on one row: the label slice keeps the columns
    [a], ..., [b] (both ends included) that exist. *)
Definition loc_cols (a b : nat) (x : raw_row) : list Z :=
  firstn (b + 1 - a) (skipn a x).

(** [raw_data.loc[:, c]]: the column labelled [c], a [KeyError] when the
    frame has no such column. *)
Definition loc_col (c : nat) (raw_data : list raw_row) : result (list Z) :=
  if c <? frame_width raw_data then
    apply_rows (fun x => match nth_error x c with
                         | Some v => Ok v
                         | None => Raise KeyError
                         end) raw_data
  else Raise KeyError.

(** [raw_data.loc[:, a:b].apply(f, axis=1)]: [f] on the slice of every
    row.  When the slice keeps no column, pandas calls [f] once on an
    empty row, swallows the exception and returns the empty slice:
    nothing is decoded and nothing is raised. *)
Definition apply_block (a b : nat) (f : list Z -> result string)
    (raw_data : list raw_row) : result (list string) :=
  if frame_width raw_data <=? a then Ok []
  else apply_rows (fun x => f (loc_cols a b x)) raw_data.

Definition soil_type (raw_data : list raw_row) : result (list string) :=
  apply_block 14 53 (decode_block soil_type_values) raw_data.

Definition wilderness_area (raw_data : list raw_row) : result (list string) :=
  apply_block 10 13 (decode_block wilderness_area_values) raw_data.

Definition CSV_HEADER : list string :=
  [ "Elevation";
    "Aspect";
    "Slope";
    "Horizontal_Distance_To_Hydrology";
    "Vertical_Distance_To_Hydrology";
    "Horizontal_Distance_To_Roadways";
    "Hillshade_9am";
    "Hillshade_Noon";
    "Hillshade_3pm";
    "Horizontal_Distance_To_Fire_Points";
    "Wilderness_Area";
    "Soil_Type";
    "Cover_Type" ].

(** A cell of the reshaped frame: an integer or a string. *)
Inductive cell : Type :=
| CInt (z : Z)
| CStr (s : string).

Definition cell_eqb (a b : cell) : bool :=
  match a, b with
  | CInt x, CInt y => (x =? y)%Z
  | CStr s, CStr t => String.eqb s t
  | _, _ => false
  end.

(** A frame: the column names and the rows, each with its index label. *)
Record DataFrame : Type := mkDataFrame {
  columns : list string;
  rows : list (nat * list cell)
}.

(** [pd.concat([raw_data.loc[:, 0:9], wilderness_area, soil_type,
    raw_data.loc[:, 54]], axis=1, ignore_index=True)], row by row; the
    rows keep the index labels [0], [1], ... of [raw_data]. *)
Fixpoint concat_axis1 (i : nat) (num : list (list Z)) (wild soil : list string)
    (lab : list Z) : list (nat * list cell) :=
  match num, wild, soil, lab with
  | n :: num', w :: wild', s :: soil', l :: lab' =>
      (i, map CInt n ++ [CStr w; CStr s; CInt l])
        :: concat_axis1 (S i) num' wild' soil' lab'
  | _, _, _, _ => []
  end.

(** [data.columns = header]: a length mismatch is a [ValueError]. *)
Definition set_columns (header : list string) (body : list (nat * list cell))
  : result DataFrame :=
  if forallb (fun r => length (snd r) =? length header) body
  then Ok (mkDataFrame header body)
  else Raise ValueError.

(** Position of a column name in a header. *)
Fixpoint column_pos (name : string) (header : list string) : result nat :=
  match header with
  | [] => Raise KeyError
  | h :: rest =>
      if String.eqb h name then Ok 0
      else (p <- column_pos name rest ;; Ok (S p))
  end.

(** The value an [int64] holds after an operation whose exact result is
    [z]: the arithmetic of an integer column wraps around. *)
Definition wrap_int64 (z : Z) : Z :=
  ((z + 9223372036854775808) mod 18446744073709551616 - 9223372036854775808)%Z.

(** [cell - k] in an [int64] column. *)
Definition cell_sub (k : Z) (c : cell) : result cell :=
  match c with
  | CInt v => Ok (CInt (wrap_int64 (v - k)))
  | CStr _ => Raise TypeError
  end.

Fixpoint update_at {A} (p : nat) (f : A -> result A) (l : list A) : result (list A) :=
  match p, l with
  | _, [] => Raise IndexError
  | O, a :: rest => b <- f a ;; Ok (b :: rest)
  | S p', a :: rest => rest' <- update_at p' f rest ;; Ok (a :: rest')
  end.

(** [df[name] = df[name] - k]. *)
Definition sub_column (name : string) (k : Z) (df : DataFrame) : result DataFrame :=
  p <- column_pos name (columns df) ;;
  body <- apply_rows
            (fun r => cells <- update_at p (cell_sub k) (snd r) ;; Ok (fst r, cells))
            (rows df) ;;
  Ok (mkDataFrame (columns df) body).

(** The second code cell: from [raw_data] to [data]. *)
Definition reshape (raw_data : list raw_row) : result DataFrame :=
  soil <- soil_type raw_data ;;
  wild <- wilderness_area raw_data ;;
  lab <- loc_col 54 raw_data ;;
  data <- set_columns CSV_HEADER
            (concat_axis1 0 (map (loc_cols 0 9) raw_data) wild soil lab) ;;
  sub_column "Cover_Type" 1 data.

(** [df[name]]: the cells of one column, in row order. *)
Definition column (name : string) (df : DataFrame) : result (list cell) :=
  p <- column_pos name (columns df) ;;
  apply_rows (fun r => getitem (snd r) p) (rows df).

(** [Series.unique()]: the distinct values in order of first appearance. *)
Fixpoint unique (seen : list cell) (l : list cell) : list cell :=
  match l with
  | [] => []
  | c :: rest =>
      if existsb (cell_eqb c) seen then unique seen rest
      else c :: unique (c :: seen) rest
  end.

(** The string payloads of a list of cells. *)
Fixpoint str_values (l : list cell) : list string :=
  match l with
  | [] => []
  | CStr s :: rest => s :: str_values rest
  | CInt _ :: rest => str_values rest
  end.

(** [list(data[name].unique())]. *)
Definition vocabulary_of (name : string) (data : DataFrame) : result (list string) :=
  col <- column name data ;;
  Ok (str_values (unique [] col)).

(** [CATEGORICAL_FEATURES_WITH_VOCABULARY], an insertion-ordered dict. *)
Definition CATEGORICAL_FEATURES_WITH_VOCABULARY (data : DataFrame)
  : result (list (string * list string)) :=
  soil <- vocabulary_of "Soil_Type" data ;;
  wild <- vocabulary_of "Wilderness_Area" data ;;
  Ok [("Soil_Type", soil); ("Wilderness_Area", wild)].

(* ================================================================== *)
(** ** The train/test split *)

(** The state of the generator behind [np.random.rand]: the draws still
    to come.  Each draw is a float in [[0, 1)], here the rational it
    denotes. *)
Definition rng := nat -> Q.

(** [np.random.rand(n)]: the next [n] draws, and the generator after. *)
Definition rand (n : nat) (g : rng) : list Q * rng :=
  (map g (seq 0 n), fun i => g (n + i)).

(** [draws <= 0.85], elementwise.  The float [0.85] is
    [7656119366529843 / 2^53] and a draw is [k / 2^53]: on such draws the
    comparison of the floats and the comparison with the rational 85/100
    agree (see [float_grid_threshold]). *)
Definition le_085 (draws : list Q) : list bool :=
  map (fun d => Qle_bool d (85 # 100)) draws.

(** [group_data[mask]]: the rows at which the mask is [True]. *)
Definition boolean_mask {A} (group_data : list A) (mask : list bool) : list A :=
  map fst (filter snd (combine group_data mask)).

(** The integer in column [p] of a row: the group key. *)
Definition key_at (p : nat) (r : nat * list cell) : result Z :=
  c <- getitem (snd r) p ;;
  match c with
  | CInt z => Ok z
  | CStr _ => Raise TypeError
  end.

(** Insertion in a strictly increasing list of keys. *)
Fixpoint insert_key (k : Z) (keys : list Z) : list Z :=
  match keys with
  | [] => [k]
  | h :: rest =>
      if (k <? h)%Z then k :: keys
      else if (k =? h)%Z then keys
      else h :: insert_key k rest
  end.

Definition sorted_keys (keys : list Z) : list Z :=
  fold_right insert_key [] keys.

(** [data.groupby(name)]: one group per distinct key, in increasing key
    order; each group keeps its rows in frame order, with their labels. *)
Definition groupby (name : string) (data : DataFrame)
  : result (list (Z * list (nat * list cell))) :=
  p <- column_pos name (columns data) ;;
  keys <- apply_rows (key_at p) (rows data) ;;
  Ok (map (fun k => (k, map snd (filter (fun kr => (fst kr =? k)%Z)
                                        (combine keys (rows data)))))
          (sorted_keys keys)).

(** The loop over the groups: one call of [np.random.rand] per group. *)
Fixpoint split_loop {A} (g : rng) (groups : list (Z * list A))
    (train_splits test_splits : list (list A)) : list (list A) * list (list A) :=
  match groups with
  | [] => (train_splits, test_splits)
  | (_, group_data) :: rest =>
      let (draws, g') := rand (length group_data) g in
      let random_selection := le_085 draws in
      split_loop g' rest
        (train_splits ++ [boolean_mask group_data random_selection])
        (test_splits ++ [boolean_mask group_data (map negb random_selection)])
  end.

(** [pd.concat(frames)] along the rows; no frame at all is a
    [ValueError]. *)
Definition pd_concat {A} (frames : list (list A)) : result (list A) :=
  match frames with
  | [] => Raise ValueError
  | _ => Ok (concat frames)
  end.

(** [reset_index(drop=True)]: the rows relabelled [0], [1], ... *)
Definition reset_index (body : list (nat * list cell)) : list (nat * list cell) :=
  combine (seq 0 (length body)) (map snd body).

(** The concatenated train and test rows, still with the labels of
    [data], before they are shuffled and relabelled. *)
Definition split_rows (g : rng) (data : DataFrame)
  : result (list (nat * list cell) * list (nat * list cell)) :=
  groups <- groupby "Cover_Type" data ;;
  let (train_splits, test_splits) := split_loop g groups [] [] in
  train <- pd_concat train_splits ;;
  test <- pd_concat test_splits ;;
  Ok (train, test).

(** The third code cell.  [sample(frac=1)] is a shuffle of the rows: the
    two shuffles are passed in. *)
Definition train_test_split (g : rng)
    (sample_train sample_test : list (nat * list cell) -> list (nat * list cell))
    (data : DataFrame) : result (DataFrame * DataFrame) :=
  tt <- split_rows g data ;;
  Ok (mkDataFrame (columns data) (reset_index (sample_train (fst tt))),
      mkDataFrame (columns data) (reset_index (sample_test (snd tt)))).

(** Each row of the groups next to the draw made for it, in the order
    the loop makes the draws. *)
Fixpoint assign_draws {A} (g : rng) (groups : list (Z * list A)) : list (A * Q) :=
  match groups with
  | [] => []
  | (_, group_data) :: rest =>
      let (draws, g') := rand (length group_data) g in
      combine group_data draws ++ assign_draws g' rest
  end.

(** *** Uniform draws

    A draw of [np.random.rand] is a float [k / 2^53], every [k] of
    [0], ..., [2^53 - 1] being as likely as any other. *)
Definition float_grid : Z := 9007199254740992.

(** The generator whose draws are [ks[0] / 2^53], [ks[1] / 2^53], ... *)
Definition grid_rng (ks : list Z) : rng :=
  fun i => (nth i ks 0%Z # 9007199254740992)%Q.

(** [h 0 + ... + h (m - 1)]. *)
Fixpoint sum_first (m : nat) (h : Z -> Z) : Z :=
  match m with
  | 0 => 0%Z
  | S m' => (sum_first m' h + h (Z.of_nat m'))%Z
  end.

(** The sum of [f ks] over the lists [ks] of [n] numbers of [0], ...,
    [N - 1]: over the [N ^ n] outcomes of [n] draws. *)
Fixpoint sum_draws (N : Z) (n : nat) (f : list Z -> Z) : Z :=
  match n with
  | 0 => f []
  | S n' => sum_first (Z.to_nat N)
                      (fun k => sum_draws N n' (fun ks => f (k :: ks)))
  end.

(** How many of the numbers are at most [T]. *)
Definition count_le (T : Z) (ks : list Z) : Z :=
  Z.of_nat (length (filter (fun k => (k <=? T)%Z) ks)).

(** [len(train_data.index)] after the third cell. *)
Definition train_size (split : result (DataFrame * DataFrame)) : Z :=
  match split with
  | Ok (train_data, _) => Z.of_nat (length (rows train_data))
  | Raise _ => 0%Z
  end.

(* ================================================================== *)
(** ** Dataset metadata *)

Definition TARGET_FEATURE_NAME : string := "Cover_Type".

Definition TARGET_FEATURE_LABELS : list string :=
  ["0"; "1"; "2"; "3"; "4"; "5"; "6"].

Definition NUMERIC_FEATURE_NAMES : list string :=
  [ "Aspect";
    "Elevation";
    "Hillshade_3pm";
    "Hillshade_9am";
    "Hillshade_Noon";
    "Horizontal_Distance_To_Fire_Points";
    "Horizontal_Distance_To_Hydrology";
    "Horizontal_Distance_To_Roadways";
    "Slope";
    "Vertical_Distance_To_Hydrology" ].

(** A Python dict with string keys, in insertion order. *)
Definition dict (V : Type) := list (string * V).

Definition keys {V} (d : dict V) : list string := map fst d.

Fixpoint dict_get {V} (d : dict V) (k : string) : result V :=
  match d with
  | [] => Raise KeyError
  | (k', v) :: rest => if String.eqb k' k then Ok v else dict_get rest k
  end.

(** [d[k] = v]: a new key goes last, a known key keeps its place. *)
Fixpoint dict_set {V} (d : dict V) (k : string) (v : V) : dict V :=
  match d with
  | [] => [(k, v)]
  | (k', v') :: rest =>
      if String.eqb k' k then (k', v) :: rest else (k', v') :: dict_set rest k v
  end.

(** [name in names]. *)
Definition str_in (name : string) (names : list string) : bool :=
  existsb (String.eqb name) names.

(** The metadata cell reads the vocabularies off [data]; everything
    below takes the resulting dict [cfv] as an argument. *)
Definition CATEGORICAL_FEATURE_NAMES (cfv : dict (list string)) : list string :=
  keys cfv.

Definition FEATURE_NAMES (cfv : dict (list string)) : list string :=
  NUMERIC_FEATURE_NAMES ++ CATEGORICAL_FEATURE_NAMES cfv.

Inductive csv_default : Type :=
| DefaultInt (z : Z)
| DefaultStr (s : string).

Definition COLUMN_DEFAULTS : list csv_default :=
  map (fun feature_name =>
         if str_in feature_name (NUMERIC_FEATURE_NAMES ++ [TARGET_FEATURE_NAME])
         then DefaultInt 0 else DefaultStr "NA")
      CSV_HEADER.

Definition NUM_CLASSES : nat := length TARGET_FEATURE_LABELS.

Definition learning_rate : Q := (1 # 1000)%Q.
Definition dropout_rate : Q := (1 # 10)%Q.
Definition batch_size : nat := 265.
Definition num_epochs : nat := 1.
Definition hidden_units : list nat := [32; 32].

Set Warnings "-register-all".

(* ================================================================== *)
(** ** Keras functional graphs

    A symbolic tensor is the expression that computes it.  Shapes leave
    the batch axis out: an [Input] with [shape=()] has shape [[]], a
    feature vector of width [n] has shape [[n]].  Every layer that owns
    weights carries the identifier it got when it was created. *)

Inductive dtype : Type :=
| float32
| string_t.

Inductive activation : Type :=
| linear
| softmax.

Inductive output_mode : Type :=
| mode_int
| mode_binary.

Record StringLookup : Type := mkStringLookup {
  vocabulary : list string;
  mask_token : option string;
  num_oov_indices : nat;
  lookup_mode : output_mode
}.

Inductive tensor : Type :=
| Input (name : string) (dt : dtype)
| ExpandDims (x : tensor)
| Lookup (l : StringLookup) (x : tensor)
| Embedding (uid input_dim output_dim : nat) (x : tensor)
| Concatenate (xs : list tensor)
| Dense (uid units : nat) (act : activation) (x : tensor)
| BatchNormalization (uid : nat) (x : tensor)
| ReLU (x : tensor)
| Dropout (rate : Q) (x : tensor)
| Multiply (x y : tensor)
| Add (x y : tensor).

(** Size of the index space of a lookup: the mask token, the
    out-of-vocabulary buckets, then the vocabulary. *)
Definition mask_slots (l : StringLookup) : nat :=
  match mask_token l with
  | Some _ => 1
  | None => 0
  end.

Definition vocabulary_size (l : StringLookup) : nat :=
  mask_slots l + num_oov_indices l + length (vocabulary l).

(** Broadcasting of two shapes, aligned on the last axis. *)
Fixpoint broadcast_rev (a b : list nat) : result (list nat) :=
  match a, b with
  | [], _ => Ok b
  | _, [] => Ok a
  | m :: a', n :: b' =>
      rest <- broadcast_rev a' b' ;;
      if m =? n then Ok (m :: rest)
      else if m =? 1 then Ok (n :: rest)
      else if n =? 1 then Ok (m :: rest)
      else Raise ValueError
  end.

Definition broadcast (a b : list nat) : result (list nat) :=
  s <- broadcast_rev (rev a) (rev b) ;; Ok (rev s).

(** Shape of a concatenation along the last axis: the other axes agree,
    the last ones add up. *)
Fixpoint concat_shapes (shapes : list (list nat)) : result (list nat) :=
  match shapes with
  | [] => Raise ValueError
  | [s] => match rev s with
           | [] => Raise ValueError
           | _ => Ok s
           end
  | s :: rest =>
      t <- concat_shapes rest ;;
      match rev s, rev t with
      | m :: s', n :: t' =>
          if list_eq_dec Nat.eq_dec s' t' then Ok (rev ((m + n) :: s'))
          else Raise ValueError
      | _, _ => Raise ValueError
      end
  end.

Definition dtype_is_float (dt : dtype) : bool :=
  match dt with
  | float32 => true
  | string_t => false
  end.

(** The static shape of a symbolic tensor, as Keras infers it when the
    layer is called; a [ValueError] where the call would be refused. *)
Fixpoint shape_of (t : tensor) : result (list nat) :=
  match t with
  | Input _ _ => Ok []
  | ExpandDims x => s <- shape_of x ;; Ok (s ++ [1])
  | Lookup l x =>
      s <- shape_of x ;;
      match lookup_mode l with
      | mode_int => Ok s
      | mode_binary =>
          match s with
          | [] | [_] => Ok [vocabulary_size l]
          | _ => Raise ValueError
          end
      end
  | Embedding _ _ output_dim x => s <- shape_of x ;; Ok (s ++ [output_dim])
  | Concatenate xs =>
      shapes <- (fix each (ts : list tensor) : result (list (list nat)) :=
                   match ts with
                   | [] => Ok []
                   | t' :: rest =>
                       s <- shape_of t' ;;
                       ss <- each rest ;;
                       Ok (s :: ss)
                   end) xs ;;
      concat_shapes shapes
  | Dense _ units _ x =>
      s <- shape_of x ;;
      match rev s with
      | [] => Raise ValueError
      | _ :: s' => if units =? 0 then Raise ValueError else Ok (rev (units :: s'))
      end
  | BatchNormalization _ x => shape_of x
  | ReLU x => shape_of x
  | Dropout _ x => shape_of x
  | Multiply x y => a <- shape_of x ;; b <- shape_of y ;; broadcast a b
  | Add x y => a <- shape_of x ;; b <- shape_of y ;; broadcast a b
  end.

(** [t.shape[-1]]. *)
Definition last_dim (t : tensor) : result nat :=
  s <- shape_of t ;;
  match rev s with
  | [] => Raise IndexError
  | n :: _ => Ok n
  end.

(** *** Building a graph

    Creating a layer draws a fresh identifier; calling it on a tensor
    infers the output shape and fails where Keras refuses the call. *)
Definition build (A : Type) : Type := nat -> result (A * nat).

Definition ret {A} (a : A) : build A := fun n => Ok (a, n).

Definition bind {A B} (m : build A) (k : A -> build B) : build B :=
  fun n => match m n with
           | Ok (a, n') => k a n'
           | Raise e => Raise e
           end.

Notation "x <~ m ;; k" := (bind m (fun x => k))
  (at level 61, m at next level, right associativity).

Definition lift {A} (r : result A) : build A :=
  fun n => match r with
           | Ok a => Ok (a, n)
           | Raise e => Raise e
           end.

Definition fresh : build nat := fun n => Ok (n, S n).

(** The call of a layer: the node, once its shape is inferred. *)
Definition called (t : tensor) : build tensor :=
  _ <~ lift (shape_of t) ;; ret t.

Definition layers_Input (name : string) (dt : dtype) : tensor := Input name dt.

Definition expand_dims (x : tensor) : build tensor := called (ExpandDims x).

(** The call of a [StringLookup] layer on its input.  Keras takes no
    empty vocabulary and none with a repeated term: the graphs built here
    are those of the vocabularies [valid_vocabularies] holds of, which is
    what [unique()] reads off a column that has a row. *)
Definition layers_StringLookup (l : StringLookup) (x : tensor) : build tensor :=
  called (Lookup l x).

Definition layers_Embedding (input_dim output_dim : nat) (x : tensor) : build tensor :=
  uid <~ fresh ;; called (Embedding uid input_dim output_dim x).

Definition layers_concatenate (xs : list tensor) : build tensor :=
  called (Concatenate xs).

Definition layers_Dense (units : nat) (act : activation) (x : tensor) : build tensor :=
  uid <~ fresh ;; called (Dense uid units act x).

Definition layers_BatchNormalization (x : tensor) : build tensor :=
  uid <~ fresh ;; called (BatchNormalization uid x).

Definition layers_ReLU (x : tensor) : build tensor := called (ReLU x).

Definition layers_Dropout (rate : Q) (x : tensor) : build tensor :=
  called (Dropout rate x).

Definition multiply (x y : tensor) : build tensor := called (Multiply x y).

Definition add (x y : tensor) : build tensor := called (Add x y).

Record Model : Type := mkModel {
  inputs : dict tensor;
  outputs : tensor
}.

(** *** The notebook's constructors *)

Definition create_model_inputs (cfv : dict (list string)) : dict tensor :=
  fold_left
    (fun inputs feature_name =>
       if str_in feature_name NUMERIC_FEATURE_NAMES
       then dict_set inputs feature_name (layers_Input feature_name float32)
       else dict_set inputs feature_name (layers_Input feature_name string_t))
    (FEATURE_NAMES cfv) [].

(** [int(math.sqrt(n))] for the length of a list: the integer square
    root (the float square root is exact enough far beyond any length a
    vocabulary can have). *)
Definition int_sqrt (n : nat) : nat := Nat.sqrt n.

(** The body of the loop of [encode_inputs] for one feature. *)
Definition encode_feature (cfv : dict (list string)) (inputs : dict tensor)
    (use_embedding : bool) (feature_name : string) : build tensor :=
  if str_in feature_name (CATEGORICAL_FEATURE_NAMES cfv) then
    vocabulary <~ lift (dict_get cfv feature_name) ;;
    let lookup :=
      mkStringLookup vocabulary None 0
        (if use_embedding then mode_int else mode_binary) in
    if use_embedding then
      input <~ lift (dict_get inputs feature_name) ;;
      encoded_feature <~ layers_StringLookup lookup input ;;
      let embedding_dims := int_sqrt (length vocabulary) in
      layers_Embedding (length vocabulary) embedding_dims encoded_feature
    else
      input <~ lift (dict_get inputs feature_name) ;;
      expanded <~ expand_dims input ;;
      layers_StringLookup lookup expanded
  else
    input <~ lift (dict_get inputs feature_name) ;;
    expand_dims input.

Fixpoint encode_loop (cfv : dict (list string)) (inputs : dict tensor)
    (use_embedding : bool) (names : list string) (encoded_features : list tensor)
  : build (list tensor) :=
  match names with
  | [] => ret encoded_features
  | feature_name :: rest =>
      encoded_feature <~ encode_feature cfv inputs use_embedding feature_name ;;
      encode_loop cfv inputs use_embedding rest (encoded_features ++ [encoded_feature])
  end.

Definition encode_inputs (cfv : dict (list string)) (inputs : dict tensor)
    (use_embedding : bool) : build tensor :=
  encoded_features <~ encode_loop cfv inputs use_embedding (keys inputs) [] ;;
  layers_concatenate encoded_features.

(** The hidden stack shared by the three constructors:
    [Dense], [BatchNormalization], [ReLU], [Dropout] per entry. *)
Fixpoint hidden_stack (units_list : list nat) (features : tensor) : build tensor :=
  match units_list with
  | [] => ret features
  | units :: rest =>
      f1 <~ layers_Dense units linear features ;;
      f2 <~ layers_BatchNormalization f1 ;;
      f3 <~ layers_ReLU f2 ;;
      f4 <~ layers_Dropout dropout_rate f3 ;;
      hidden_stack rest f4
  end.

Definition create_baseline_model (cfv : dict (list string)) : build Model :=
  let inputs := create_model_inputs cfv in
  features <~ encode_inputs cfv inputs false ;;
  features <~ hidden_stack hidden_units features ;;
  outputs <~ layers_Dense NUM_CLASSES softmax features ;;
  ret (mkModel inputs outputs).

Definition create_wide_and_deep_model (cfv : dict (list string)) : build Model :=
  let inputs := create_model_inputs cfv in
  wide <~ encode_inputs cfv inputs false ;;
  wide <~ layers_BatchNormalization wide ;;
  deep <~ encode_inputs cfv inputs true ;;
  deep <~ hidden_stack hidden_units deep ;;
  merged <~ layers_concatenate [wide; deep] ;;
  outputs <~ layers_Dense NUM_CLASSES softmax merged ;;
  ret (mkModel inputs outputs).

(** The loop of the cross branch: one pass per entry of the list, whose
    value is not used. *)
Fixpoint cross_loop {U} (passes : list U) (x0 cross : tensor) : build tensor :=
  match passes with
  | [] => ret cross
  | _ :: rest =>
      units <~ lift (last_dim cross) ;;
      x <~ layers_Dense units linear cross ;;
      x0x <~ multiply x0 x ;;
      cross' <~ add x0x cross ;;
      cross_loop rest x0 cross'
  end.

Definition create_deep_and_cross_model (cfv : dict (list string)) : build Model :=
  let inputs := create_model_inputs cfv in
  x0 <~ encode_inputs cfv inputs true ;;
  cross <~ cross_loop hidden_units x0 x0 ;;
  cross <~ layers_BatchNormalization cross ;;
  deep <~ hidden_stack hidden_units x0 ;;
  merged <~ layers_concatenate [cross; deep] ;;
  outputs <~ layers_Dense NUM_CLASSES softmax merged ;;
  ret (mkModel inputs outputs).

(* ================================================================== *)
(** ** What a graph computes on one example

    Inference-time semantics over the reals, one example at a time:
    dropout is the identity and batch normalization uses its moving
    statistics.  The weights are looked up by layer identifier. *)

Inductive value : Type :=
| VNum (r : R)
| VStr (s : string)
| VIdx (i : nat)
| VVec (v : list R)
| VStrs (l : list string).

Record params : Type := mkParams {
  kernel : nat -> nat -> nat -> R;
  bias : nat -> nat -> R;
  gamma : nat -> nat -> R;
  beta : nat -> nat -> R;
  moving_mean : nat -> nat -> R;
  moving_variance : nat -> nat -> R;
  embeddings : nat -> nat -> nat -> R;
  oov_hash : string -> nat
}.

Definition epsilon : R := (1 / 1000)%R.

Fixpoint index_of (s : string) (l : list string) : option nat :=
  match l with
  | [] => None
  | h :: rest =>
      if String.eqb h s then Some 0
      else option_map S (index_of s rest)
  end.

(** The index a [StringLookup] gives to one token.  With no
    out-of-vocabulary bucket, an unknown token makes the call fail. *)
Definition lookup_index (hash : string -> nat) (l : StringLookup) (s : string)
  : result nat :=
  if match mask_token l with
     | Some m => String.eqb m s
     | None => false
     end
  then Ok 0
  else
    match index_of s (vocabulary l) with
    | Some i => Ok (mask_slots l + num_oov_indices l + i)
    | None =>
        if num_oov_indices l =? 0 then Raise InvalidArgumentError
        else Ok (mask_slots l + hash s mod num_oov_indices l)
    end.

(** The [binary] output mode: a [1] at each index present. *)
Definition multi_hot (size : nat) (idxs : list nat) : list R :=
  map (fun j => if existsb (Nat.eqb j) idxs then 1%R else 0%R) (seq 0 size).

Definition sum_R (v : list R) : R := fold_right Rplus 0%R v.

Fixpoint zip_with (f : R -> R -> R) (a b : list R) : list R :=
  match a, b with
  | x :: a', y :: b' => f x y :: zip_with f a' b'
  | _, _ => []
  end.

Fixpoint dot_from (i : nat) (x : list R) (w : nat -> R) : R :=
  match x with
  | [] => 0%R
  | xi :: rest => (xi * w i + dot_from (S i) rest w)%R
  end.

Definition softmax_R (z : list R) : list R :=
  map (fun zi => (exp zi / sum_R (map exp z))%R) z.

Definition activate (act : activation) (z : list R) : list R :=
  match act with
  | linear => z
  | softmax => softmax_R z
  end.

(** [Dense]: [activation(x . kernel + bias)]. *)
Definition dense_R (p : params) (uid units : nat) (act : activation) (x : list R)
  : list R :=
  activate act
    (map (fun j => (dot_from 0 x (fun i => kernel p uid i j) + bias p uid j)%R)
         (seq 0 units)).

Fixpoint batch_norm_from (p : params) (uid i : nat) (x : list R) : list R :=
  match x with
  | [] => []
  | xi :: rest =>
      (gamma p uid i * (xi - moving_mean p uid i)
         / sqrt (moving_variance p uid i + epsilon) + beta p uid i)%R
        :: batch_norm_from p uid (S i) rest
  end.

(** Elementwise operation with broadcasting of a width-one operand. *)
Definition elementwise (f : R -> R -> R) (a b : list R) : result (list R) :=
  if length a =? length b then Ok (zip_with f a b)
  else match a, b with
       | [x], _ => Ok (map (f x) b)
       | _, [y] => Ok (map (fun x => f x y) a)
       | _, _ => Raise InvalidArgumentError
       end.

Fixpoint eval (p : params) (example : string -> option value) (t : tensor)
  : result value :=
  match t with
  | Input name dt =>
      match example name, dt with
      | Some (VNum r), float32 => Ok (VNum r)
      | Some (VStr s), string_t => Ok (VStr s)
      | Some _, _ => Raise TypeError
      | None, _ => Raise KeyError
      end
  | ExpandDims x =>
      v <- eval p example x ;;
      match v with
      | VNum r => Ok (VVec [r])
      | VStr s => Ok (VStrs [s])
      | _ => Raise ValueError
      end
  | Lookup l x =>
      v <- eval p example x ;;
      match v, lookup_mode l with
      | VStr s, mode_int => i <- lookup_index (oov_hash p) l s ;; Ok (VIdx i)
      | VStr s, mode_binary =>
          i <- lookup_index (oov_hash p) l s ;;
          Ok (VVec (multi_hot (vocabulary_size l) [i]))
      | VStrs ss, mode_binary =>
          idxs <- apply_rows (lookup_index (oov_hash p) l) ss ;;
          Ok (VVec (multi_hot (vocabulary_size l) idxs))
      | _, _ => Raise ValueError
      end
  | Embedding uid input_dim output_dim x =>
      v <- eval p example x ;;
      match v with
      | VIdx i =>
          if i <? input_dim
          then Ok (VVec (map (embeddings p uid i) (seq 0 output_dim)))
          else Raise InvalidArgumentError
      | _ => Raise ValueError
      end
  | Concatenate xs =>
      (fix each (ts : list tensor) : result value :=
         match ts with
         | [] => Ok (VVec [])
         | t' :: rest =>
             v <- eval p example t' ;;
             vs <- each rest ;;
             match v, vs with
             | VVec a, VVec b => Ok (VVec (a ++ b))
             | _, _ => Raise ValueError
             end
         end) xs
  | Dense uid units act x =>
      v <- eval p example x ;;
      match v with
      | VVec a => Ok (VVec (dense_R p uid units act a))
      | _ => Raise ValueError
      end
  | BatchNormalization uid x =>
      v <- eval p example x ;;
      match v with
      | VVec a => Ok (VVec (batch_norm_from p uid 0 a))
      | _ => Raise ValueError
      end
  | ReLU x =>
      v <- eval p example x ;;
      match v with
      | VVec a => Ok (VVec (map (Rmax 0) a))
      | _ => Raise ValueError
      end
  | Dropout _ x => eval p example x
  | Multiply x y =>
      v <- eval p example x ;;
      w <- eval p example y ;;
      match v, w with
      | VVec a, VVec b => c <- elementwise Rmult a b ;; Ok (VVec c)
      | _, _ => Raise ValueError
      end
  | Add x y =>
      v <- eval p example x ;;
      w <- eval p example y ;;
      match v, w with
      | VVec a, VVec b => c <- elementwise Rplus a b ;; Ok (VVec c)
      | _, _ => Raise ValueError
      end
  end.

(** A probability vector over [n] classes. *)
Definition probability_vector (n : nat) (v : list R) : Prop :=
  length v = n /\ Forall (fun x => (0 < x <= 1)%R) v /\ sum_R v = 1%R.

(** The [Input] names a tensor is computed from, in graph order. *)
Fixpoint input_names (t : tensor) : list string :=
  match t with
  | Input name _ => [name]
  | ExpandDims x => input_names x
  | Lookup _ x => input_names x
  | Embedding _ _ _ x => input_names x
  | Concatenate xs => flat_map input_names xs
  | Dense _ _ _ x => input_names x
  | BatchNormalization _ x => input_names x
  | ReLU x => input_names x
  | Dropout _ x => input_names x
  | Multiply x y => input_names x ++ input_names y
  | Add x y => input_names x ++ input_names y
  end.

(** The same keys, in any order. *)
Definition same_keys (a b : list string) : bool :=
  (length a =? length b)
  && forallb (fun k => str_in k b) a
  && forallb (fun k => str_in k a) b.

(** The values a dict of features gives to the inputs of a graph. *)
Definition features_env (features : dict value) (name : string) : option value :=
  match dict_get features name with
  | Ok v => Some v
  | Raise _ => None
  end.

(** [model(features)] on one example given as a dict.  The dict has to
    hold exactly the inputs of the model, by name: with a key more or a
    key less Keras does not match the values to the inputs and the call
    raises (which exception depends on the feature that gets misplaced;
    [ValueError] stands for it). *)
Definition model_call (m : Model) (p : params) (features : dict value)
  : result value :=
  if same_keys (keys features) (keys (inputs m))
  then eval p (features_env features) (outputs m)
  else Raise ValueError.

(* ================================================================== *)
(** ** Effects of the notebook

    What a cell does to the outside world is the list of events it
    emits, in order, up to the exception that stops it, if any. *)

Inductive optimizer : Type :=
| Adam (learning_rate : Q).

Inductive loss_fn : Type :=
| SparseCategoricalCrossentropy.

Inductive metric : Type :=
| SparseCategoricalAccuracy.

(** The arguments [get_dataset_from_csv] gives to [make_csv_dataset]; the
    dataset is then mapped through [process] and cached in memory. *)
Record csv_dataset : Type := mkCsvDataset {
  csv_file_path : string;
  ds_batch_size : nat;
  column_names : list string;
  column_defaults : list csv_default;
  label_name : string;
  ds_num_epochs : nat;
  header : bool;
  shuffle : bool
}.

Inductive event : Type :=
| EvToCsv (path : string) (df : DataFrame)
| EvPlotModel (m : Model) (to_file : string)
| EvCompile (m : Model) (o : optimizer) (l : loss_fn) (ms : list metric)
| EvPrint (line : string)
| EvFit (m : Model) (d : csv_dataset) (epochs : nat)
| EvProgress (log : string)
| EvEvaluate (m : Model) (d : csv_dataset).

(** The events that leave a file behind. *)
Definition persists (e : event) : bool :=
  match e with
  | EvToCsv _ _ | EvPlotModel _ _ => true
  | _ => false
  end.

(** The events that write to the standard output: the calls of [print]
    and the progress log of [fit]. *)
Definition writes_output (e : event) : bool :=
  match e with
  | EvPrint _ | EvProgress _ => true
  | _ => false
  end.

Definition io (A : Type) : Type := (result A * list event)%type.

Definition io_ret {A} (a : A) : io A := (Ok a, []).

Definition io_raise {A} (e : exn) : io A := (Raise e, []).

Definition io_bind {A B} (m : io A) (k : A -> io B) : io B :=
  match m with
  | (Ok a, t1) => let (b, t2) := k a in (b, t1 ++ t2)
  | (Raise e, t1) => (Raise e, t1)
  end.

Notation "'do' x <- m ; k" := (io_bind m (fun x => k))
  (at level 61, x name, m at next level, right associativity).

Definition emit (e : event) : io unit := (Ok tt, [e]).

Definition print (line : string) : io unit := emit (EvPrint line).

(** What the framework hands back: the progress log [model.fit] writes
    at its default verbosity and how the fit ends; the
    [[loss, accuracy]] of [model.evaluate], or its exception; and the
    text of [round(x, ndigits)] in an f-string. *)
Record framework : Type := mkFramework {
  fit_outcome : Model -> csv_dataset -> nat -> string * result unit;
  evaluate_outcome : Model -> csv_dataset -> result (Q * Q);
  fmt_round : Q -> nat -> string
}.

Definition train_data_file : string := "train_data.csv".
Definition test_data_file : string := "test_data.csv".

(** A CSV file: its lines, each the list of its fields. *)
Definition csv_file := list (list string).

(** The CSV files on disk, by path. *)
Definition files := dict csv_file.

Definition on_disk (fs : files) (path : string) : bool :=
  match dict_get fs path with
  | Ok _ => true
  | Raise _ => false
  end.

(** The fourth code cell. *)
Definition store_splits (train_data test_data : DataFrame) : io unit :=
  do _ <- emit (EvToCsv train_data_file train_data) ;
  emit (EvToCsv test_data_file test_data).

Definition get_dataset_from_csv (csv_file_path : string) (batch_size : nat)
    (shuffle : bool) : csv_dataset :=
  mkCsvDataset csv_file_path batch_size CSV_HEADER COLUMN_DEFAULTS
    TARGET_FEATURE_NAME 1 true shuffle.

Definition model_compile (m : Model) (o : optimizer) (l : loss_fn)
    (ms : list metric) : io unit :=
  emit (EvCompile m o l ms).

(** The features a dataset yields: its columns without the label. *)
Definition dataset_features (d : csv_dataset) : list string :=
  filter (fun name => negb (String.eqb name (label_name d))) (column_names d).

Definition io_lift {A} (r : result A) : io A := (r, []).

(** [make_csv_dataset] looks at the file when the dataset is created: it
    raises [ValueError] when the path matches no file, or when the label
    is not one of the columns. *)
Definition make_csv_dataset (fs : files) (d : csv_dataset) : io csv_dataset :=
  if on_disk fs (csv_file_path d) && str_in (label_name d) (column_names d)
  then io_ret d
  else io_raise ValueError.

(** [model.fit(d, epochs=epochs)], with the default verbosity: the
    progress log goes to the standard output.  A model whose inputs are
    not the features of the dataset is refused, as in [model_call]. *)
Definition model_fit (fw : framework) (m : Model) (d : csv_dataset) (epochs : nat)
  : io unit :=
  do _ <- emit (EvFit m d epochs) ;
  do _ <- emit (EvProgress (fst (fit_outcome fw m d epochs))) ;
  if same_keys (keys (inputs m)) (dataset_features d)
  then io_lift (snd (fit_outcome fw m d epochs))
  else io_raise ValueError.

(** [model.evaluate(d, verbose=0)]: nothing is written. *)
Definition model_evaluate (fw : framework) (m : Model) (d : csv_dataset)
  : io (Q * Q) :=
  do _ <- emit (EvEvaluate m d) ;
  if same_keys (keys (inputs m)) (dataset_features d)
  then io_lift (evaluate_outcome fw m d)
  else io_raise ValueError.

Definition run_experiment (fw : framework) (fs : files) (model : Model) : io unit :=
  do _ <- model_compile model (Adam learning_rate)
            SparseCategoricalCrossentropy [SparseCategoricalAccuracy] ;
  do train_dataset <-
     make_csv_dataset fs (get_dataset_from_csv train_data_file batch_size true) ;
  do test_dataset <-
     make_csv_dataset fs (get_dataset_from_csv test_data_file batch_size false) ;
  do _ <- print "Start training the model..." ;
  do history <- model_fit fw model train_dataset num_epochs ;
  do _ <- print "Model training finished" ;
  do la <- model_evaluate fw model test_dataset ;
  let accuracy := snd la in
  print ("Test accuracy: " ++ fmt_round fw (accuracy * 100)%Q 2 ++ "%")%string.

(** [keras.utils.plot_model(model, ...)] with its default [to_file]. *)
Definition plot_model (m : Model) : io unit := emit (EvPlotModel m "model.png").

(* ================================================================== *)
(** ** Files and datasets

    The train and test frames go through two CSV files: [to_csv] writes
    them, [make_csv_dataset] reads them back as batches.  A file is the
    list of its lines and a line the list of its fields, so the quoting
    of separators inside a field is out of the picture. *)

(** [str(z)] for an integer. *)
Definition str_of_Z (z : Z) : string :=
  NilZero.string_of_int (Z.to_int z).

Definition field_of_cell (c : cell) : string :=
  match c with
  | CInt z => str_of_Z z
  | CStr s => s
  end.

(** [df.to_csv(path, index=False)]: the header line, then one line per
    row, without the index labels. *)
Definition to_csv (df : DataFrame) : csv_file :=
  columns df :: map (fun r => map field_of_cell (snd r)) (rows df).

(** What an event does to the files: [to_csv] creates or overwrites one. *)
Definition write_event (fs : files) (e : event) : files :=
  match e with
  | EvToCsv path df => dict_set fs path (to_csv df)
  | _ => fs
  end.

Definition files_after (trace : list event) (fs : files) : files :=
  fold_left write_event trace fs.

(** The exceptions of the dataset: a [ValueError] when it is created, on
    a path that matches no file or a label that is no column; an
    [InvalidArgumentError] when a record read from the file does not
    parse. *)
Inductive tf_error : Type :=
| TfValueError
| InvalidArgument.

Inductive tf_result (A : Type) : Type :=
| TfOk (a : A)
| TfError (e : tf_error).

Arguments TfOk {A} a.
Arguments TfError {A} e.

(** A parsed field: the column default [[0]] makes the column [int32],
    the default [["NA"]] makes it a string column. *)
Inductive csv_value : Type :=
| CsvInt (z : Z)
| CsvStr (s : string).

Definition in_int32 (z : Z) : bool :=
  ((-2147483648 <=? z) && (z <=? 2147483647))%Z.

(** A decimal field as an [int32]; nothing else is accepted. *)
Definition parse_int32 (field : string) : option Z :=
  match NilZero.int_of_string field with
  | Some d => if in_int32 (Z.of_int d) then Some (Z.of_int d) else None
  | None => None
  end.

(** One field under its column default: an empty field takes the
    default. *)
Definition parse_field (default : csv_default) (field : string)
  : tf_result csv_value :=
  match default with
  | DefaultInt z =>
      if String.eqb field "" then TfOk (CsvInt z)
      else match parse_int32 field with
           | Some v => TfOk (CsvInt v)
           | None => TfError InvalidArgument
           end
  | DefaultStr s =>
      if String.eqb field "" then TfOk (CsvStr s) else TfOk (CsvStr field)
  end.

(** One line: as many fields as there are columns. *)
Fixpoint parse_record (defaults : list csv_default) (fields : list string)
  : tf_result (list csv_value) :=
  match defaults, fields with
  | [], [] => TfOk []
  | d :: defaults', f :: fields' =>
      match parse_field d f with
      | TfOk v =>
          match parse_record defaults' fields' with
          | TfOk vs => TfOk (v :: vs)
          | TfError e => TfError e
          end
      | TfError e => TfError e
      end
  | _, _ => TfError InvalidArgument
  end.

(** An element of the dataset: the features by name, in column order,
    and the label. *)
Definition element := (dict csv_value * csv_value)%type.

(** The label column is taken out of the features. *)
Definition pop_label (label_name : string) (names : list string)
    (values : list csv_value) : tf_result element :=
  match dict_get (combine names values) label_name with
  | Ok l =>
      TfOk (filter (fun kv => negb (String.eqb (fst kv) label_name))
                   (combine names values), l)
  | Raise _ => TfError TfValueError
  end.

(** To convert the datasets elements to from OrderedDict to Dictionary. *)
Definition process (features : dict csv_value) (target : csv_value) : element :=
  (features, target).

Fixpoint parse_lines (d : csv_dataset) (lines : list (list string))
  : tf_result (list element) :=
  match lines with
  | [] => TfOk []
  | line :: rest =>
      match parse_record (column_defaults d) line with
      | TfOk values =>
          match pop_label (label_name d) (column_names d) values with
          | TfOk (features, target) =>
              match parse_lines d rest with
              | TfOk elements => TfOk (process features target :: elements)
              | TfError e => TfError e
              end
          | TfError e => TfError e
          end
      | TfError e => TfError e
      end
  end.

(** [dataset.batch(n)] with the final, shorter batch kept. *)
Definition batches {A} (n : nat) (l : list A) : list (list A) :=
  map (fun i => firstn n (skipn (i * n) l)) (seq 0 ((length l + n - 1) / n)).

(** Creating [get_dataset_from_csv(...)] and iterating once over it.
    The creation raises [ValueError] when the path matches no file or the
    label is no column.  Then the header line is skipped and every other
    line parsed; each epoch is a pass over the elements, shuffled when
    [shuffle] is set ([shuffled e] being the shuffle of epoch [e]); the
    passes are cut into batches. *)
Definition read_dataset (fs : files) (shuffled : nat -> list element -> list element)
    (d : csv_dataset) : tf_result (list (list element)) :=
  match dict_get fs (csv_file_path d) with
  | Raise _ => TfError TfValueError
  | Ok lines =>
      if negb (str_in (label_name d) (column_names d)) then TfError TfValueError
      else
        match parse_lines d (if header d then tl lines else lines) with
        | TfError e => TfError e
        | TfOk elements =>
            if ds_batch_size d =? 0 then TfError InvalidArgument
            else
              TfOk (batches (ds_batch_size d)
                      (flat_map
                         (fun e => if shuffle d then shuffled e elements else elements)
                         (seq 0 (ds_num_epochs d))))
        end
  end.

(** The example a dataset element feeds to a model: integers are cast to
    the float inputs. *)
Definition example_of_features (features : dict csv_value) (name : string)
  : option value :=
  match dict_get features name with
  | Ok (CsvInt z) => Some (VNum (IZR z))
  | Ok (CsvStr s) => Some (VStr s)
  | Raise _ => None
  end.

(* ================================================================== *)
(** ** The three models of the notebook *)

(** The identifiers of the layers with weights in a graph, one per
    occurrence. *)
Fixpoint layer_ids (t : tensor) : list nat :=
  match t with
  | Input _ _ => []
  | ExpandDims x => layer_ids x
  | Lookup _ x => layer_ids x
  | Embedding u _ _ x => u :: layer_ids x
  | Concatenate xs => flat_map layer_ids xs
  | Dense u _ _ x => u :: layer_ids x
  | BatchNormalization u x => u :: layer_ids x
  | ReLU x => layer_ids x
  | Dropout _ x => layer_ids x
  | Multiply x y => layer_ids x ++ layer_ids y
  | Add x y => layer_ids x ++ layer_ids y
  end.

(** [baseline_model], [wide_and_deep_model] and [deep_and_cross_model],
    created in this order. *)
Definition notebook_models (cfv : dict (list string))
  : build (Model * Model * Model) :=
  baseline_model <~ create_baseline_model cfv ;;
  wide_and_deep_model <~ create_wide_and_deep_model cfv ;;
  deep_and_cross_model <~ create_deep_and_cross_model cfv ;;
  ret (baseline_model, wide_and_deep_model, deep_and_cross_model).

(* ================================================================== *)
(** ** Vocabulary of the statements *)

(** The cells a raw row [x] is turned into: the ten numeric columns,
    the decoded wilderness area, the decoded soil type, and the label
    [label l] for the cell [l] of column 54. *)
Definition row_cells (label : Z -> Z) (x : raw_row) (cells : list cell) : Prop :=
  exists w s l,
    decode_block wilderness_area_values (loc_cols 10 13 x) = Ok w /\
    decode_block soil_type_values (loc_cols 14 53 x) = Ok s /\
    nth_error x 54 = Some l /\
    cells = map CInt (loc_cols 0 9 x) ++ [CStr w; CStr s; CInt (label l)].

(** The same with [k] taken off the label, in [int64]. *)
Definition reshaped_row (k : Z) (x : raw_row) (cells : list cell) : Prop :=
  row_cells (fun l => wrap_int64 (l - k)) x cells.

(** An [int64]. *)
Definition is_int64 (z : Z) : bool :=
  ((-9223372036854775808 <=? z) && (z <=? 9223372036854775807))%Z.

(** Some entry of the block is not zero. *)
Definition has_nonzero (x : list Z) : bool :=
  existsb (fun v => negb (v =? 0)%Z) x.

(** A raw row that the reshaping can decode: it reaches column 54 and
    each of its two binary-encoded blocks has a nonzero entry. *)
Definition decodable (x : raw_row) : Prop :=
  54 < length x /\
  has_nonzero (loc_cols 10 13 x) = true /\
  has_nonzero (loc_cols 14 53 x) = true.

(** The test [draw <= 0.85] on a row paired with its draw. *)
Definition selected {A} (rd : A * Q) : bool := Qle_bool (snd rd) (85 # 100).

(** The dict the metadata cell builds, for given vocabularies. *)
Definition two_vocabularies (sv wv : list string) : dict (list string) :=
  [("Soil_Type", sv); ("Wilderness_Area", wv)].

(** The lookup layer [encode_inputs] creates for a vocabulary. *)
Definition lookup_layer (vocab : list string) (mode : output_mode) : StringLookup :=
  mkStringLookup vocab None 0 mode.

Definition numeric_encoding : list tensor :=
  map (fun name => ExpandDims (Input name float32)) NUMERIC_FEATURE_NAMES.

(** The sparse encoding: numeric features as they are, categorical
    features one-hot over their vocabulary. *)
Definition sparse_encoding (sv wv : list string) : tensor :=
  Concatenate
    (numeric_encoding
     ++ [ Lookup (lookup_layer sv mode_binary) (ExpandDims (Input "Soil_Type" string_t));
          Lookup (lookup_layer wv mode_binary)
                 (ExpandDims (Input "Wilderness_Area" string_t)) ]).

(** The dense encoding: categorical features through an embedding, the
    two embedding layers being number [u] and [u + 1]. *)
Definition dense_encoding (sv wv : list string) (u : nat) : tensor :=
  Concatenate
    (numeric_encoding
     ++ [ Embedding u (length sv) (int_sqrt (length sv))
            (Lookup (lookup_layer sv mode_int) (Input "Soil_Type" string_t));
          Embedding (S u) (length wv) (int_sqrt (length wv))
            (Lookup (lookup_layer wv mode_int) (Input "Wilderness_Area" string_t)) ]).

(** One pass of the hidden stack, its two weighted layers being number
    [u] and [u + 1]. *)
Definition hidden_block (u units : nat) (x : tensor) : tensor :=
  Dropout dropout_rate (ReLU (BatchNormalization (S u) (Dense u units linear x))).

(** The recurrence of the cross branch as the text has it:
    [cross_0 = x0] and [cross_(k+1) = x0 * Dense_k(cross_k) + cross_k],
    [Dense_k] having [w] units and being layer number [u + k]. *)
Fixpoint cross_k (x0 : tensor) (w u k : nat) : tensor :=
  match k with
  | 0 => x0
  | S k' =>
      let cross := cross_k x0 w u k' in
      Add (Multiply x0 (Dense (u + k') w linear cross)) cross
  end.

(** The same recurrence on the values of one example. *)
Fixpoint cross_R (p : params) (a : list R) (w u k : nat) : list R :=
  match k with
  | 0 => a
  | S k' =>
      let c := cross_R p a w u k' in
      zip_with Rplus (zip_with Rmult a (dense_R p (u + k') w linear c)) c
  end.

(** The lookup layers of a graph, in graph order. *)
Fixpoint lookups (t : tensor) : list StringLookup :=
  match t with
  | Input _ _ => []
  | ExpandDims x => lookups x
  | Lookup l x => l :: lookups x
  | Embedding _ _ _ x => lookups x
  | Concatenate xs => flat_map lookups xs
  | Dense _ _ _ x => lookups x
  | BatchNormalization _ x => lookups x
  | ReLU x => lookups x
  | Dropout _ x => lookups x
  | Multiply x y => lookups x ++ lookups y
  | Add x y => lookups x ++ lookups y
  end.

(** An example the graphs can be fed: a number for every numeric
    feature, and for each categorical feature a string of its
    vocabulary. *)
Definition well_formed_example (sv wv : list string)
    (ex : string -> option value) : Prop :=
  (forall name, In name NUMERIC_FEATURE_NAMES -> exists r, ex name = Some (VNum r)) /\
  (exists s, ex "Soil_Type" = Some (VStr s) /\ In s sv) /\
  (exists s, ex "Wilderness_Area" = Some (VStr s) /\ In s wv).

(** The example a row of a frame with header [CSV_HEADER] stands for. *)
Definition example_of_row (cells : list cell) (name : string) : option value :=
  match column_pos name CSV_HEADER with
  | Ok p =>
      match nth_error cells p with
      | Some (CInt z) => Some (VNum (IZR z))
      | Some (CStr s) => Some (VStr s)
      | None => None
      end
  | Raise _ => None
  end.

(** The per-channel scale and offset of a batch normalization layer at
    inference. *)
Definition bn_scale (p : params) (uid i : nat) : R :=
  (gamma p uid i / sqrt (moving_variance p uid i + epsilon))%R.

Definition bn_offset (p : params) (uid i : nat) : R :=
  (beta p uid i - moving_mean p uid i * bn_scale p uid i)%R.

(** A model that classifies: its output is a softmax [Dense] layer of
    [NUM_CLASSES] units; whenever it evaluates, the result is a
    probability vector over 7 classes, and it does evaluate on every
    well-formed example. *)
Definition classifier (sv wv : list string) (m : Model) : Prop :=
  (exists uo x, outputs m = Dense uo NUM_CLASSES softmax x) /\
  shape_of (outputs m) = Ok [7] /\
  (forall p ex v,
      eval p ex (outputs m) = Ok v -> exists l, v = VVec l /\ probability_vector 7 l) /\
  (forall p ex,
      well_formed_example sv wv ex ->
      exists l, eval p ex (outputs m) = Ok (VVec l) /\ probability_vector 7 l).

(** The two loops inside [Concatenate], by name. *)
Fixpoint shapes_of (ts : list tensor) : result (list (list nat)) :=
  match ts with
  | [] => Ok []
  | t' :: rest =>
      s <- shape_of t' ;;
      ss <- shapes_of rest ;;
      Ok (s :: ss)
  end.

Fixpoint eval_concat (p : params) (example : string -> option value)
    (ts : list tensor) : result value :=
  match ts with
  | [] => Ok (VVec [])
  | t' :: rest =>
      v <- eval p example t' ;;
      vs <- eval_concat p example rest ;;
      match v, vs with
      | VVec a, VVec b => Ok (VVec (a ++ b))
      | _, _ => Raise ValueError
      end
  end.

(** A value fits a shape: scalars have no axis, vectors one. *)
Definition has_shape (v : value) (s : list nat) : Prop :=
  match v with
  | VNum _ | VStr _ | VIdx _ => s = []
  | VVec a => s = [length a]
  | VStrs l => s = [length l]
  end.

(** A frame cell that survives the trip through a CSV file under the
    default of its column: an integer that fits [int32], or a string that
    is not empty. *)
Definition cell_fits (default : csv_default) (c : cell) : Prop :=
  match default, c with
  | DefaultInt _, CInt z => in_int32 z = true
  | DefaultStr _, CStr s => s <> ""
  | _, _ => False
  end.

Definition value_of_cell (c : cell) : csv_value :=
  match c with
  | CInt z => CsvInt z
  | CStr s => CsvStr s
  end.

(** The dataset element a 13-cell row stands for: the first twelve
    cells under their column names, and the last cell as label. *)
Definition element_of_cells (cells : list cell) : element :=
  (combine (firstn 12 CSV_HEADER) (map value_of_cell (firstn 12 cells)),
   value_of_cell (nth 12 cells (CInt 0))).

(** Width of one encoded categorical feature. *)
Definition encoded_width (use_embedding : bool) (vocab : list string) : nat :=
  if use_embedding then int_sqrt (length vocab) else length vocab.

Definition sum_nat (l : list nat) : nat := fold_right Nat.add 0 l.

(** The dense layers [u], ..., [u + k - 1] output zero on every input. *)
Definition dense_layers_zero (p : params) (u k : nat) : Prop :=
  forall i, i < k ->
            (forall a j, kernel p (u + i) a j = 0%R) /\
            (forall j, bias p (u + i) j = 0%R).

(** The input [create_model_inputs] makes for a feature name. *)
Definition model_input (name : string) : tensor :=
  Input name (if str_in name NUMERIC_FEATURE_NAMES then float32 else string_t).

(** The encodings of the categorical features of a dict, in its order;
    with embeddings, the embedding layers are numbered from [u]. *)
Fixpoint categorical_encoding (use_embedding : bool) (u : nat)
    (cfv : dict (list string)) : list tensor :=
  match cfv with
  | [] => []
  | (name, vocab) :: rest =>
      if use_embedding then
        Embedding u (length vocab) (int_sqrt (length vocab))
          (Lookup (lookup_layer vocab mode_int) (Input name string_t))
          :: categorical_encoding use_embedding (S u) rest
      else
        Lookup (lookup_layer vocab mode_binary) (ExpandDims (Input name string_t))
          :: categorical_encoding use_embedding u rest
  end.

(** The tensor [encode_inputs] returns for a dict of vocabularies, its
    embedding layers numbered from [u]. *)
Definition encoded_inputs (use_embedding : bool) (u : nat)
    (cfv : dict (list string)) : tensor :=
  Concatenate (numeric_encoding ++ categorical_encoding use_embedding u cfv).

Definition encoded_inputs_width (use_embedding : bool) (cfv : dict (list string)) : nat :=
  10 + sum_nat (map (fun kv => encoded_width use_embedding (snd kv)) cfv).

(** The hidden stack over any list of units, its layers numbered from
    [u], two per entry. *)
Fixpoint hidden_blocks (u : nat) (units_list : list nat) (x : tensor) : tensor :=
  match units_list with
  | [] => x
  | units :: rest => hidden_blocks (2 + u) rest (hidden_block u units x)
  end.

(** Every layer with weights of a graph has its identifier in
    [[lo, hi)]. *)
Definition ids_within (lo hi : nat) (t : tensor) : Prop :=
  Forall (fun i => lo <= i < hi) (layer_ids t).

(** Two sets of weights that agree on every layer whose identifier
    satisfies [P], and on the hash of unknown tokens. *)
Definition params_agree_on (P : nat -> Prop) (p p' : params) : Prop :=
  (forall s, oov_hash p s = oov_hash p' s) /\
  forall u, P u ->
            (forall i j, kernel p u i j = kernel p' u i j) /\
            (forall j, bias p u j = bias p' u j) /\
            (forall j, gamma p u j = gamma p' u j) /\
            (forall j, beta p u j = beta p' u j) /\
            (forall j, moving_mean p u j = moving_mean p' u j) /\
            (forall j, moving_variance p u j = moving_variance p' u j) /\
            (forall i j, embeddings p u i j = embeddings p' u i j).

(** A raw row whose cells, and its label once one is taken off, fit
    [int32]. *)
Definition raw_fits (x : raw_row) : bool :=
  forallb (fun z => in_int32 z && in_int32 (z - 1)) x.

(** A dict of feature values the models take: exactly the feature
    names as keys, the numeric features as numbers, the categorical
    features as strings of their vocabulary. *)
Definition well_formed_features (sv wv : list string) (features : dict value) : Prop :=
  same_keys (keys features) (FEATURE_NAMES (two_vocabularies sv wv)) = true /\
  well_formed_example sv wv (features_env features).

(** A model that classifies: it ends in [Dense(NUM_CLASSES, softmax)],
    whatever it returns is a vector of 7 probabilities, it returns one on
    every well-formed dict of features, and it refuses every dict whose
    keys are not the feature names. *)
Definition classifies (sv wv : list string) (m : Model) : Prop :=
  (exists uo x, outputs m = Dense uo NUM_CLASSES softmax x) /\
  shape_of (outputs m) = Ok [7] /\
  (forall p features v,
      model_call m p features = Ok v ->
      exists l, v = VVec l /\ probability_vector 7 l) /\
  (forall p features,
      well_formed_features sv wv features ->
      exists l, model_call m p features = Ok (VVec l) /\ probability_vector 7 l) /\
  (forall p features,
      same_keys (keys features) (FEATURE_NAMES (two_vocabularies sv wv)) = false ->
      forall v, model_call m p features <> Ok v).

(** The value a frame cell feeds to a model. *)
Definition value_of_frame_cell (c : cell) : value :=
  match c with
  | CInt z => VNum (IZR z)
  | CStr s => VStr s
  end.

(** The record a 13-cell row stands for, under the names of
    [CSV_HEADER], and its features: the record without the target. *)
Definition record_of_row (cells : list cell) : dict value :=
  combine CSV_HEADER (map value_of_frame_cell cells).

Definition features_of_row (cells : list cell) : dict value :=
  filter (fun kv => negb (String.eqb (fst kv) TARGET_FEATURE_NAME))
         (record_of_row cells).

(** Vocabularies a [StringLookup] accepts: not empty and without a
    repeated term, as [unique()] gives them on a column with a row. *)
Definition valid_vocabularies (cfv : dict (list string)) : Prop :=
  Forall (fun kv => snd kv <> [] /\ NoDup (snd kv)) cfv.

(* ================================================================== *)
(** ** Sample inputs *)

(** A width-[n] block with a single [1] at position [k]. *)
Definition one_at (n k : nat) : list Z :=
  map (fun i => if i =? k then 1%Z else 0%Z) (seq 0 n).

(** A 55-column raw row: ten numeric cells [v], wilderness area [w],
    soil type [s] (both counted from zero) and raw label [l]. *)
Definition sample_row (v : Z) (w s : nat) (l : Z) : raw_row :=
  repeat v 10 ++ one_at 4 w ++ one_at 40 s ++ [l].

Definition sample_raw : list raw_row :=
  [sample_row 7 0 0 1; sample_row 8 3 39 7; sample_row 9 1 5 1].

Definition sample_data : DataFrame :=
  Eval vm_compute in
    match reshape sample_raw with
    | Ok data => data
    | Raise _ => mkDataFrame [] []
    end.

(** Draws [0.5], [0.9], then [0.86] for ever. *)
Definition sample_rng : rng :=
  fun i => match i with
           | 0 => (1 # 2)%Q
           | 1 => (9 # 10)%Q
           | _ => (86 # 100)%Q
           end.

(** A fit that writes the progress bar of its one batch and succeeds, an
    evaluation that finds one test row out of two rightly classified. *)
Definition sample_framework : framework :=
  mkFramework (fun _ _ _ => ("1/1 [==============================]", Ok tt))
              (fun _ _ => Ok (2%Q, (1 # 2)%Q))
              (fun _ _ => "50.0").

Definition sample_params : params :=
  mkParams (fun _ _ _ => 0%R) (fun _ _ => 0%R) (fun _ _ => 1%R) (fun _ _ => 0%R)
           (fun _ _ => 0%R) (fun _ _ => 1%R) (fun _ _ _ => 0%R) (fun _ => 0).

Definition sample_cfv : dict (list string) :=
  [("Soil_Type", ["soil_type_1"; "soil_type_40"; "soil_type_6"]);
   ("Wilderness_Area", ["area_type_1"; "area_type_4"; "area_type_2"])].

(** A generator whose draws are all [0.9]. *)
Definition high_rng : rng := fun _ => (9 # 10)%Q.

(** Three categorical features. *)
Definition three_vocabularies : dict (list string) :=
  [("Soil_Type", ["a"; "b"; "c"; "d"]); ("Wilderness_Area", ["x"]);
   ("Region", ["north"; "south"])].

(** The twelve features of an example whose soil type is in no
    vocabulary of the samples, and those of an example whose soil type is
    in the sample vocabularies. *)
Definition unseen_features : dict value :=
  map (fun name => (name, VNum 0%R)) NUMERIC_FEATURE_NAMES
  ++ [("Soil_Type", VStr "soil_type_99"); ("Wilderness_Area", VStr "area_type_1")].

Definition seen_features : dict value :=
  map (fun name => (name, VNum 0%R)) NUMERIC_FEATURE_NAMES
  ++ [("Soil_Type", VStr "soil_type_40"); ("Wilderness_Area", VStr "area_type_1")].

(** The sample weights after a change of every layer numbered below 5. *)
Definition retrained_params : params :=
  mkParams (fun u _ _ => if u <? 5 then 1%R else 0%R)
           (fun u _ => if u <? 5 then 2%R else 0%R)
           (fun _ _ => 1%R) (fun _ _ => 0%R)
           (fun _ _ => 0%R) (fun _ _ => 1%R) (fun _ _ _ => 0%R) (fun _ => 0).

(** The three models over the sample vocabularies. *)
Definition sample_models : Model * Model * Model :=
  Eval vm_compute in
    match notebook_models sample_cfv 0 with
    | Ok (models, _) => models
    | Raise _ =>
        let none := mkModel [] (Input "" float32) in (none, none, none)
    end.

(** The split of the sample frame under [sample_rng], without shuffles. *)
Definition sample_split : DataFrame * DataFrame :=
  Eval vm_compute in
    match train_test_split sample_rng (fun l => l) (fun l => l) sample_data with
    | Ok frames => frames
    | Raise _ => (mkDataFrame [] [], mkDataFrame [] [])
    end.

(* ================================================================== *)
(** * Properties *)

(** ** The [result] monad *)

Lemma rbind_ok {A B} (m : result A) (k : A -> result B) (b : B) :
  rbind m k = Ok b -> exists a, m = Ok a /\ k a = Ok b.
Proof.
  destruct m as [a|e]; simpl; intros H; [eauto | discriminate].
Qed.

Ltac inv_ok :=
  repeat match goal with
  | H : rbind _ _ = Ok _ |- _ =>
      let a := fresh "a" in
      let Ha := fresh "Ha" in
      apply rbind_ok in H; destruct H as (a & Ha & H)
  | H : Ok _ = Ok _ |- _ => injection H as H; subst
  | H : Raise _ = Ok _ |- _ => discriminate H
  end.

Lemma apply_rows_ok {A B} (f : A -> result B) (l : list A) (out : list B) :
  apply_rows f l = Ok out -> Forall2 (fun x y => f x = Ok y) l out.
Proof.
  revert out; induction l as [|x l IH]; simpl; intros out H.
  - inv_ok. constructor.
  - inv_ok. constructor; auto.
Qed.

Lemma apply_rows_total {A B} (f : A -> result B) (l : list A) :
  Forall (fun x => exists y, f x = Ok y) l -> exists out, apply_rows f l = Ok out.
Proof.
  induction 1 as [|x l (y & Hy) _ (out & Hout)]; simpl.
  - eauto.
  - rewrite Hy, Hout. simpl. eauto.
Qed.

Lemma apply_rows_raise {A B} (f : A -> result B) (l1 l2 : list A) (x : A) (e : exn) :
  Forall (fun y => exists z, f y = Ok z) l1 -> f x = Raise e ->
  apply_rows f (l1 ++ x :: l2) = Raise e.
Proof.
  induction 1 as [|y l (z & Hz) _ IH]; simpl; intros Hx.
  - now rewrite Hx.
  - rewrite Hz. simpl. now rewrite IH.
Qed.

Lemma apply_rows_ext {A B} (f g : A -> result B) (l : list A) :
  (forall x, In x l -> f x = g x) -> apply_rows f l = apply_rows g l.
Proof.
  induction l as [|x l IH]; simpl; intros H; [reflexivity|].
  rewrite H by auto. rewrite IH by auto. reflexivity.
Qed.

Lemma apply_rows_map {A B C} (f : B -> result C) (h : A -> B) (l : list A) :
  apply_rows f (map h l) = apply_rows (fun x => f (h x)) l.
Proof.
  induction l as [|x l IH]; simpl; [reflexivity|]. now rewrite IH.
Qed.

Lemma Forall2_in_right {A B} (P : A -> B -> Prop) (l : list A) (l' : list B) (y : B) :
  Forall2 P l l' -> In y l' -> exists x, In x l /\ P x y.
Proof.
  induction 1 as [|x z l l' Hxz _ IH]; simpl; [tauto|].
  intros [<-|Hin].
  - eauto.
  - destruct (IH Hin) as (x' & Hx' & Hp). eauto.
Qed.

Lemma Forall2_in_left {A B} (P : A -> B -> Prop) (l : list A) (l' : list B) (x : A) :
  Forall2 P l l' -> In x l -> exists y, In y l' /\ P x y.
Proof.
  induction 1 as [|x' z l l' Hxz _ IH]; simpl; [tauto|].
  intros [<-|Hin].
  - eauto.
  - destruct (IH Hin) as (y & Hy & Hp). eauto.
Qed.

(** ** Decoding a binary-encoded block *)

Lemma nonzero_from_zeros (i k : nat) (v : Z) (rest : list Z) :
  v <> 0%Z ->
  nonzero_from i (repeat 0%Z k ++ v :: rest) = (i + k) :: nonzero_from (S (i + k)) rest.
Proof.
  revert i; induction k as [|k IH]; intros i Hv; simpl.
  - apply Z.eqb_neq in Hv. rewrite Hv. now rewrite Nat.add_0_r.
  - rewrite IH by assumption. now rewrite Nat.add_succ_r.
Qed.

Lemma nonzero_from_all_zero (i : nat) (x : list Z) :
  Forall (fun v => v = 0%Z) x -> nonzero_from i x = [].
Proof.
  intros H; revert i; induction H as [|v x Hv _ IH]; intros i; simpl.
  - reflexivity.
  - subst v. simpl. apply IH.
Qed.

Lemma nonzero_from_cons_inv (i j : nat) (x : list Z) (l : list nat) :
  nonzero_from i x = j :: l ->
  exists k v rest, j = i + k /\ v <> 0%Z /\ x = repeat 0%Z k ++ v :: rest.
Proof.
  revert i; induction x as [|v x IH]; intros i; simpl; [discriminate|].
  destruct (Z.eqb_spec v 0) as [->|Hv]; intros H.
  - apply IH in H. destruct H as (k & w & rest & -> & Hw & ->).
    exists (S k), w, rest. repeat split; auto; lia.
  - injection H as <- _. exists 0, v, x. repeat split; auto.
Qed.

Lemma nonzero_from_nil_inv (i : nat) (x : list Z) :
  nonzero_from i x = [] -> Forall (fun v => v = 0%Z) x.
Proof.
  revert i; induction x as [|v x IH]; intros i; simpl; [constructor|].
  destruct (Z.eqb_spec v 0) as [->|Hv]; intros H; [|discriminate].
  constructor; eauto.
Qed.

Lemma decode_block_first (values : list string) (k : nat) (v : Z) (rest : list Z) :
  v <> 0%Z ->
  decode_block values (repeat 0%Z k ++ v :: rest) = getitem values k.
Proof.
  intros Hv. unfold decode_block, nonzero.
  rewrite nonzero_from_zeros by assumption. reflexivity.
Qed.

Lemma decode_block_all_zero (values : list string) (x : list Z) :
  Forall (fun v => v = 0%Z) x -> decode_block values x = Raise IndexError.
Proof.
  intros H. unfold decode_block, nonzero.
  now rewrite nonzero_from_all_zero.
Qed.

Lemma decode_block_ok_inv (values : list string) (x : list Z) (name : string) :
  decode_block values x = Ok name ->
  exists k v rest,
    v <> 0%Z /\ x = repeat 0%Z k ++ v :: rest /\ nth_error values k = Some name.
Proof.
  unfold decode_block, nonzero. intros H.
  destruct (nonzero_from 0 x) as [|j l] eqn:E; [discriminate|].
  apply nonzero_from_cons_inv in E. destruct E as (k & v & rest & -> & Hv & ->).
  exists k, v, rest. repeat split; auto.
  simpl in H. unfold getitem, slice_0_1 in H. simpl in H.
  destruct (nth_error values k); [congruence | discriminate].
Qed.

Lemma soil_type_values_nth (k : nat) :
  k < 40 ->
  nth_error soil_type_values k = Some ("soil_type_" ++ str_of_nat (k + 1))%string.
Proof.
  intros H. unfold soil_type_values.
  rewrite nth_error_map, nth_error_seq.
  apply Nat.ltb_lt in H. rewrite H. reflexivity.
Qed.

Lemma wilderness_area_values_nth (k : nat) :
  k < 4 ->
  nth_error wilderness_area_values k = Some ("area_type_" ++ str_of_nat (k + 1))%string.
Proof.
  intros H. unfold wilderness_area_values.
  rewrite nth_error_map, nth_error_seq.
  apply Nat.ltb_lt in H. rewrite H. reflexivity.
Qed.

Lemma loc_cols_length (a b : nat) (x : raw_row) :
  length (loc_cols a b x) <= b + 1 - a.
Proof.
  unfold loc_cols. rewrite length_firstn. lia.
Qed.

Lemma loc_cols_full (a b : nat) (x : raw_row) :
  b < length x -> length (loc_cols a b x) = b + 1 - a.
Proof.
  intros H. unfold loc_cols. rewrite length_firstn, length_skipn. lia.
Qed.

Lemma repeat_app_length_le (k : nat) (v : Z) (rest x : list Z) :
  x = repeat 0%Z k ++ v :: rest -> k < length x.
Proof.
  intros ->. rewrite length_app, repeat_length. simpl. lia.
Qed.

(** ** Reshaping *)

Lemma column_pos_Cover_Type : column_pos "Cover_Type" CSV_HEADER = Ok 12.
Proof. reflexivity. Qed.

Lemma column_pos_Soil_Type : column_pos "Soil_Type" CSV_HEADER = Ok 11.
Proof. reflexivity. Qed.

Lemma column_pos_Wilderness_Area : column_pos "Wilderness_Area" CSV_HEADER = Ok 10.
Proof. reflexivity. Qed.

Lemma update_at_app {A} (f : A -> result A) (a b : list A) (k : nat) :
  update_at (length a + k) f (a ++ b) = (b' <- update_at k f b ;; Ok (a ++ b')).
Proof.
  induction a as [|x a IH]; simpl.
  - destruct (update_at k f b); reflexivity.
  - rewrite IH. destruct (update_at k f b); reflexivity.
Qed.

Lemma concat_axis1_spec (raw : list raw_row) :
  forall (i : nat) (wild soil : list string) (lab : list Z),
    Forall2 (fun x w => decode_block wilderness_area_values (loc_cols 10 13 x) = Ok w)
            raw wild ->
    Forall2 (fun x s => decode_block soil_type_values (loc_cols 14 53 x) = Ok s)
            raw soil ->
    Forall2 (fun x l => nth_error x 54 = Some l) raw lab ->
    let body := concat_axis1 i (map (loc_cols 0 9) raw) wild soil lab in
    map fst body = seq i (length raw) /\
    Forall2 (row_cells (fun l => l))
            raw (map snd body).
Proof.
  induction raw as [|x raw IH]; intros i wild soil lab Hw Hs Hl; simpl.
  - split; constructor.
  - inversion Hw as [|? w ? wild' Hw1 Hw2]; subst.
    inversion Hs as [|? s ? soil' Hs1 Hs2]; subst.
    inversion Hl as [|? l ? lab' Hl1 Hl2]; subst.
    destruct (IH (S i) wild' soil' lab' Hw2 Hs2 Hl2) as [IH1 IH2].
    simpl. split.
    + f_equal. exact IH1.
    + constructor; [|exact IH2].
      exists w, s, l. repeat split; auto.
Qed.

Lemma sub_label_rows (body : list (nat * list cell)) (raw : list raw_row) :
  forall out,
    Forall2 (row_cells (fun l => l))
            raw (map snd body) ->
    apply_rows (fun r => cells <- update_at 12 (cell_sub 1) (snd r) ;; Ok (fst r, cells))
               body = Ok out ->
    map fst out = map fst body /\
    Forall2 (reshaped_row 1)
            raw (map snd out).
Proof.
  revert raw; induction body as [|[i cells] body IH]; intros raw out HF H.
  - simpl in H. inv_ok. inversion HF; subst. split; constructor.
  - inversion HF as [|x ? raw' ? (w & s & l & Hw & Hs & Hl & Hc) HF']; subst.
    assert (Hlen : length (map CInt (loc_cols 0 9 x)) = 10).
    { rewrite length_map. apply loc_cols_full.
      assert (Hne : nth_error x 54 <> None) by congruence.
      apply nth_error_Some in Hne. lia. }
    cbn [apply_rows fst snd] in H. inv_ok.
    destruct (IH raw' a0 HF' Ha0) as [IH1 IH2].
    cbn [map fst snd]. split; [now f_equal|].
    constructor; [|exact IH2].
    exists w, s, l. repeat split; auto.
    change 12 with (10 + 2) in Ha1. rewrite <- Hlen in Ha1.
    rewrite update_at_app in Ha1. simpl in Ha1. inv_ok.
    reflexivity.
Qed.

Lemma has_nonzero_first (x : list Z) :
  has_nonzero x = true ->
  exists k v rest, v <> 0%Z /\ x = repeat 0%Z k ++ v :: rest.
Proof.
  induction x as [|v x IH]; simpl; [discriminate|].
  destruct (Z.eqb_spec v 0) as [->|Hv]; simpl; intros H.
  - destruct (IH H) as (k & w & rest & Hw & ->).
    exists (S k), w, rest. split; auto.
  - exists 0, v, x. split; auto.
Qed.

Lemma has_nonzero_app (k : nat) (v : Z) (rest : list Z) :
  v <> 0%Z -> has_nonzero (repeat 0%Z k ++ v :: rest) = true.
Proof.
  intros Hv. unfold has_nonzero. rewrite existsb_app. simpl.
  apply Z.eqb_neq in Hv. rewrite Hv. simpl. apply orb_true_r.
Qed.

Lemma decode_block_total (values : list string) (x : list Z) :
  has_nonzero x = true -> length x <= length values ->
  exists name, decode_block values x = Ok name.
Proof.
  intros H Hlen. destruct (has_nonzero_first x H) as (k & v & rest & Hv & E).
  pose proof (repeat_app_length_le k v rest x E) as Hk.
  rewrite E, decode_block_first by assumption.
  unfold getitem. destruct (nth_error values k) as [name|] eqn:En; [eauto|].
  apply nth_error_None in En. lia.
Qed.

Lemma decode_block_ok_nonzero (values : list string) (x : list Z) (name : string) :
  decode_block values x = Ok name -> has_nonzero x = true.
Proof.
  intros H. apply decode_block_ok_inv in H.
  destruct H as (k & v & rest & Hv & -> & _). now apply has_nonzero_app.
Qed.

Lemma reshaped_row_length (k : Z) (x : raw_row) (cells : list cell) :
  reshaped_row k x cells -> length cells = 13.
Proof.
  intros (w & s & l & _ & _ & Hl & ->).
  rewrite length_app, length_map, loc_cols_full; [reflexivity|].
  assert (Hne : nth_error x 54 <> None) by congruence.
  apply nth_error_Some in Hne. lia.
Qed.

Lemma reshaped_row_decodable (k : Z) (x : raw_row) (cells : list cell) :
  reshaped_row k x cells -> decodable x.
Proof.
  intros (w & s & l & Hw & Hs & Hl & _). repeat split.
  - assert (Hne : nth_error x 54 <> None) by congruence.
    apply nth_error_Some in Hne. lia.
  - eapply decode_block_ok_nonzero; eauto.
  - eapply decode_block_ok_nonzero; eauto.
Qed.

Lemma loc_col_ok (c : nat) (raw : list raw_row) (col : list Z) :
  loc_col c raw = Ok col ->
  c < frame_width raw /\ Forall2 (fun x l => nth_error x c = Some l) raw col.
Proof.
  unfold loc_col. destruct (Nat.ltb_spec c (frame_width raw)) as [Hc|Hc];
    [|discriminate].
  intros H. split; [exact Hc|]. apply apply_rows_ok in H.
  eapply Forall2_impl; [|exact H]. cbv beta. intros x l Hx.
  destruct (nth_error x c); [congruence | discriminate].
Qed.

Lemma apply_block_ok (a b : nat) (f : list Z -> result string)
    (raw : list raw_row) (out : list string) :
  a < frame_width raw ->
  apply_block a b f raw = Ok out ->
  Forall2 (fun x y => f (loc_cols a b x) = Ok y) raw out.
Proof.
  unfold apply_block. intros Ha.
  destruct (Nat.leb_spec (frame_width raw) a) as [Hc|Hc]; [lia|].
  apply apply_rows_ok.
Qed.

Lemma reshape_width (raw : list raw_row) (data : DataFrame) :
  reshape raw = Ok data -> 55 <= frame_width raw.
Proof.
  unfold reshape. intros H.
  apply rbind_ok in H as (soil & Hs & H).
  apply rbind_ok in H as (wild & Hw & H).
  apply rbind_ok in H as (lab & Hl & H).
  apply loc_col_ok in Hl as (Hc & _). lia.
Qed.

Lemma reshape_ok (raw : list raw_row) (data : DataFrame) :
  reshape raw = Ok data ->
  columns data = CSV_HEADER /\
  map fst (rows data) = seq 0 (length raw) /\
  Forall2 (reshaped_row 1) raw (map snd (rows data)).
Proof.
  unfold reshape, soil_type, wilderness_area. intros H.
  apply rbind_ok in H as (soil & Hs & H).
  apply rbind_ok in H as (wild & Hw & H).
  apply rbind_ok in H as (lab & Hl & H).
  apply rbind_ok in H as (df & Hdf & H).
  apply loc_col_ok in Hl as (Hwidth & Hl).
  apply apply_block_ok in Hs; [|lia]. apply apply_block_ok in Hw; [|lia].
  destruct (concat_axis1_spec raw 0 wild soil lab Hw Hs Hl) as [Hidx Hrows].
  unfold set_columns in Hdf.
  destruct (forallb _ _); [|discriminate]. injection Hdf as <-.
  unfold sub_column in H. cbn [columns rows] in H.
  rewrite column_pos_Cover_Type in H. cbn [rbind] in H.
  apply rbind_ok in H as (out & Hout & H). injection H as <-.
  destruct (sub_label_rows _ raw out Hrows Hout) as [H1 H2].
  cbn [columns rows]. repeat split; auto. congruence.
Qed.

Lemma reshape_total (raw : list raw_row) :
  raw <> [] -> Forall decodable raw -> exists data, reshape raw = Ok data.
Proof.
  intros Hne Hraw.
  assert (Hwd : 54 < frame_width raw).
  { destruct raw as [|x raw]; [contradiction|].
    inversion Hraw as [|? ? (H & _) _]; subst. exact H. }
  unfold reshape, soil_type, wilderness_area, apply_block, loc_col.
  replace (frame_width raw <=? 14) with false by (symmetry; apply Nat.leb_gt; lia).
  replace (frame_width raw <=? 10) with false by (symmetry; apply Nat.leb_gt; lia).
  replace (54 <? frame_width raw) with true by (symmetry; apply Nat.ltb_lt; lia).
  assert (Hs : exists soil,
             apply_rows (fun x => decode_block soil_type_values (loc_cols 14 53 x)) raw
             = Ok soil).
  { apply apply_rows_total. eapply Forall_impl; [|exact Hraw].
    intros x (_ & _ & H). apply decode_block_total; [exact H|].
    pose proof (loc_cols_length 14 53 x) as Hb.
    change (length soil_type_values) with 40. lia. }
  assert (Hw : exists wild,
             apply_rows (fun x => decode_block wilderness_area_values (loc_cols 10 13 x))
                        raw
             = Ok wild).
  { apply apply_rows_total. eapply Forall_impl; [|exact Hraw].
    intros x (_ & H & _). apply decode_block_total; [exact H|].
    pose proof (loc_cols_length 10 13 x) as Hb.
    change (length wilderness_area_values) with 4. lia. }
  assert (Hl : exists lab,
             apply_rows (fun x => match nth_error x 54 with
                                  | Some v => Ok v
                                  | None => Raise KeyError
                                  end) raw
             = Ok lab).
  { apply apply_rows_total. eapply Forall_impl; [|exact Hraw].
    intros x (H & _).
    destruct (nth_error x 54) eqn:E; [eauto|].
    apply nth_error_None in E. lia. }
  destruct Hs as (soil & Hs), Hw as (wild & Hw), Hl as (lab & Hl).
  rewrite Hs, Hw, Hl. cbn [rbind].
  apply apply_rows_ok in Hs, Hw, Hl.
  assert (Hl' : Forall2 (fun x l => nth_error x 54 = Some l) raw lab).
  { eapply Forall2_impl; [|exact Hl]. cbv beta. intros x l Hx.
    destruct (nth_error x 54); [congruence | discriminate]. }
  destruct (concat_axis1_spec raw 0 wild soil lab Hw Hs Hl') as [_ Hrows].
  set (body := concat_axis1 0 (map (loc_cols 0 9) raw) wild soil lab) in *.
  assert (Hten : forall x l, nth_error x 54 = Some l ->
                             length (map CInt (loc_cols 0 9 x)) = 10).
  { intros x l Hx. rewrite length_map. apply loc_cols_full.
    assert (Hn : nth_error x 54 <> None) by congruence.
    apply nth_error_Some in Hn. lia. }
  assert (Hlen : Forall (fun r => length (snd r) = 13) body).
  { apply Forall_forall. intros r Hr.
    apply (in_map snd) in Hr.
    destruct (Forall2_in_right _ _ _ _ Hrows Hr)
      as (x & _ & (w & s & l & _ & _ & Hx & E)).
    rewrite E, length_app, (Hten x l Hx). reflexivity. }
  unfold set_columns.
  replace (forallb _ body) with true.
  2:{ symmetry. apply forallb_forall. intros r Hr.
      rewrite Forall_forall in Hlen. rewrite (Hlen r Hr). reflexivity. }
  cbn [rbind]. unfold sub_column. cbn [columns rows].
  rewrite column_pos_Cover_Type. cbn [rbind].
  assert (Hu : exists out,
             apply_rows (fun r => cells <- update_at 12 (cell_sub 1) (snd r) ;;
                                  Ok (fst r, cells)) body = Ok out).
  { apply apply_rows_total. apply Forall_forall. intros r Hr.
    apply (in_map snd) in Hr.
    destruct (Forall2_in_right _ _ _ _ Hrows Hr)
      as (x & _ & (w & s & l & _ & _ & Hx & E)).
    rewrite E.
    change 12 with (10 + 2). rewrite <- (Hten x l Hx), update_at_app. simpl. eauto. }
  destruct Hu as (out & Hu). rewrite Hu. cbn [rbind]. eauto.
Qed.



(** ** Which columns the reshaping reads *)

Lemma wrap_int64_small (z : Z) :
  (-9223372036854775808 <= z <= 9223372036854775807)%Z -> wrap_int64 z = z.
Proof.
  intros H. unfold wrap_int64. rewrite Z.mod_small by lia. lia.
Qed.

Lemma loc_cols_nth (a b i : nat) (x : raw_row) :
  a + i <= b -> nth_error (loc_cols a b x) i = nth_error x (a + i).
Proof.
  intros H. unfold loc_cols.
  rewrite nth_error_firstn.
  replace (i <? b + 1 - a) with true by (symmetry; apply Nat.ltb_lt; lia).
  now rewrite nth_error_skipn.
Qed.

Lemma loc_cols_firstn (a b n : nat) (x : raw_row) :
  b < n -> loc_cols a b (firstn n x) = loc_cols a b x.
Proof.
  intros H. unfold loc_cols.
  rewrite skipn_firstn_comm, firstn_firstn.
  f_equal. lia.
Qed.

Lemma frame_width_firstn (n : nat) (raw : list raw_row) :
  frame_width (map (firstn n) raw) = Nat.min n (frame_width raw).
Proof.
  destruct raw as [|x raw]; cbn [map frame_width].
  - now rewrite Nat.min_0_r.
  - apply length_firstn.
Qed.

Lemma loc_col_firstn (c n : nat) (raw : list raw_row) :
  c < n -> loc_col c (map (firstn n) raw) = loc_col c raw.
Proof.
  intros H. unfold loc_col. rewrite frame_width_firstn.
  replace (c <? Nat.min n (frame_width raw)) with (c <? frame_width raw).
  2:{ destruct (Nat.ltb_spec c (frame_width raw));
      destruct (Nat.ltb_spec c (Nat.min n (frame_width raw))); auto; lia. }
  destruct (c <? frame_width raw); [|reflexivity].
  rewrite apply_rows_map. apply apply_rows_ext. intros x _.
  rewrite nth_error_firstn. apply Nat.ltb_lt in H. now rewrite H.
Qed.

Lemma apply_block_firstn (a b n : nat) (f : list Z -> result string)
    (raw : list raw_row) :
  b < n -> a <= b ->
  apply_block a b f (map (firstn n) raw) = apply_block a b f raw.
Proof.
  intros Hb Ha. unfold apply_block. rewrite frame_width_firstn.
  replace (Nat.min n (frame_width raw) <=? a) with (frame_width raw <=? a).
  2:{ destruct (Nat.leb_spec (frame_width raw) a);
      destruct (Nat.leb_spec (Nat.min n (frame_width raw)) a); auto; lia. }
  destruct (frame_width raw <=? a); [reflexivity|].
  rewrite apply_rows_map. apply apply_rows_ext. intros x _.
  now rewrite loc_cols_firstn.
Qed.

Lemma reshape_firstn_55 (raw : list raw_row) :
  reshape (map (firstn 55) raw) = reshape raw.
Proof.
  unfold reshape, soil_type, wilderness_area.
  rewrite !apply_block_firstn by lia. rewrite loc_col_firstn by lia.
  rewrite map_map.
  assert (Hn : map (fun x => loc_cols 0 9 (firstn 55 x)) raw = map (loc_cols 0 9) raw).
  { apply map_ext. intros x. now rewrite loc_cols_firstn by lia. }
  rewrite Hn. reflexivity.
Qed.

Lemma row_55_split (x : raw_row) :
  length x = 55 ->
  exists l,
    nth_error x 54 = Some l /\
    x = loc_cols 0 9 x ++ loc_cols 10 13 x ++ loc_cols 14 53 x ++ [l].
Proof.
  intros H.
  do 55 (destruct x as [|? x]; [discriminate|]).
  destruct x; [|discriminate].
  eexists. split; reflexivity.
Qed.

Lemma read_csv_ok (web : string -> csv_table) (url : string) (raw : list raw_row) :
  read_csv web url = Ok raw ->
  raw <> [] /\
  frame_width raw = table_width (web url) /\
  Forall (fun x => length x = table_width (web url)) raw /\
  Forall2 (fun line x => forall j, j < table_width (web url) ->
                                   nth_error x j = Some (line j))
          (table_lines (web url)) raw.
Proof.
  unfold read_csv. cbv zeta.
  destruct (table_width (web url)) as [|w] eqn:Ew; [discriminate|].
  destruct (table_lines (web url)) as [|line lines] eqn:El; [discriminate|].
  intros H.
  assert (E : raw = map (fun l => map l (seq 0 (S w))) (line :: lines))
    by (injection H as <-; reflexivity).
  clear H. subst raw.
  assert (Hlen : forall l : nat -> Z, length (map l (seq 0 (S w))) = S w)
    by (intros l; now rewrite length_map, length_seq).
  split; [discriminate|]. split; [|split].
  - cbn [map frame_width]. apply Hlen.
  - apply Forall_map. apply Forall_forall. intros l _. apply Hlen.
  - generalize (line :: lines). intros ls.
    induction ls as [|l ls IH]; cbn [map]; constructor; [|exact IH].
    intros j Hj. rewrite nth_error_map, nth_error_seq.
    apply Nat.ltb_lt in Hj. now rewrite Hj.
Qed.



(** ** Shape of the reshaped frame *)

Lemma reshape_rows_length (raw : list raw_row) (data : DataFrame) :
  reshape raw = Ok data -> length (rows data) = length raw.
Proof.
  intros H. apply reshape_ok in H as (_ & _ & H).
  apply Forall2_length in H. rewrite length_map in H. congruence.
Qed.

Lemma reshaped_row_label (x : raw_row) (cells : list cell) :
  reshaped_row 1 x cells ->
  exists v,
    nth_error x 54 = Some v /\
    nth_error cells 12 = Some (CInt (wrap_int64 (v - 1))).
Proof.
  intros Hr. pose proof (reshaped_row_decodable _ _ _ Hr) as (Hlen & _).
  destruct Hr as (w & s & l & _ & _ & Hl & ->).
  exists l. split; [assumption|].
  assert (Hten : length (map CInt (loc_cols 0 9 x)) = 10).
  { rewrite length_map. apply loc_cols_full. lia. }
  rewrite nth_error_app2 by lia. rewrite Hten. reflexivity.
Qed.



(** ** Grouping by label *)

Lemma insert_key_In (k x : Z) (l : list Z) :
  In x (insert_key k l) <-> x = k \/ In x l.
Proof.
  induction l as [|h l IH]; simpl.
  - intuition.
  - destruct (Z.ltb_spec k h); simpl; [intuition|].
    destruct (Z.eqb_spec k h); simpl.
    + subst. intuition.
    + rewrite IH. intuition.
Qed.

Lemma insert_key_sorted (k : Z) (l : list Z) :
  StronglySorted Z.lt l -> StronglySorted Z.lt (insert_key k l).
Proof.
  induction 1 as [|h l Hs IH Hall]; simpl.
  - repeat constructor.
  - destruct (Z.ltb_spec k h).
    + constructor; [constructor; assumption|].
      constructor; [assumption|].
      eapply Forall_impl; [|exact Hall]. intros; simpl in *; lia.
    + destruct (Z.eqb_spec k h).
      * constructor; assumption.
      * constructor; [assumption|].
        apply Forall_forall. intros x Hx. apply insert_key_In in Hx.
        destruct Hx as [->|Hx]; [lia|].
        rewrite Forall_forall in Hall. auto.
Qed.

Lemma sorted_keys_sorted (keys : list Z) : StronglySorted Z.lt (sorted_keys keys).
Proof.
  induction keys as [|k keys IH]; simpl; [constructor|].
  now apply insert_key_sorted.
Qed.

Lemma sorted_keys_In (keys : list Z) (x : Z) :
  In x (sorted_keys keys) <-> In x keys.
Proof.
  induction keys as [|k keys IH]; simpl; [tauto|].
  rewrite insert_key_In, IH. intuition.
Qed.

Lemma strongly_sorted_NoDup (l : list Z) : StronglySorted Z.lt l -> NoDup l.
Proof.
  induction 1 as [|h l Hs IH Hall]; constructor; [|assumption].
  intros Hin. rewrite Forall_forall in Hall. specialize (Hall h Hin). lia.
Qed.

Section Groups.

Context {A : Type}.

Lemma filter_other_key (p : Z * A) (kl : list (Z * A)) (ks : list Z) :
  ~ In (fst p) ks ->
  map (fun k => filter (fun kr => (fst kr =? k)%Z) (p :: kl)) ks
  = map (fun k => filter (fun kr => (fst kr =? k)%Z) kl) ks.
Proof.
  intros Hn. apply map_ext_in. intros k Hk. simpl.
  destruct (Z.eqb_spec (fst p) k); [subst; contradiction | reflexivity].
Qed.

Lemma groups_cons (p : Z * A) (kl : list (Z * A)) (ks : list Z) :
  NoDup ks -> In (fst p) ks ->
  Permutation
    (concat (map (fun k => filter (fun kr => (fst kr =? k)%Z) (p :: kl)) ks))
    (p :: concat (map (fun k => filter (fun kr => (fst kr =? k)%Z) kl) ks)).
Proof.
  induction 1 as [|k ks Hk Hnd IH]; [simpl; tauto|].
  intros Hin. cbn [map concat].
  destruct (Z.eqb_spec (fst p) k) as [E|E].
  - subst k. rewrite filter_other_key by assumption.
    cbn [filter]. rewrite Z.eqb_refl. reflexivity.
  - destruct Hin as [Hin|Hin]; [congruence|].
    rewrite (IH Hin). cbn [filter].
    apply Z.eqb_neq in E. rewrite E.
    apply Permutation_sym, Permutation_middle.
Qed.

Lemma groups_permutation (kl : list (Z * A)) (ks : list Z) :
  NoDup ks -> (forall p, In p kl -> In (fst p) ks) ->
  Permutation (concat (map (fun k => filter (fun kr => (fst kr =? k)%Z) kl) ks)) kl.
Proof.
  intros Hnd. induction kl as [|p kl IH]; intros Hin.
  - clear. induction ks as [|k ks IHk]; simpl; [constructor | exact IHk].
  - rewrite groups_cons by (auto; apply Hin; now left).
    constructor. apply IH. intros q Hq. apply Hin. now right.
Qed.

End Groups.

Lemma map_snd_combine {A B} (l : list A) (l' : list B) :
  length l = length l' -> map snd (combine l l') = l'.
Proof.
  revert l'; induction l as [|x l IH]; intros [|y l']; simpl; intros H;
    try discriminate; [reflexivity|].
  f_equal. apply IH. lia.
Qed.

Lemma map_fst_combine {A B} (l : list A) (l' : list B) :
  length l = length l' -> map fst (combine l l') = l.
Proof.
  revert l'; induction l as [|x l IH]; intros [|y l']; simpl; intros H;
    try discriminate; [reflexivity|].
  f_equal. apply IH. lia.
Qed.

Lemma in_combine_fst_keys {A B} (l : list A) (l' : list B) (p : A * B) :
  In p (combine l l') -> In (fst p) l.
Proof.
  destruct p as [a b]. intros H. eapply in_combine_l; eauto.
Qed.

Lemma groupby_ok (name : string) (data : DataFrame) (p : nat) (keys : list Z) :
  column_pos name (columns data) = Ok p ->
  apply_rows (key_at p) (rows data) = Ok keys ->
  exists groups,
    groupby name data = Ok groups /\
    map fst groups = sorted_keys keys /\
    Permutation (concat (map snd groups)) (rows data) /\
    (rows data = [] <-> groups = []) /\
    Forall (fun kg => Forall (fun r => key_at p r = Ok (fst kg)) (snd kg)) groups.
Proof.
  intros Hp Hk. unfold groupby. rewrite Hp. cbn [rbind]. rewrite Hk. cbn [rbind].
  eexists. split; [reflexivity|].
  pose proof (apply_rows_ok _ _ _ Hk) as HF.
  pose proof (Forall2_length HF) as Hlen.
  split; [|split; [|split]].
  - rewrite map_map. simpl. apply map_id.
  - rewrite map_map. cbn [snd].
    rewrite <- (map_map (fun k => filter (fun kr => (fst kr =? k)%Z)
                                         (combine keys (rows data))) (map snd)).
    rewrite <- concat_map.
    assert (E : map snd (combine keys (rows data)) = rows data)
      by (apply map_snd_combine; congruence).
    apply Permutation_trans with (map snd (combine keys (rows data)));
      [|rewrite E; reflexivity].
    apply Permutation_map. apply groups_permutation.
    + apply strongly_sorted_NoDup, sorted_keys_sorted.
    + intros q Hq. apply sorted_keys_In. eapply in_combine_fst_keys; eauto.
  - split.
    + intros E. rewrite E in Hlen. destruct keys; [reflexivity|discriminate].
    + intros E. apply map_eq_nil in E.
      destruct keys as [|k keys].
      * destruct (rows data); [reflexivity|discriminate].
      * exfalso. assert (Hin : In k (sorted_keys (k :: keys)))
          by (apply sorted_keys_In; now left).
        rewrite E in Hin. contradiction.
  - apply Forall_forall. intros kg Hkg.
    apply in_map_iff in Hkg as (k & <- & _). cbn [fst snd].
    apply Forall_forall. intros r Hr.
    apply in_map_iff in Hr as ([k' r'] & <- & Hr).
    apply filter_In in Hr as [Hin Hkey]. cbn [fst snd] in *.
    apply Z.eqb_eq in Hkey. subst k'.
    clear - HF Hin. revert keys HF Hin.
    induction (rows data) as [|r0 l IH]; intros keys HF Hin.
    + inversion HF; subst. contradiction.
    + inversion HF as [|? k0 ? keys' H0 HF']; subst. simpl in Hin.
      destruct Hin as [E|Hin]; [injection E as <- <-; assumption | eauto].
Qed.

(** ** The split *)

Lemma rand_length (n : nat) (g : rng) : length (fst (rand n g)) = n.
Proof. unfold rand. simpl. now rewrite length_map, length_seq. Qed.

Lemma boolean_mask_filter {A} (f : Q -> bool) (l : list A) (d : list Q) :
  boolean_mask l (map f d) = map fst (filter (fun rd => f (snd rd)) (combine l d)).
Proof.
  unfold boolean_mask. revert d; induction l as [|x l IH]; intros [|q d]; simpl;
    try reflexivity.
  destruct (f q); simpl; now rewrite IH.
Qed.

Lemma split_loop_spec {A} (groups : list (Z * list A)) :
  forall (g : rng) (tr te : list (list A)),
    exists trs tes,
      split_loop g groups tr te = (tr ++ trs, te ++ tes) /\
      length trs = length groups /\ length tes = length groups /\
      concat trs = map fst (filter selected (assign_draws g groups)) /\
      concat tes = map fst (filter (fun rd => negb (selected rd)) (assign_draws g groups)).
Proof.
  induction groups as [|[k gd] groups IH]; intros g tr te.
  - exists [], []. simpl. now rewrite !app_nil_r.
  - cbn [split_loop assign_draws]. unfold rand.
    destruct (IH (fun i => g (length gd + i))
                 (tr ++ [boolean_mask gd (le_085 (map g (seq 0 (length gd))))])
                 (te ++ [boolean_mask gd (map negb (le_085 (map g (seq 0 (length gd)))))]))
      as (trs & tes & E & Ltr & Lte & Ctr & Cte).
    eexists (_ :: trs), (_ :: tes). split; [|split; [|split; [|split]]].
    + rewrite E. rewrite <- !app_assoc. reflexivity.
    + simpl. now rewrite Ltr.
    + simpl. now rewrite Lte.
    + cbn [concat]. rewrite Ctr, filter_app, map_app. f_equal.
      unfold le_085. apply (boolean_mask_filter (fun d => Qle_bool d (85 # 100))).
    + cbn [concat]. rewrite Cte, filter_app, map_app. f_equal.
      unfold le_085. rewrite map_map.
      apply (boolean_mask_filter (fun d => negb (Qle_bool d (85 # 100)))).
Qed.

Lemma assign_draws_rows {A} (groups : list (Z * list A)) :
  forall g : rng, map fst (assign_draws g groups) = concat (map snd groups).
Proof.
  induction groups as [|[k gd] groups IH]; intros g; [reflexivity|].
  cbn [assign_draws]. unfold rand. rewrite map_app, IH.
  cbn [map concat snd]. f_equal.
  apply map_fst_combine. now rewrite length_map, length_seq.
Qed.

Lemma map_add_seq (n len : nat) :
  forall start, map (fun i => n + i) (seq start len) = seq (n + start) len.
Proof.
  induction len as [|len IH]; intros start; simpl; [reflexivity|].
  f_equal. rewrite IH. f_equal. lia.
Qed.

Lemma assign_draws_stream {A} (groups : list (Z * list A)) :
  forall g : rng,
    map snd (assign_draws g groups)
    = map g (seq 0 (length (concat (map snd groups)))).
Proof.
  induction groups as [|[k gd] groups IH]; intros g; [reflexivity|].
  cbn [assign_draws]. unfold rand. rewrite map_app, IH.
  cbn [map concat snd]. rewrite length_app, seq_app, map_app. f_equal.
  - apply map_snd_combine. now rewrite length_map, length_seq.
  - simpl. rewrite <- (map_map (fun i => length gd + i) g).
    f_equal. now rewrite map_add_seq, Nat.add_0_r.
Qed.

Lemma filter_partition_perm {A} (f : A -> bool) (l : list A) :
  Permutation (filter f l ++ filter (fun x => negb (f x)) l) l.
Proof.
  induction l as [|x l IH]; simpl; [constructor|].
  destruct (f x); simpl.
  - now constructor.
  - apply Permutation_sym, Permutation_cons_app, Permutation_sym, IH.
Qed.

Lemma map_snd_reset_index (body : list (nat * list cell)) :
  map snd (reset_index body) = map snd body.
Proof.
  unfold reset_index. apply map_snd_combine.
  now rewrite length_seq, length_map.
Qed.

Lemma split_rows_spec (g : rng) (data : DataFrame) (p : nat) (keys : list Z) :
  column_pos "Cover_Type" (columns data) = Ok p ->
  apply_rows (key_at p) (rows data) = Ok keys ->
  rows data <> [] ->
  exists groups,
    groupby "Cover_Type" data = Ok groups /\
    Forall (fun kg => Forall (fun r => key_at p r = Ok (fst kg)) (snd kg)) groups /\
    Permutation (map fst (assign_draws g groups)) (rows data) /\
    map snd (assign_draws g groups) = map g (seq 0 (length (rows data))) /\
    split_rows g data
    = Ok (map fst (filter selected (assign_draws g groups)),
          map fst (filter (fun rd => negb (selected rd)) (assign_draws g groups))).
Proof.
  intros Hp Hk Hne.
  destruct (groupby_ok _ _ _ _ Hp Hk) as (groups & Hg & _ & Hperm & Hnil & Hkeys).
  exists groups. split; [assumption|]. split; [assumption|].
  split; [|split].
  - now rewrite assign_draws_rows.
  - rewrite assign_draws_stream. now rewrite (Permutation_length Hperm).
  - unfold split_rows. rewrite Hg. cbn [rbind].
    destruct (split_loop_spec groups g [] []) as (trs & tes & E & Ltr & Lte & Ctr & Cte).
    rewrite E. cbn [app].
    assert (Hgn : groups <> []) by (intros E'; apply Hne, Hnil, E').
    destruct groups as [|kg groups]; [contradiction|].
    destruct trs as [|t trs]; [discriminate|].
    destruct tes as [|t' tes]; [discriminate|].
    unfold pd_concat. cbn [rbind]. now rewrite Ctr, Cte.
Qed.

Lemma reshape_keys (raw : list raw_row) (data : DataFrame) :
  reshape raw = Ok data ->
  column_pos "Cover_Type" (columns data) = Ok 12 /\
  exists keys, apply_rows (key_at 12) (rows data) = Ok keys.
Proof.
  intros H. apply reshape_ok in H as (Hc & _ & H).
  split; [now rewrite Hc|].
  apply apply_rows_total. apply Forall_forall. intros r Hr.
  apply (in_map snd) in Hr.
  destruct (Forall2_in_right _ _ _ _ H Hr) as (x & _ & Hx).
  destruct (reshaped_row_label _ _ Hx) as (v & _ & Hv).
  unfold key_at, getitem. rewrite Hv. simpl. eauto.
Qed.

Lemma float_grid_threshold (k : Z) :
  Qle_bool (k # 9007199254740992) (85 # 100) = true <-> (k <= 7656119366529843)%Z.
Proof.
  unfold Qle_bool. cbn [Qnum Qden]. rewrite Z.leb_le. lia.
Qed.

Lemma length_filter_map {A B} (f : B -> bool) (h : A -> B) (l : list A) :
  length (filter (fun x => f (h x)) l) = length (filter f (map h l)).
Proof.
  induction l as [|x l IH]; [reflexivity|].
  cbn [map filter]. destruct (f (h x)); cbn [length]; now rewrite IH.
Qed.

Lemma length_reset_index (body : list (nat * list cell)) :
  length (reset_index body) = length body.
Proof.
  unfold reset_index. now rewrite length_combine, length_seq, length_map, Nat.min_id.
Qed.

Lemma sum_first_ext (m : nat) (h h' : Z -> Z) :
  (forall k, h k = h' k) -> sum_first m h = sum_first m h'.
Proof.
  intros E. induction m as [|m IH]; [reflexivity|].
  cbn [sum_first]. now rewrite IH, E.
Qed.

Lemma sum_first_add_const (m : nat) (c : Z) (h : Z -> Z) :
  sum_first m (fun k => c + h k)%Z = (Z.of_nat m * c + sum_first m h)%Z.
Proof.
  induction m as [|m IH]; [reflexivity|].
  cbn [sum_first]. rewrite IH, Nat2Z.inj_succ. ring.
Qed.

Lemma sum_first_scale (m : nat) (P : Z) (h : Z -> Z) :
  sum_first m (fun k => h k * P)%Z = (sum_first m h * P)%Z.
Proof.
  induction m as [|m IH]; [reflexivity|].
  cbn [sum_first]. rewrite IH. ring.
Qed.

Lemma sum_first_threshold (m : nat) (T : Z) :
  (-1 <= T)%Z ->
  sum_first m (fun k => if (k <=? T)%Z then 1 else 0)%Z
  = Z.min (Z.of_nat m) (T + 1).
Proof.
  intros HT. induction m as [|m IH]; [cbn [sum_first]; lia|].
  cbn [sum_first]. rewrite IH, Nat2Z.inj_succ.
  destruct (Z.leb_spec (Z.of_nat m) T); lia.
Qed.

Lemma sum_draws_ext (N : Z) (n : nat) :
  forall f f' : list Z -> Z,
    (forall ks, length ks = n -> f ks = f' ks) ->
    sum_draws N n f = sum_draws N n f'.
Proof.
  induction n as [|n IH]; intros f f' E; cbn [sum_draws].
  - now apply E.
  - apply sum_first_ext. intros k. apply IH.
    intros ks Hk. apply E. cbn [length]. now rewrite Hk.
Qed.

Lemma sum_draws_add_const (N : Z) (n : nat) :
  (0 <= N)%Z ->
  forall (c : Z) (f : list Z -> Z),
    sum_draws N n (fun ks => c + f ks)%Z
    = (c * N ^ Z.of_nat n + sum_draws N n f)%Z.
Proof.
  intros HN. induction n as [|n IH]; intros c f.
  - cbn [sum_draws]. change (Z.of_nat 0) with 0%Z. rewrite Z.pow_0_r. ring.
  - cbn [sum_draws].
    rewrite (sum_first_ext _ _
               (fun k => c * N ^ Z.of_nat n
                         + sum_draws N n (fun ks => f (k :: ks)))%Z)
      by (intros k; apply IH).
    rewrite sum_first_add_const, Z2Nat.id by exact HN.
    rewrite Nat2Z.inj_succ, Z.pow_succ_r by lia. ring.
Qed.

(** Over all the outcomes of [n] draws, the numbers at most [T] add up
    to [n * (T + 1) * N ^ (n - 1)]: each of the [n] draws is at most [T]
    in [T + 1] cases out of [N]. *)
Lemma sum_draws_count_le (N T : Z) (n : nat) :
  (0 <= N)%Z -> (-1 <= T < N)%Z ->
  (sum_draws N n (count_le T) * N
   = Z.of_nat n * (T + 1) * N ^ Z.of_nat n)%Z.
Proof.
  intros HN HT. induction n as [|n IH]; [reflexivity|].
  cbn [sum_draws].
  rewrite (sum_first_ext _ _
             (fun k => sum_draws N n (count_le T)
                       + (if (k <=? T)%Z then 1 else 0) * N ^ Z.of_nat n)%Z).
  2:{ intros k.
      rewrite (sum_draws_ext N n _
                 (fun ks => (if (k <=? T)%Z then 1 else 0) + count_le T ks)%Z).
      - rewrite sum_draws_add_const by exact HN. ring.
      - intros ks _. unfold count_le. cbn [filter].
        destruct (k <=? T)%Z; cbn [length]; lia. }
  rewrite sum_first_add_const, sum_first_scale, sum_first_threshold by lia.
  rewrite Z2Nat.id by exact HN.
  rewrite Z.min_r by lia.
  rewrite Nat2Z.inj_succ, Z.pow_succ_r by lia.
  transitivity (N * (sum_draws N n (count_le T) * N)
                + (T + 1) * N ^ Z.of_nat n * N)%Z; [ring|].
  rewrite IH. ring.
Qed.

Lemma map_nth_seq_all {A} (l : list A) (d : A) :
  map (fun i => nth i l d) (seq 0 (length l)) = l.
Proof.
  induction l as [|a l IH]; [reflexivity|].
  cbn [length seq map nth]. f_equal.
  rewrite <- seq_shift, map_map. exact IH.
Qed.

Lemma grid_rng_le_085 (ks : list Z) (i : nat) :
  Qle_bool (grid_rng ks i) (85 # 100) = (nth i ks 0 <=? 7656119366529843)%Z.
Proof.
  unfold grid_rng.
  pose proof (float_grid_threshold (nth i ks 0%Z)) as H.
  destruct (Qle_bool (nth i ks 0%Z # 9007199254740992) (85 # 100));
    destruct (Z.leb_spec (nth i ks 0%Z) 7656119366529843); try reflexivity.
  - assert (nth i ks 0 <= 7656119366529843)%Z by now apply H. lia.
  - assert (false = true) by now apply H. discriminate.
Qed.

(** C4.  The split is a partition of the reshaped frame.  Whatever the
    draws: the groups are the rows of equal label; the loop pairs every
    row with one draw, the draws being the successive outputs of the
    generator; the train rows are exactly the rows whose draw is
    [<= 0.85] and the test rows are exactly the others, so train and test
    together are a rearrangement of the frame and no index label occurs
    twice; [train_data] and [test_data] are these rows, shuffled and
    relabelled, and their sizes are the numbers of draws at most 0.85 and
    above 0.85 among the first draws of the generator, one per row.  A
    draw [k / 2^53] passes the test exactly when [k <= 7656119366529843].
    Under uniform draws the ratio is 85/15 on average: added up over all
    the equally likely outcomes of the draws, the sizes of [train_data]
    make the share [7656119366529844 / 2^53] of the rows, which is 0.85
    to sixteen digits. *)
Theorem train_test_split_partition :
  forall (raw : list raw_row) (data : DataFrame)
         (sample_train sample_test : list (nat * list cell) -> list (nat * list cell)),
    reshape raw = Ok data ->
    raw <> [] ->
    (forall l, Permutation (sample_train l) l) ->
    (forall l, Permutation (sample_test l) l) ->
    (forall g : rng,
        exists groups train test train_data test_data,
          groupby "Cover_Type" data = Ok groups /\
          Forall (fun kg => Forall (fun r => key_at 12 r = Ok (fst kg)) (snd kg))
                 groups /\
          split_rows g data = Ok (train, test) /\
          train_test_split g sample_train sample_test data
          = Ok (train_data, test_data) /\
          Permutation (map fst (assign_draws g groups)) (rows data) /\
          map snd (assign_draws g groups) = map g (seq 0 (length (rows data))) /\
          train = map fst (filter (fun rd => Qle_bool (snd rd) (85 # 100))
                                  (assign_draws g groups)) /\
          test = map fst (filter (fun rd => negb (Qle_bool (snd rd) (85 # 100)))
                                 (assign_draws g groups)) /\
          Permutation (train ++ test) (rows data) /\
          NoDup (map fst (train ++ test)) /\
          rows train_data = reset_index (sample_train train) /\
          rows test_data = reset_index (sample_test test) /\
          Permutation (map snd (rows train_data)) (map snd train) /\
          Permutation (map snd (rows test_data)) (map snd test) /\
          Permutation (map snd (rows train_data) ++ map snd (rows test_data))
                      (map snd (rows data)) /\
          length (rows train_data) + length (rows test_data) = length raw /\
          length (rows train_data)
          = length (filter (fun i => Qle_bool (g i) (85 # 100))
                           (seq 0 (length raw))) /\
          length (rows test_data)
          = length (filter (fun i => negb (Qle_bool (g i) (85 # 100)))
                           (seq 0 (length raw)))) /\
    (forall k : Z,
        le_085 [(k # 9007199254740992)%Q] = [(k <=? 7656119366529843)%Z]) /\
    (sum_draws float_grid (length raw)
       (fun ks => train_size (train_test_split (grid_rng ks)
                                sample_train sample_test data))
     * float_grid
     = Z.of_nat (length raw) * 7656119366529844
       * float_grid ^ Z.of_nat (length raw))%Z.
Proof.
  intros raw data sample_train sample_test Hr Hne Hst Hse.
  destruct (reshape_keys _ _ Hr) as (Hp & keys & Hk).
  pose proof (reshape_rows_length _ _ Hr) as Hlen.
  assert (Hrows : rows data <> []).
  { intros E. rewrite E in Hlen. destruct raw; [contradiction|discriminate]. }
  assert (Hall : forall g : rng,
             exists groups train test train_data test_data,
               groupby "Cover_Type" data = Ok groups /\
               Forall (fun kg => Forall (fun r => key_at 12 r = Ok (fst kg)) (snd kg))
                      groups /\
               split_rows g data = Ok (train, test) /\
               train_test_split g sample_train sample_test data
               = Ok (train_data, test_data) /\
               Permutation (map fst (assign_draws g groups)) (rows data) /\
               map snd (assign_draws g groups) = map g (seq 0 (length (rows data))) /\
               train = map fst (filter (fun rd => Qle_bool (snd rd) (85 # 100))
                                       (assign_draws g groups)) /\
               test = map fst (filter (fun rd => negb (Qle_bool (snd rd) (85 # 100)))
                                      (assign_draws g groups)) /\
               Permutation (train ++ test) (rows data) /\
               NoDup (map fst (train ++ test)) /\
               rows train_data = reset_index (sample_train train) /\
               rows test_data = reset_index (sample_test test) /\
               Permutation (map snd (rows train_data)) (map snd train) /\
               Permutation (map snd (rows test_data)) (map snd test) /\
               Permutation (map snd (rows train_data) ++ map snd (rows test_data))
                           (map snd (rows data)) /\
               length (rows train_data) + length (rows test_data) = length raw /\
               length (rows train_data)
               = length (filter (fun i => Qle_bool (g i) (85 # 100))
                                (seq 0 (length raw))) /\
               length (rows test_data)
               = length (filter (fun i => negb (Qle_bool (g i) (85 # 100)))
                                (seq 0 (length raw)))).
  { intros g.
    destruct (split_rows_spec g data 12 keys Hp Hk Hrows)
      as (groups & Hg & Hkeys & Hperm & Hstream & Hsplit).
    set (drawn := assign_draws g groups) in *.
    assert (Hpart : Permutation
              (map fst (filter selected drawn)
               ++ map fst (filter (fun rd => negb (selected rd)) drawn))
              (rows data)).
    { rewrite <- map_app. rewrite <- Hperm.
      apply Permutation_map, filter_partition_perm. }
    assert (Hcount : forall f : Q -> bool,
               length (map fst (filter (fun rd : (nat * list cell) * Q => f (snd rd))
                                       drawn))
               = length (filter (fun i => f (g i)) (seq 0 (length raw)))).
    { intros f. rewrite length_map.
      rewrite (length_filter_map f snd drawn), Hstream, Hlen.
      now rewrite <- (length_filter_map f g). }
    exists groups, (map fst (filter selected drawn)),
      (map fst (filter (fun rd => negb (selected rd)) drawn)).
    eexists. eexists.
    split; [exact Hg|]. split; [exact Hkeys|]. split; [exact Hsplit|].
    split; [unfold train_test_split; rewrite Hsplit; reflexivity|].
    cbn [rows fst snd].
    split; [exact Hperm|]. split; [exact Hstream|].
    split; [reflexivity|]. split; [reflexivity|].
    split; [exact Hpart|].
    split.
    { apply (Permutation_NoDup (l := map fst (rows data))).
      - apply Permutation_sym, Permutation_map, Hpart.
      - apply reshape_ok in Hr as (_ & -> & _). apply seq_NoDup. }
    split; [reflexivity|]. split; [reflexivity|].
    split.
    { rewrite map_snd_reset_index. apply Permutation_map, Hst. }
    split.
    { rewrite map_snd_reset_index. apply Permutation_map, Hse. }
    split.
    { rewrite !map_snd_reset_index, <- map_app.
      apply Permutation_map.
      rewrite (Hst _), (Hse _). exact Hpart. }
    split.
    { rewrite !length_reset_index.
      rewrite (Permutation_length (Hst _)), (Permutation_length (Hse _)).
      rewrite <- length_app, (Permutation_length Hpart). exact Hlen. }
    split.
    { rewrite length_reset_index, (Permutation_length (Hst _)).
      exact (Hcount (fun q => Qle_bool q (85 # 100))). }
    rewrite length_reset_index, (Permutation_length (Hse _)).
    exact (Hcount (fun q => negb (Qle_bool q (85 # 100)))). }
  split; [exact Hall|].
  split.
  { intros k. unfold le_085. cbn [map]. f_equal.
    pose proof (grid_rng_le_085 [k] 0) as H. exact H. }
  rewrite (sum_draws_ext float_grid (length raw) _ (count_le 7656119366529843)).
  - change 7656119366529844%Z with (7656119366529843 + 1)%Z.
    apply sum_draws_count_le; unfold float_grid; lia.
  - intros ks Hks.
    destruct (Hall (grid_rng ks))
      as (groups & train & test & train_data & test_data & _ & _ & _ & Hsplit & _ & _
          & _ & _ & _ & _ & _ & _ & _ & _ & _ & _ & Hsize & _).
    rewrite Hsplit. cbn [train_size]. unfold count_le. f_equal.
    rewrite Hsize, <- Hks.
    rewrite (filter_ext _ (fun i => (nth i ks 0 <=? 7656119366529843)%Z))
      by (intros i; apply grid_rng_le_085).
    rewrite (length_filter_map (fun k => (k <=? 7656119366529843)%Z)
               (fun i => nth i ks 0%Z)).
    now rewrite map_nth_seq_all.
Qed.

Lemma train_test_split_partition_witness :
  exists train_data test_data,
    train_test_split sample_rng (fun l => l) (@rev _) sample_data
    = Ok (train_data, test_data) /\
    Permutation (map snd (rows train_data) ++ map snd (rows test_data))
                (map snd (rows sample_data)) /\
    length (rows train_data) = 1 /\
    length (rows test_data) = 2.
Proof.
  assert (Hr : reshape sample_raw = Ok sample_data) by reflexivity.
  assert (Hne : sample_raw <> []) by discriminate.
  destruct (train_test_split_partition sample_raw sample_data
              (fun l => l) (@rev _) Hr Hne
              (fun l => Permutation_refl l)
              (fun l => Permutation_sym (Permutation_rev l)))
    as (Hall & _ & _).
  destruct (Hall sample_rng)
    as (groups & train & test & train_data & test_data & _ & _ & _ & H & _ & _ & _ & _
        & _ & _ & _ & _ & _ & _ & Hp & _ & H1 & H2).
  exists train_data, test_data.
  split; [exact H|]. split; [exact Hp|]. split; [exact H1 | exact H2].
Defined.

(** ** Vocabularies *)

Lemma cell_eqb_eq (a b : cell) : cell_eqb a b = true <-> a = b.
Proof.
  destruct a as [x|s], b as [y|t]; simpl; split; intros H; try discriminate.
  - apply Z.eqb_eq in H. now subst.
  - injection H as ->. apply Z.eqb_refl.
  - apply String.eqb_eq in H. now subst.
  - injection H as ->. apply String.eqb_refl.
Qed.

Lemma existsb_cell_In (c : cell) (seen : list cell) :
  existsb (cell_eqb c) seen = true <-> In c seen.
Proof.
  rewrite existsb_exists. split.
  - intros (x & Hx & E). apply cell_eqb_eq in E. now subst.
  - intros H. exists c. split; [assumption|]. now apply cell_eqb_eq.
Qed.

Lemma unique_In (l : list cell) :
  forall seen c, In c (unique seen l) <-> In c l /\ ~ In c seen.
Proof.
  induction l as [|x l IH]; intros seen c; simpl; [tauto|].
  destruct (existsb (cell_eqb x) seen) eqn:E.
  - apply existsb_cell_In in E. rewrite IH. split.
    + intros [H1 H2]. auto.
    + intros [[->|H1] H2]; [contradiction | auto].
  - assert (Hx : ~ In x seen).
    { intros Hin. apply existsb_cell_In in Hin. congruence. }
    simpl. rewrite IH. simpl. split.
    + intros [<-|[H1 H2]]; [auto|]. split; [auto|]. intros H; apply H2; auto.
    + intros [[<-|H1] H2]; [auto|].
      destruct (existsb (cell_eqb c) [x]) eqn:Ec.
      * simpl in Ec. rewrite orb_false_r in Ec. apply cell_eqb_eq in Ec. auto.
      * right. split; [assumption|]. intros [->|H]; [|contradiction].
        simpl in Ec. rewrite orb_false_r in Ec.
        assert (Hc : cell_eqb c c = true) by now apply cell_eqb_eq. congruence.
Qed.

Lemma unique_NoDup (l : list cell) : forall seen, NoDup (unique seen l).
Proof.
  induction l as [|x l IH]; intros seen; simpl; [constructor|].
  destruct (existsb (cell_eqb x) seen); [apply IH|].
  constructor; [|apply IH].
  rewrite unique_In. intros [_ H]. apply H. now left.
Qed.

Lemma str_values_In (l : list cell) (s : string) :
  In s (str_values l) <-> In (CStr s) l.
Proof.
  induction l as [|[z|t] l IH]; simpl; [tauto| |].
  - rewrite IH. split; [auto|]. intros [H|H]; [discriminate|assumption].
  - rewrite IH. split.
    + intros [->|H]; auto.
    + intros [H|H]; [injection H as ->; auto | auto].
Qed.

Lemma str_values_NoDup (l : list cell) : NoDup l -> NoDup (str_values l).
Proof.
  induction 1 as [|[z|t] l Hn _ IH]; simpl; [constructor|assumption|].
  constructor; [|assumption]. now rewrite str_values_In.
Qed.

Lemma vocabulary_of_spec (name : string) (data : DataFrame) (vocab : list string) :
  vocabulary_of name data = Ok vocab ->
  exists col,
    column name data = Ok col /\
    NoDup vocab /\
    forall s, In s vocab <-> In (CStr s) col.
Proof.
  unfold vocabulary_of. intros H.
  apply rbind_ok in H as (col & Hc & H). injection H as <-.
  exists col. split; [assumption|]. split.
  - apply str_values_NoDup, unique_NoDup.
  - intros s. rewrite str_values_In, unique_In. simpl. tauto.
Qed.

Lemma column_In (name : string) (df : DataFrame) (col : list cell) (c : cell) :
  column name df = Ok col ->
  (In c col <->
   exists p r, column_pos name (columns df) = Ok p /\ In r (rows df) /\
               nth_error (snd r) p = Some c).
Proof.
  unfold column. intros H. apply rbind_ok in H as (p & Hp & H).
  apply apply_rows_ok in H. split.
  - intros Hin. destruct (Forall2_in_right _ _ _ _ H Hin) as (r & Hr & Hg).
    exists p, r. repeat split; auto.
    unfold getitem in Hg. destruct (nth_error (snd r) p); congruence.
  - intros (p' & r & Hp' & Hr & Hn).
    assert (p' = p) by congruence. subst p'.
    destruct (Forall2_in_left _ _ _ _ H Hr) as (c' & Hc' & Hg).
    unfold getitem in Hg. rewrite Hn in Hg. now injection Hg as <-.
Qed.

Lemma reset_index_cells (body : list (nat * list cell)) (r : nat * list cell) :
  In r (reset_index body) -> In (snd r) (map snd body).
Proof.
  intros H. rewrite <- map_snd_reset_index. now apply in_map.
Qed.

Lemma split_rows_perm (g : rng) (data : DataFrame)
    (train test : list (nat * list cell)) :
  split_rows g data = Ok (train, test) -> Permutation (train ++ test) (rows data).
Proof.
  intros H. pose proof H as H0. unfold split_rows in H.
  apply rbind_ok in H as (groups & Hg & H).
  pose proof Hg as Hg0. unfold groupby in Hg.
  apply rbind_ok in Hg as (p & Hp & Hg).
  apply rbind_ok in Hg as (keys & Hk & Hg).
  destruct (rows data) as [|r rest] eqn:E.
  - simpl in Hk. injection Hk as <-. injection Hg as <-.
    simpl in H. discriminate.
  - rewrite <- E in *.
    destruct (split_rows_spec g data p keys Hp Hk) as (groups' & Hg' & _ & Hperm & _ & Hs).
    { rewrite E. discriminate. }
    rewrite Hs in H0. injection H0 as <- <-.
    rewrite <- map_app, <- Hperm.
    apply Permutation_map, filter_partition_perm.
Qed.

Lemma reshaped_row_names (x : raw_row) (cells : list cell) :
  reshaped_row 1 x cells ->
  exists w s,
    nth_error cells 10 = Some (CStr w) /\ In w wilderness_area_values /\
    nth_error cells 11 = Some (CStr s) /\ In s soil_type_values.
Proof.
  intros Hr. pose proof (reshaped_row_decodable _ _ _ Hr) as (Hlen & _).
  destruct Hr as (w & s & l & Hw & Hs & _ & E).
  assert (Hten : length (map CInt (loc_cols 0 9 x)) = 10).
  { rewrite length_map. apply loc_cols_full. lia. }
  exists w, s. repeat split.
  - rewrite E, nth_error_app2 by lia. now rewrite Hten.
  - apply decode_block_ok_inv in Hw as (k & v & rest & _ & _ & Hn).
    eapply nth_error_In; eauto.
  - rewrite E, nth_error_app2 by lia. now rewrite Hten.
  - apply decode_block_ok_inv in Hs as (k & v & rest & _ & _ & Hn).
    eapply nth_error_In; eauto.
Qed.

(** C2, as the code has it.  The vocabulary of each of the two categorical
    features is computed once, from the whole reshaped frame before it is
    split: it lists, without repetition, exactly the strings that occur in
    that column of [data], all of them among the forty soil-type names or
    the four wilderness-area names.  It therefore covers every value of the
    column in the train split and in the test split alike. *)
Theorem vocabulary_from_whole_data :
  forall (data : DataFrame) (cfv : dict (list string)),
    CATEGORICAL_FEATURES_WITH_VOCABULARY data = Ok cfv ->
    exists soil wild soil_col wild_col,
      cfv = [("Soil_Type", soil); ("Wilderness_Area", wild)] /\
      column "Soil_Type" data = Ok soil_col /\
      column "Wilderness_Area" data = Ok wild_col /\
      NoDup soil /\ NoDup wild /\
      (forall s, In s soil <-> In (CStr s) soil_col) /\
      (forall s, In s wild <-> In (CStr s) wild_col) /\
      (forall raw,
          reshape raw = Ok data ->
          (forall s, In s soil -> In s soil_type_values) /\
          (forall s, In s wild -> In s wilderness_area_values)) /\
      (forall g sample_train sample_test train_data test_data,
          (forall l, Permutation (sample_train l) l) ->
          (forall l, Permutation (sample_test l) l) ->
          train_test_split g sample_train sample_test data = Ok (train_data, test_data) ->
          forall part col s,
            part = train_data \/ part = test_data ->
            (column "Soil_Type" part = Ok col -> In (CStr s) col -> In s soil) /\
            (column "Wilderness_Area" part = Ok col -> In (CStr s) col -> In s wild)).
Proof.
  intros data cfv H. unfold CATEGORICAL_FEATURES_WITH_VOCABULARY in H.
  apply rbind_ok in H as (soil & Hs & H).
  apply rbind_ok in H as (wild & Hw & H). injection H as <-.
  destruct (vocabulary_of_spec _ _ _ Hs) as (soil_col & Hsc & Hsn & Hsi).
  destruct (vocabulary_of_spec _ _ _ Hw) as (wild_col & Hwc & Hwn & Hwi).
  exists soil, wild, soil_col, wild_col.
  repeat (split; [assumption || reflexivity|]).
  split.
  { intros raw Hr. apply reshape_ok in Hr as (Hc & _ & Hrows).
    split; intros s Hin.
    - apply Hsi in Hin. apply (column_In _ _ _ _ Hsc) in Hin as (p & r & Hp & Hr & Hn).
      rewrite Hc, column_pos_Soil_Type in Hp. injection Hp as <-.
      destruct (Forall2_in_right _ _ _ _ Hrows (in_map snd _ _ Hr)) as (x & _ & Hx).
      destruct (reshaped_row_names _ _ Hx) as (w' & s' & _ & _ & Hs' & Hin').
      congruence.
    - apply Hwi in Hin. apply (column_In _ _ _ _ Hwc) in Hin as (p & r & Hp & Hr & Hn).
      rewrite Hc, column_pos_Wilderness_Area in Hp. injection Hp as <-.
      destruct (Forall2_in_right _ _ _ _ Hrows (in_map snd _ _ Hr)) as (x & _ & Hx).
      destruct (reshaped_row_names _ _ Hx) as (w' & s' & Hw' & Hin' & _ & _).
      congruence. }
  intros g sample_train sample_test train_data test_data Hst Hse Hsplit part col s Hpart.
  unfold train_test_split in Hsplit.
  apply rbind_ok in Hsplit as ([train test] & Hrows & Hsplit).
  injection Hsplit as <- <-. cbn [fst snd] in *.
  assert (Hsub : forall r, In r (rows part) -> In (snd r) (map snd (rows data))).
  { intros r Hr.
    assert (Hin : In (snd r) (map snd train) \/ In (snd r) (map snd test)).
    { destruct Hpart as [-> | ->]; cbn [rows] in Hr; apply reset_index_cells in Hr.
      - left. eapply Permutation_in; [apply Permutation_map, Hst | exact Hr].
      - right. eapply Permutation_in; [apply Permutation_map, Hse | exact Hr]. }
    apply split_rows_perm in Hrows.
    eapply Permutation_in; [apply Permutation_map, Hrows|].
    rewrite map_app. apply in_or_app. exact Hin. }
  assert (Hcols : columns part = columns data) by (destruct Hpart as [-> | ->]; reflexivity).
  assert (Hcol : forall name col0 col1 c,
             column name data = Ok col0 -> column name part = Ok col1 ->
             In c col1 -> In c col0).
  { intros name col0 col1 c H0 H1 Hc.
    apply (column_In _ _ _ c H1) in Hc as (p & r & Hp & Hr & Hn).
    apply (column_In _ _ _ c H0).
    apply Hsub in Hr. apply in_map_iff in Hr as (r0 & Er & Hr0).
    exists p, r0. rewrite Hcols in Hp. rewrite Er. auto. }
  split; intros Hc Hin.
  - apply Hsi. eapply Hcol; eauto.
  - apply Hwi. eapply Hcol; eauto.
Qed.

Lemma vocabulary_from_whole_data_witness :
  exists soil wild,
    sample_cfv = [("Soil_Type", soil); ("Wilderness_Area", wild)] /\
    NoDup soil /\ NoDup wild /\
    forall s, In s soil <-> In (CStr s) [CStr "soil_type_1"; CStr "soil_type_40"; CStr "soil_type_6"].
Proof.
  destruct (vocabulary_from_whole_data sample_data sample_cfv eq_refl)
    as (soil & wild & soil_col & wild_col & E & Hs & _ & Hn1 & Hn2 & Hi & _).
  exists soil, wild. vm_compute in Hs. injection Hs as <-.
  repeat split; assumption || apply Hi.
Defined.

(** C2, as stated, fails: with the draws [0.5], [0.9], [0.86] on the
    three-row sample frame the train split keeps one row, and the vocabulary
    of [Soil_Type] holds ["soil_type_40"], which occurs in no training row:
    it is not the set of values of the training data. *)
Lemma vocabulary_counterexample :
  exists train_data test_data soil,
    train_test_split sample_rng (fun l => l) (fun l => l) sample_data
    = Ok (train_data, test_data) /\
    vocabulary_of "Soil_Type" sample_data = Ok soil /\
    In "soil_type_40" soil /\
    vocabulary_of "Soil_Type" train_data = Ok ["soil_type_1"] /\
    ~ (forall s, In s soil <-> In s ["soil_type_1"]).
Proof.
  do 3 eexists.
  split; [vm_compute; reflexivity|].
  split; [vm_compute; reflexivity|].
  split; [simpl; auto|].
  split; [vm_compute; reflexivity|].
  intros H. destruct (H "soil_type_40") as [H1 _].
  destruct H1 as [E|[]]; [simpl; auto | discriminate E].
Qed.

(** ** Building graphs *)

Lemma bind_ok {A B} (m : build A) (k : A -> build B) (n n' : nat) (b : B) :
  bind m k n = Ok (b, n') -> exists a n1, m n = Ok (a, n1) /\ k a n1 = Ok (b, n').
Proof.
  unfold bind. destruct (m n) as [[a n1]|e]; [eauto | discriminate].
Qed.

Lemma called_ok (t : tensor) (s : list nat) (n : nat) :
  shape_of t = Ok s -> called t n = Ok (t, n).
Proof.
  intros H. unfold called, bind, lift, ret. now rewrite H.
Qed.

Lemma broadcast_same (w : nat) : broadcast [w] [w] = Ok [w].
Proof.
  unfold broadcast. simpl. now rewrite Nat.eqb_refl.
Qed.

Lemma encode_inputs_sparse (sv wv : list string) (n : nat) :
  encode_inputs (two_vocabularies sv wv)
                (create_model_inputs (two_vocabularies sv wv)) false n
  = Ok (sparse_encoding sv wv, n).
Proof. reflexivity. Qed.

Lemma encode_inputs_dense (sv wv : list string) (n : nat) :
  encode_inputs (two_vocabularies sv wv)
                (create_model_inputs (two_vocabularies sv wv)) true n
  = Ok (dense_encoding sv wv n, 2 + n).
Proof. reflexivity. Qed.

Lemma shape_sparse_encoding (sv wv : list string) :
  shape_of (sparse_encoding sv wv) = Ok [10 + (length sv + length wv)].
Proof. reflexivity. Qed.

Lemma shape_dense_encoding (sv wv : list string) (u : nat) :
  shape_of (dense_encoding sv wv u)
  = Ok [10 + (int_sqrt (length sv) + int_sqrt (length wv))].
Proof. reflexivity. Qed.

Lemma shape_dense (u units : nat) (act : activation) (x : tensor) (w : nat) :
  shape_of x = Ok [w] -> units <> 0 -> shape_of (Dense u units act x) = Ok [units].
Proof.
  intros H Hu. simpl. rewrite H. simpl.
  apply Nat.eqb_neq in Hu. now rewrite Hu.
Qed.

Lemma shape_multiply (x y : tensor) (w : nat) :
  shape_of x = Ok [w] -> shape_of y = Ok [w] -> shape_of (Multiply x y) = Ok [w].
Proof.
  intros Hx Hy. cbn [shape_of]. rewrite Hx, Hy. cbn [rbind]. apply broadcast_same.
Qed.

Lemma shape_add (x y : tensor) (w : nat) :
  shape_of x = Ok [w] -> shape_of y = Ok [w] -> shape_of (Add x y) = Ok [w].
Proof.
  intros Hx Hy. cbn [shape_of]. rewrite Hx, Hy. cbn [rbind]. apply broadcast_same.
Qed.

Lemma shape_cross_k (x0 : tensor) (w u : nat) :
  shape_of x0 = Ok [w] -> w <> 0 ->
  forall k, shape_of (cross_k x0 w u k) = Ok [w].
Proof.
  intros H0 Hw. induction k as [|k IH]; [exact H0|].
  cbn [cross_k]. apply shape_add; [|exact IH].
  apply shape_multiply; [exact H0|].
  eapply shape_dense; eauto.
Qed.

Lemma last_dim_of_shape (t : tensor) (w : nat) :
  shape_of t = Ok [w] -> last_dim t = Ok w.
Proof.
  intros H. unfold last_dim. now rewrite H.
Qed.

Lemma cross_loop_cross_k {U} (x0 : tensor) (w u : nat) :
  shape_of x0 = Ok [w] -> w <> 0 ->
  forall (passes : list U) (k : nat),
    cross_loop passes x0 (cross_k x0 w u k) (u + k)
    = Ok (cross_k x0 w u (k + length passes), u + (k + length passes)).
Proof.
  intros H0 Hw. induction passes as [|pass passes IH]; intros k.
  - simpl. unfold ret. now rewrite !Nat.add_0_r.
  - pose proof (shape_cross_k x0 w u H0 Hw k) as Hk.
    pose proof (shape_cross_k x0 w u H0 Hw (S k)) as HSk.
    cbn [cross_loop]. unfold bind at 1, lift.
    rewrite (last_dim_of_shape _ _ Hk).
    unfold layers_Dense, fresh. unfold bind at 1. unfold bind at 1.
    rewrite (called_ok _ [w]) by (eapply shape_dense; eauto).
    unfold multiply. unfold bind at 1.
    rewrite (called_ok _ [w]).
    2:{ apply shape_multiply; [exact H0|]. eapply shape_dense; eauto. }
    unfold add. unfold bind at 1.
    rewrite (called_ok _ [w]) by exact HSk.
    change (Add (Multiply x0 (Dense (u + k) w linear (cross_k x0 w u k)))
                (cross_k x0 w u k))
      with (cross_k x0 w u (S k)).
    replace (S (u + k)) with (u + S k) by lia.
    rewrite IH. cbn [length].
    replace (S k + length passes) with (k + S (length passes)) by lia.
    reflexivity.
Qed.

Lemma cross_loop_hidden_units (x0 : tensor) (w u : nat) :
  shape_of x0 = Ok [w] -> w <> 0 ->
  cross_loop hidden_units x0 x0 u = Ok (cross_k x0 w u 2, 2 + u).
Proof.
  intros H0 Hw.
  pose proof (cross_loop_cross_k x0 w u H0 Hw hidden_units 0) as Hc.
  cbn [cross_k] in Hc. rewrite Nat.add_0_r in Hc. rewrite Hc.
  cbn [hidden_units length Nat.add].
  replace (u + 2) with (S (S u)) by lia. reflexivity.
Qed.

Lemma bind_eq {A B} (m : build A) (k : A -> build B) (n n1 : nat) (a : A) :
  m n = Ok (a, n1) -> bind m k n = k a n1.
Proof.
  intros H. unfold bind. now rewrite H.
Qed.

Lemma layers_Dense_ok (units : nat) (act : activation) (x : tensor) (w n : nat) :
  shape_of x = Ok [w] -> units <> 0 ->
  layers_Dense units act x n = Ok (Dense n units act x, S n).
Proof.
  intros Hx Hu. unfold layers_Dense, fresh, bind.
  apply (called_ok _ [units]). eapply shape_dense; eauto.
Qed.

Lemma layers_BatchNormalization_ok (x : tensor) (s : list nat) (n : nat) :
  shape_of x = Ok s ->
  layers_BatchNormalization x n = Ok (BatchNormalization n x, S n).
Proof.
  intros Hx. unfold layers_BatchNormalization, fresh, bind.
  now apply (called_ok _ s).
Qed.

Lemma shape_hidden_block (u units : nat) (x : tensor) (w : nat) :
  shape_of x = Ok [w] -> units <> 0 ->
  shape_of (hidden_block u units x) = Ok [units].
Proof.
  intros Hx Hu. unfold hidden_block.
  change (shape_of (Dense u units linear x) = Ok [units]).
  exact (shape_dense u units linear x w Hx Hu).
Qed.

Lemma hidden_stack_cons (units : nat) (rest : list nat) (x : tensor) (w n : nat) :
  shape_of x = Ok [w] -> units <> 0 ->
  hidden_stack (units :: rest) x n = hidden_stack rest (hidden_block n units x) (2 + n).
Proof.
  intros Hx Hu. cbn [hidden_stack].
  pose proof (shape_dense n units linear x w Hx Hu) as Hd.
  rewrite (bind_eq _ _ _ _ _ (layers_Dense_ok units linear x w n Hx Hu)).
  rewrite (bind_eq _ _ _ _ _ (layers_BatchNormalization_ok _ _ (S n) Hd)).
  unfold layers_ReLU, layers_Dropout.
  rewrite (bind_eq _ _ _ _ _
             (called_ok (ReLU (BatchNormalization (S n) (Dense n units linear x)))
                        [units] _ Hd)).
  rewrite (bind_eq _ _ _ _ _
             (called_ok (Dropout dropout_rate
                           (ReLU (BatchNormalization (S n) (Dense n units linear x))))
                        [units] _ Hd)).
  reflexivity.
Qed.

Lemma hidden_stack_hidden_units (x : tensor) (w n : nat) :
  shape_of x = Ok [w] ->
  hidden_stack hidden_units x n
  = Ok (hidden_block (2 + n) 32 (hidden_block n 32 x), 4 + n).
Proof.
  intros Hx. unfold hidden_units.
  rewrite (hidden_stack_cons 32 _ x w n Hx) by discriminate.
  rewrite (hidden_stack_cons 32 _ _ 32 (2 + n)) by
    (discriminate || (eapply shape_hidden_block; eauto; discriminate)).
  reflexivity.
Qed.

Lemma shape_concat2 (a b : tensor) (wa wb : nat) :
  shape_of a = Ok [wa] -> shape_of b = Ok [wb] ->
  shape_of (Concatenate [a; b]) = Ok [wa + wb].
Proof.
  intros Ha Hb. cbn [shape_of]. rewrite Ha, Hb. reflexivity.
Qed.

Lemma output_layer_ok (merged : tensor) (w n : nat) :
  shape_of merged = Ok [w] ->
  layers_Dense NUM_CLASSES softmax merged n
  = Ok (Dense n 7 softmax merged, S n) /\
  shape_of (Dense n 7 softmax merged) = Ok [7].
Proof.
  intros H. split.
  - apply (layers_Dense_ok 7 softmax merged w n H). discriminate.
  - apply (shape_dense n 7 softmax merged w H). discriminate.
Qed.

Lemma create_baseline_model_eq (sv wv : list string) (n : nat) :
  create_baseline_model (two_vocabularies sv wv) n
  = Ok (mkModel (create_model_inputs (two_vocabularies sv wv))
          (Dense (4 + n) 7 softmax
             (hidden_block (2 + n) 32 (hidden_block n 32 (sparse_encoding sv wv)))),
        5 + n).
Proof.
  unfold create_baseline_model.
  rewrite (bind_eq _ _ _ _ _ (encode_inputs_sparse sv wv n)).
  rewrite (bind_eq _ _ _ _ _
             (hidden_stack_hidden_units _ _ n (shape_sparse_encoding sv wv))).
  assert (Hh : shape_of (hidden_block (2 + n) 32
                           (hidden_block n 32 (sparse_encoding sv wv))) = Ok [32]).
  { eapply shape_hidden_block; [|discriminate].
    eapply shape_hidden_block; [apply shape_sparse_encoding | discriminate]. }
  destruct (output_layer_ok _ 32 (4 + n) Hh) as [Ho _].
  rewrite (bind_eq _ _ _ _ _ Ho). reflexivity.
Qed.

Lemma create_wide_and_deep_model_eq (sv wv : list string) (n : nat) :
  create_wide_and_deep_model (two_vocabularies sv wv) n
  = Ok (mkModel (create_model_inputs (two_vocabularies sv wv))
          (Dense (7 + n) 7 softmax
             (Concatenate
                [ BatchNormalization n (sparse_encoding sv wv);
                  hidden_block (5 + n) 32
                    (hidden_block (3 + n) 32 (dense_encoding sv wv (1 + n))) ])),
        8 + n).
Proof.
  unfold create_wide_and_deep_model.
  rewrite (bind_eq _ _ _ _ _ (encode_inputs_sparse sv wv n)).
  rewrite (bind_eq _ _ _ _ _
             (layers_BatchNormalization_ok _ _ n (shape_sparse_encoding sv wv))).
  rewrite (bind_eq _ _ _ _ _ (encode_inputs_dense sv wv (S n))).
  rewrite (bind_eq _ _ _ _ _
             (hidden_stack_hidden_units _ _ (3 + n) (shape_dense_encoding sv wv (S n)))).
  assert (Hh : shape_of (hidden_block (2 + (3 + n)) 32
                           (hidden_block (3 + n) 32 (dense_encoding sv wv (S n))))
               = Ok [32]).
  { eapply shape_hidden_block; [|discriminate].
    eapply shape_hidden_block; [apply shape_dense_encoding | discriminate]. }
  assert (Hm : shape_of (Concatenate
                  [ BatchNormalization n (sparse_encoding sv wv);
                    hidden_block (2 + (3 + n)) 32
                      (hidden_block (3 + n) 32 (dense_encoding sv wv (S n))) ])
               = Ok [10 + (length sv + length wv) + 32]).
  { apply shape_concat2; [apply shape_sparse_encoding | exact Hh]. }
  unfold layers_concatenate.
  rewrite (bind_eq _ _ _ _ _ (called_ok _ _ _ Hm)).
  destruct (output_layer_ok _ _ (4 + (3 + n)) Hm) as [Ho _].
  rewrite (bind_eq _ _ _ _ _ Ho). reflexivity.
Qed.

Lemma create_deep_and_cross_model_eq (sv wv : list string) (n : nat) :
  let x0 := dense_encoding sv wv n in
  let w := 10 + (int_sqrt (length sv) + int_sqrt (length wv)) in
  create_deep_and_cross_model (two_vocabularies sv wv) n
  = Ok (mkModel (create_model_inputs (two_vocabularies sv wv))
          (Dense (9 + n) 7 softmax
             (Concatenate
                [ BatchNormalization (4 + n) (cross_k x0 w (2 + n) 2);
                  hidden_block (7 + n) 32 (hidden_block (5 + n) 32 x0) ])),
        10 + n).
Proof.
  intros x0 w.
  assert (H0 : shape_of x0 = Ok [w]) by apply shape_dense_encoding.
  assert (Hw : w <> 0) by discriminate.
  unfold create_deep_and_cross_model.
  rewrite (bind_eq _ _ _ _ _ (encode_inputs_dense sv wv n)).
  fold x0.
  rewrite (bind_eq _ _ _ _ _ (cross_loop_hidden_units x0 w (2 + n) H0 Hw)).
  pose proof (shape_cross_k x0 w (2 + n) H0 Hw 2) as Hs.
  rewrite (bind_eq _ _ _ _ _ (layers_BatchNormalization_ok _ _ _ Hs)).
  rewrite (bind_eq _ _ _ _ _ (hidden_stack_hidden_units _ _ _ H0)).
  cbn [Nat.add].
  assert (Hh : shape_of (hidden_block (S (S (S (S (S (S (S n))))))) 32
                           (hidden_block (S (S (S (S (S n))))) 32 x0)) = Ok [32]).
  { eapply shape_hidden_block; [|discriminate].
    eapply shape_hidden_block; [exact H0 | discriminate]. }
  assert (Hm : shape_of (Concatenate
                  [ BatchNormalization (S (S (S (S n)))) (cross_k x0 w (S (S n)) 2);
                    hidden_block (S (S (S (S (S (S (S n))))))) 32
                      (hidden_block (S (S (S (S (S n))))) 32 x0) ])
               = Ok [w + 32]).
  { apply shape_concat2; [|exact Hh].
    cbn [shape_of]. apply (shape_cross_k x0 w _ H0 Hw 2). }
  unfold layers_concatenate.
  rewrite (bind_eq _ _ _ _ _ (called_ok _ _ _ Hm)).
  destruct (output_layer_ok _ _ (S (S (S (S (S (S (S (S (S n))))))))) Hm) as [Ho _].
  rewrite (bind_eq _ _ _ _ _ Ho). reflexivity.
Qed.

(** ** Shapes are sound for evaluation *)

Lemma tensor_induction (P : tensor -> Prop) :
  (forall name dt, P (Input name dt)) ->
  (forall x, P x -> P (ExpandDims x)) ->
  (forall l x, P x -> P (Lookup l x)) ->
  (forall u i o x, P x -> P (Embedding u i o x)) ->
  (forall xs, Forall P xs -> P (Concatenate xs)) ->
  (forall u n a x, P x -> P (Dense u n a x)) ->
  (forall u x, P x -> P (BatchNormalization u x)) ->
  (forall x, P x -> P (ReLU x)) ->
  (forall r x, P x -> P (Dropout r x)) ->
  (forall x y, P x -> P y -> P (Multiply x y)) ->
  (forall x y, P x -> P y -> P (Add x y)) ->
  forall t, P t.
Proof.
  intros HI HE HL HEm HC HD HB HR HDr HM HA.
  fix IH 1. intros [name dt|x|l x|u i o x|xs|u n a x|u x|x|r x|x y|x y].
  - apply HI.
  - apply HE, IH.
  - apply HL, IH.
  - apply HEm, IH.
  - apply HC. induction xs as [|t xs IHxs]; constructor; [apply IH | exact IHxs].
  - apply HD, IH.
  - apply HB, IH.
  - apply HR, IH.
  - apply HDr, IH.
  - apply HM; apply IH.
  - apply HA; apply IH.
Qed.

Section Evaluation.

Variable p : params.
Variable ex : string -> option value.

Lemma shape_of_Concatenate (xs : list tensor) :
  shape_of (Concatenate xs) = (shapes <- shapes_of xs ;; concat_shapes shapes).
Proof. reflexivity. Qed.

Lemma eval_Concatenate (xs : list tensor) :
  eval p ex (Concatenate xs) = eval_concat p ex xs.
Proof.
  induction xs as [|t xs IH]; [reflexivity|].
  cbn [eval_concat]. rewrite <- IH. reflexivity.
Qed.

Lemma batch_norm_from_length (uid : nat) (x : list R) :
  forall i, length (batch_norm_from p uid i x) = length x.
Proof.
  induction x as [|xi x IH]; intros i; simpl; [reflexivity|]. now rewrite IH.
Qed.

Lemma dense_R_length (uid units : nat) (act : activation) (x : list R) :
  length (dense_R p uid units act x) = units.
Proof.
  unfold dense_R, activate, softmax_R.
  destruct act; rewrite !length_map; apply length_seq.
Qed.

Lemma zip_with_length (f : R -> R -> R) (a b : list R) :
  length a = length b -> length (zip_with f a b) = length a.
Proof.
  revert b; induction a as [|x a IH]; intros [|y b]; simpl; intros H;
    try discriminate; [reflexivity|].
  f_equal. apply IH. lia.
Qed.

Lemma elementwise_shape (f : R -> R -> R) (a b c : list R) (s : list nat) :
  broadcast [length a] [length b] = Ok s ->
  elementwise f a b = Ok c -> s = [length c].
Proof.
  unfold broadcast, elementwise. simpl.
  destruct (Nat.eqb_spec (length a) (length b)) as [E|E].
  - intros H1 H2. injection H1 as <-. injection H2 as <-.
    now rewrite zip_with_length.
  - destruct a as [|x [|x' a]], b as [|y [|y' b]]; cbn [length Nat.eqb];
      try congruence;
      intros H1 H2; try discriminate;
      injection H1 as <-; injection H2 as <-;
      cbn [length]; rewrite ?length_map; reflexivity.
Qed.

Lemma concat_shapes_vectors (xs : list tensor) :
  Forall (fun t => forall s v, shape_of t = Ok s -> eval p ex t = Ok v -> has_shape v s)
         xs ->
  forall shapes v s,
    shapes_of xs = Ok shapes -> eval_concat p ex xs = Ok v ->
    concat_shapes shapes = Ok s ->
    has_shape v s.
Proof.
  induction 1 as [|t xs Ht _ IH]; intros shapes v s Hs Hv Hc.
  - simpl in Hs. injection Hs as <-. discriminate.
  - cbn [shapes_of eval_concat] in Hs, Hv.
    apply rbind_ok in Hs as (s1 & Hs1 & Hs).
    apply rbind_ok in Hs as (ss & Hss & Hs). injection Hs as <-.
    apply rbind_ok in Hv as (v1 & Hv1 & Hv).
    apply rbind_ok in Hv as (vs & Hvs & Hv).
    specialize (Ht s1 v1 Hs1 Hv1).
    destruct v1 as [| | |a|]; try discriminate.
    destruct vs as [| | |b|]; try discriminate.
    injection Hv as <-. simpl in Ht. subst s1.
    destruct ss as [|s2 ss].
    + simpl in Hc. injection Hc as <-.
      destruct xs as [|t2 xs].
      * simpl in Hvs. injection Hvs as <-. simpl. now rewrite app_nil_r.
      * simpl in Hss. destruct (shape_of t2); simpl in Hss; [|discriminate].
        destruct (shapes_of xs); discriminate.
    + change (concat_shapes ([length a] :: s2 :: ss))
        with (t <- concat_shapes (s2 :: ss) ;;
              match rev [length a], rev t with
              | m :: s', n :: t' =>
                  if list_eq_dec Nat.eq_dec s' t' then Ok (rev ((m + n) :: s'))
                  else Raise ValueError
              | _, _ => Raise ValueError
              end) in Hc.
      apply rbind_ok in Hc as (t0 & Ht0 & Hc).
      specialize (IH _ _ _ Hss Hvs Ht0). simpl in IH. subst t0.
      simpl in Hc. injection Hc as <-. simpl. now rewrite length_app.
Qed.

Lemma eval_has_shape (t : tensor) :
  forall s v, shape_of t = Ok s -> eval p ex t = Ok v -> has_shape v s.
Proof.
  induction t as [name dt|x IH|l x IH|u i o x IH|xs IH|u n a x IH|u x IH|x IH|r x IH
                  |x y IHx IHy|x y IHx IHy] using tensor_induction;
    intros s v Hs Hv.
  - simpl in *. injection Hs as <-.
    destruct (ex name) as [[| | | |]|], dt; try discriminate;
      injection Hv as <-; reflexivity.
  - cbn [shape_of eval] in *.
    apply rbind_ok in Hs as (s0 & Hs0 & Hs). injection Hs as <-.
    apply rbind_ok in Hv as (v0 & Hv0 & Hv).
    specialize (IH _ _ Hs0 Hv0).
    destruct v0; try discriminate; injection Hv as <-; simpl in *; now subst.
  - cbn [shape_of eval] in *.
    apply rbind_ok in Hs as (s0 & Hs0 & Hs).
    apply rbind_ok in Hv as (v0 & Hv0 & Hv).
    specialize (IH _ _ Hs0 Hv0).
    destruct v0 as [| s1 | | |ss]; try discriminate; simpl in IH; subst s0;
      destruct (lookup_mode l); try discriminate.
    + apply rbind_ok in Hv as (i & _ & Hv). injection Hv as <-. injection Hs as <-.
      reflexivity.
    + apply rbind_ok in Hv as (i & _ & Hv). injection Hv as <-. injection Hs as <-.
      simpl. unfold multi_hot. now rewrite length_map, length_seq.
    + apply rbind_ok in Hv as (i & _ & Hv). injection Hv as <-. injection Hs as <-.
      simpl. unfold multi_hot. now rewrite length_map, length_seq.
  - cbn [shape_of eval] in *.
    apply rbind_ok in Hs as (s0 & Hs0 & Hs). injection Hs as <-.
    apply rbind_ok in Hv as (v0 & Hv0 & Hv).
    specialize (IH _ _ Hs0 Hv0).
    destruct v0; try discriminate. simpl in IH. subst s0.
    destruct (i0 <? i); [|discriminate]. injection Hv as <-.
    simpl. now rewrite length_map, length_seq.
  - rewrite shape_of_Concatenate in Hs. rewrite eval_Concatenate in Hv.
    apply rbind_ok in Hs as (shapes & Hshapes & Hs).
    eapply concat_shapes_vectors; eauto.
  - cbn [shape_of eval] in *.
    apply rbind_ok in Hs as (s0 & Hs0 & Hs).
    apply rbind_ok in Hv as (v0 & Hv0 & Hv).
    specialize (IH _ _ Hs0 Hv0).
    destruct v0; try discriminate. simpl in IH. subst s0.
    simpl in Hs. destruct (n =? 0); [discriminate|].
    injection Hs as <-. injection Hv as <-.
    simpl. now rewrite dense_R_length.
  - cbn [shape_of eval] in *.
    apply rbind_ok in Hv as (v0 & Hv0 & Hv).
    specialize (IH _ _ Hs Hv0).
    destruct v0; try discriminate. injection Hv as <-.
    simpl in *. now rewrite batch_norm_from_length.
  - cbn [shape_of eval] in *.
    apply rbind_ok in Hv as (v0 & Hv0 & Hv).
    specialize (IH _ _ Hs Hv0).
    destruct v0; try discriminate. injection Hv as <-.
    simpl in *. now rewrite length_map.
  - cbn [shape_of eval] in *. eauto.
  - cbn [shape_of eval] in *.
    apply rbind_ok in Hs as (s1 & Hs1 & Hs). apply rbind_ok in Hs as (s2 & Hs2 & Hs).
    apply rbind_ok in Hv as (v1 & Hv1 & Hv). apply rbind_ok in Hv as (v2 & Hv2 & Hv).
    specialize (IHx _ _ Hs1 Hv1). specialize (IHy _ _ Hs2 Hv2).
    destruct v1 as [| | |a|]; try discriminate.
    destruct v2 as [| | |b|]; try discriminate.
    apply rbind_ok in Hv as (c & Hc & Hv). injection Hv as <-.
    simpl in IHx, IHy. subst s1 s2. simpl.
    eapply elementwise_shape; eauto.
  - cbn [shape_of eval] in *.
    apply rbind_ok in Hs as (s1 & Hs1 & Hs). apply rbind_ok in Hs as (s2 & Hs2 & Hs).
    apply rbind_ok in Hv as (v1 & Hv1 & Hv). apply rbind_ok in Hv as (v2 & Hv2 & Hv).
    specialize (IHx _ _ Hs1 Hv1). specialize (IHy _ _ Hs2 Hv2).
    destruct v1 as [| | |a|]; try discriminate.
    destruct v2 as [| | |b|]; try discriminate.
    apply rbind_ok in Hv as (c & Hc & Hv). injection Hv as <-.
    simpl in IHx, IHy. subst s1 s2. simpl.
    eapply elementwise_shape; eauto.
Qed.

End Evaluation.

(** ** The cross recurrence on values *)

Lemma elementwise_same (f : R -> R -> R) (a b : list R) :
  length a = length b -> elementwise f a b = Ok (zip_with f a b).
Proof.
  intros H. unfold elementwise. apply Nat.eqb_eq in H. now rewrite H.
Qed.

Lemma zip_with_nth (f : R -> R -> R) (a b : list R) (i : nat) :
  i < length a -> i < length b ->
  nth i (zip_with f a b) 0%R = f (nth i a 0%R) (nth i b 0%R).
Proof.
  revert b i; induction a as [|x a IH]; intros [|y b] [|i]; simpl; intros Ha Hb;
    try lia; [reflexivity|].
  apply IH; lia.
Qed.

Lemma cross_R_length (p : params) (a : list R) (w u : nat) :
  length a = w -> forall k, length (cross_R p a w u k) = w.
Proof.
  intros Ha. induction k as [|k IH]; [exact Ha|].
  cbn [cross_R]. rewrite !zip_with_length; rewrite ?zip_with_length;
    rewrite ?dense_R_length; congruence.
Qed.

Lemma eval_cross_k (p : params) (ex : string -> option value) (x0 : tensor)
    (a : list R) (w u : nat) :
  eval p ex x0 = Ok (VVec a) -> length a = w ->
  forall k, eval p ex (cross_k x0 w u k) = Ok (VVec (cross_R p a w u k)).
Proof.
  intros H0 Ha. induction k as [|k IH]; [exact H0|].
  pose proof (cross_R_length p a w u Ha k) as Hc.
  cbn [cross_k cross_R eval]. rewrite H0, IH. cbn [rbind].
  rewrite elementwise_same by (rewrite dense_R_length; congruence). cbn [rbind].
  rewrite elementwise_same
    by (rewrite zip_with_length; rewrite ?dense_R_length; congruence).
  reflexivity.
Qed.

(** C1.  In [create_deep_and_cross_model] the cross branch is the
    recurrence [cross_0 = x0], [cross_(k+1) = x0 * Dense_k(cross_k) + cross_k]:
    the loop runs once per entry of [hidden_units], that is twice, and
    returns [cross_2], which the model normalizes and concatenates with the
    deep branch; [Dense_k] has as many units as the last dimension of
    [cross_k], and that dimension is the one of [x0] for every [k].  On the
    values of an example the product and the sum are taken entry by entry. *)
Theorem cross_branch_recurrence :
  forall (sv wv : list string) (n : nat),
    let cfv := two_vocabularies sv wv in
    let x0 := dense_encoding sv wv n in
    let w := 10 + (int_sqrt (length sv) + int_sqrt (length wv)) in
    encode_inputs cfv (create_model_inputs cfv) true n = Ok (x0, 2 + n) /\
    length hidden_units = 2 /\
    cross_loop hidden_units x0 x0 (2 + n) = Ok (cross_k x0 w (2 + n) 2, 4 + n) /\
    (exists m u ub uo deep,
        create_deep_and_cross_model cfv n = Ok (m, u) /\
        outputs m
        = Dense uo NUM_CLASSES softmax
            (Concatenate [BatchNormalization ub (cross_k x0 w (2 + n) 2); deep])) /\
    cross_k x0 w (2 + n) 0 = x0 /\
    (forall k,
        cross_k x0 w (2 + n) (S k)
        = Add (Multiply x0 (Dense (2 + n + k) w linear (cross_k x0 w (2 + n) k)))
              (cross_k x0 w (2 + n) k)) /\
    last_dim x0 = Ok w /\
    (forall k, last_dim (cross_k x0 w (2 + n) k) = Ok w) /\
    (forall p ex a,
        eval p ex x0 = Ok (VVec a) ->
        length a = w /\
        forall k,
          eval p ex (cross_k x0 w (2 + n) k) = Ok (VVec (cross_R p a w (2 + n) k)) /\
          length (cross_R p a w (2 + n) k) = w /\
          forall i,
            i < w ->
            nth i (cross_R p a w (2 + n) (S k)) 0%R
            = (nth i a 0%R
               * nth i (dense_R p (2 + n + k) w linear (cross_R p a w (2 + n) k)) 0%R
               + nth i (cross_R p a w (2 + n) k) 0%R)%R).
Proof.
  intros sv wv n cfv x0 w.
  assert (H0 : shape_of x0 = Ok [w]) by apply shape_dense_encoding.
  assert (Hw : w <> 0) by discriminate.
  split; [apply encode_inputs_dense|].
  split; [reflexivity|].
  split; [apply (cross_loop_hidden_units x0 w (2 + n) H0 Hw)|].
  split.
  { do 5 eexists. split; [apply create_deep_and_cross_model_eq | reflexivity]. }
  split; [reflexivity|].
  split; [reflexivity|].
  split; [now apply last_dim_of_shape|].
  split; [intros k; apply last_dim_of_shape; now apply shape_cross_k|].
  intros p ex a Hev.
  assert (Ha : length a = w).
  { pose proof (eval_has_shape p ex x0 _ _ H0 Hev) as Hs. simpl in Hs. congruence. }
  split; [exact Ha|].
  intros k. pose proof (cross_R_length p a w (2 + n) Ha k) as Hc.
  split; [now apply eval_cross_k|]. split; [exact Hc|].
  intros i Hi. cbn [cross_R].
  rewrite zip_with_nth;
    rewrite ?zip_with_length; rewrite ?dense_R_length; try congruence; try lia.
  rewrite zip_with_nth; rewrite ?dense_R_length; try congruence; lia.
Qed.

Lemma cross_branch_recurrence_witness :
  last_dim (cross_k (dense_encoding ["a"; "b"; "c"; "d"] ["x"] 0) 13 2 2) = Ok 13.
Proof.
  destruct (cross_branch_recurrence ["a"; "b"; "c"; "d"] ["x"] 0)
    as (_ & _ & _ & _ & _ & _ & _ & H & _).
  exact (H 2).
Defined.

(** ** String lookup *)

Lemma index_of_In (s : string) (l : list string) :
  In s l -> exists i, index_of s l = Some i /\ nth_error l i = Some s /\ i < length l.
Proof.
  induction l as [|h l IH]; simpl; [tauto|].
  intros Hin. destruct (String.eqb_spec h s) as [->|Hne].
  - exists 0. repeat split. lia.
  - destruct Hin as [E|Hin]; [contradiction|].
    destruct (IH Hin) as (i & Hi & Hn & Hlt).
    exists (S i). rewrite Hi. repeat split; auto. lia.
Qed.

Lemma index_of_not_In (s : string) (l : list string) :
  ~ In s l -> index_of s l = None.
Proof.
  induction l as [|h l IH]; simpl; [reflexivity|].
  intros Hn. destruct (String.eqb_spec h s) as [->|Hne]; [tauto|].
  rewrite IH by tauto. reflexivity.
Qed.

Lemma lookup_index_known (hash : string -> nat) (vocab : list string)
    (mode : output_mode) (s : string) :
  In s vocab ->
  exists i,
    lookup_index hash (lookup_layer vocab mode) s = Ok i /\
    nth_error vocab i = Some s /\ i < length vocab /\ index_of s vocab = Some i.
Proof.
  intros Hin. destruct (index_of_In s vocab Hin) as (i & Hi & Hn & Hlt).
  exists i. unfold lookup_index, lookup_layer. cbn. rewrite Hi. auto.
Qed.

Lemma lookup_index_unknown (hash : string -> nat) (vocab : list string)
    (mode : output_mode) (s : string) :
  ~ In s vocab ->
  lookup_index hash (lookup_layer vocab mode) s = Raise InvalidArgumentError.
Proof.
  intros Hn. unfold lookup_index, lookup_layer. cbn.
  now rewrite index_of_not_In.
Qed.

Section Encodings.

Variable p : params.
Variable ex : string -> option value.

Lemma eval_concat_ok_in (xs : list tensor) :
  forall v, eval_concat p ex xs = Ok v ->
            forall t, In t xs -> exists a, eval p ex t = Ok (VVec a).
Proof.
  induction xs as [|x xs IH]; intros v Hv t Hin; [contradiction|].
  cbn [eval_concat] in Hv.
  apply rbind_ok in Hv as (v1 & Hv1 & Hv).
  apply rbind_ok in Hv as (vs & Hvs & Hv).
  destruct Hin as [<-|Hin].
  - destruct v1; try discriminate. eauto.
  - eapply IH; eauto.
Qed.

Lemma eval_concat_total (xs : list tensor) :
  Forall (fun t => exists a, eval p ex t = Ok (VVec a)) xs ->
  exists a, eval_concat p ex xs = Ok (VVec a).
Proof.
  induction 1 as [|t xs (a & Ha) _ (b & Hb)]; cbn [eval_concat].
  - eauto.
  - rewrite Ha, Hb. cbn [rbind]. eauto.
Qed.

Lemma eval_numeric_encoding :
  (forall name, In name NUMERIC_FEATURE_NAMES -> exists r, ex name = Some (VNum r)) ->
  Forall (fun t => exists a, eval p ex t = Ok (VVec a)) numeric_encoding.
Proof.
  intros H. unfold numeric_encoding. apply Forall_map, Forall_forall.
  intros name Hin. destruct (H name Hin) as (r & Hr).
  exists [r]. cbn [eval]. rewrite Hr. reflexivity.
Qed.

Lemma eval_sparse_lookup (name s : string) (vocab : list string) :
  ex name = Some (VStr s) -> In s vocab ->
  exists i,
    index_of s vocab = Some i /\
    eval p ex (Lookup (lookup_layer vocab mode_binary) (ExpandDims (Input name string_t)))
    = Ok (VVec (multi_hot (length vocab) [i])).
Proof.
  intros Hex Hin.
  destruct (lookup_index_known (oov_hash p) vocab mode_binary s Hin)
    as (i & Hl & _ & _ & Hi).
  exists i. split; [assumption|].
  cbn [eval]. rewrite Hex. cbn [rbind]. unfold lookup_layer at 1.
  cbn [lookup_mode apply_rows]. rewrite Hl. reflexivity.
Qed.

Lemma eval_dense_lookup (name s : string) (vocab : list string) (u : nat) :
  ex name = Some (VStr s) -> In s vocab ->
  exists i,
    index_of s vocab = Some i /\
    eval p ex (Embedding u (length vocab) (int_sqrt (length vocab))
                 (Lookup (lookup_layer vocab mode_int) (Input name string_t)))
    = Ok (VVec (map (embeddings p u i) (seq 0 (int_sqrt (length vocab))))).
Proof.
  intros Hex Hin.
  destruct (lookup_index_known (oov_hash p) vocab mode_int s Hin)
    as (i & Hl & _ & Hlt & Hi).
  exists i. split; [assumption|].
  cbn [eval]. rewrite Hex. cbn [rbind]. unfold lookup_layer at 1.
  cbn [lookup_mode]. rewrite Hl. cbn [rbind].
  apply Nat.ltb_lt in Hlt. rewrite Hlt. reflexivity.
Qed.

Lemma eval_sparse_encoding_total (sv wv : list string) :
  well_formed_example sv wv ex ->
  exists a, eval p ex (sparse_encoding sv wv) = Ok (VVec a).
Proof.
  intros (Hnum & (s & Hs & Hsin) & (t & Ht & Htin)).
  unfold sparse_encoding. rewrite eval_Concatenate.
  apply eval_concat_total. apply Forall_app. split.
  - now apply eval_numeric_encoding.
  - destruct (eval_sparse_lookup _ _ _ Hs Hsin) as (i & _ & Hi).
    destruct (eval_sparse_lookup _ _ _ Ht Htin) as (j & _ & Hj).
    repeat constructor; eauto.
Qed.

Lemma eval_dense_encoding_total (sv wv : list string) (u : nat) :
  well_formed_example sv wv ex ->
  exists a, eval p ex (dense_encoding sv wv u) = Ok (VVec a).
Proof.
  intros (Hnum & (s & Hs & Hsin) & (t & Ht & Htin)).
  unfold dense_encoding. rewrite eval_Concatenate.
  apply eval_concat_total. apply Forall_app. split.
  - now apply eval_numeric_encoding.
  - destruct (eval_dense_lookup _ _ _ u Hs Hsin) as (i & _ & Hi).
    destruct (eval_dense_lookup _ _ _ (S u) Ht Htin) as (j & _ & Hj).
    repeat constructor; eauto.
Qed.

Lemma eval_lookup_input_inv (name s : string) (vocab : list string) (mode : output_mode) (x : tensor) (v : value) :
  x = Input name string_t \/ x = ExpandDims (Input name string_t) ->
  ex name = Some (VStr s) ->
  eval p ex (Lookup (lookup_layer vocab mode) x) = Ok v -> In s vocab.
Proof.
  intros Hx Hex Hv.
  destruct (in_dec string_dec s vocab) as [Hin|Hn]; [assumption|exfalso].
  pose proof (lookup_index_unknown (oov_hash p) vocab mode s Hn) as Hl.
  destruct Hx as [-> | ->]; cbn [eval] in Hv; rewrite Hex in Hv; cbn [rbind] in Hv.
  - destruct mode; unfold lookup_layer at 1 in Hv; cbn [lookup_mode] in Hv;
      rewrite Hl in Hv; discriminate.
  - destruct mode; unfold lookup_layer at 1 in Hv; cbn [lookup_mode] in Hv;
      [discriminate|].
    cbn [apply_rows] in Hv. rewrite Hl in Hv. discriminate.
Qed.

Lemma eval_embedding_inv (u i o : nat) (x : tensor) (v : value) :
  eval p ex (Embedding u i o x) = Ok v -> exists v0, eval p ex x = Ok v0.
Proof.
  cbn [eval]. intros H. apply rbind_ok in H as (v0 & H0 & _). eauto.
Qed.

End Encodings.

(** C5.  For each categorical feature [encode_inputs] builds a
    [StringLookup] over that feature's vocabulary with no mask token and no
    out-of-vocabulary index, in the one-hot and in the embedding encoding
    alike.  Such a lookup gives a vocabulary string its position and fails
    on any other string: there is no bucket to fall back to, so an example
    whose categorical value is outside the vocabulary cannot be encoded. *)
Theorem lookup_closed_vocabulary :
  forall (sv wv : list string) (n : nat) (use_embedding : bool),
    let cfv := two_vocabularies sv wv in
    let mode := if use_embedding then mode_int else mode_binary in
    exists t n',
      encode_inputs cfv (create_model_inputs cfv) use_embedding n = Ok (t, n') /\
      lookups t = [mkStringLookup sv None 0 mode; mkStringLookup wv None 0 mode] /\
      Forall (fun l => mask_token l = None /\ num_oov_indices l = 0 /\
                       vocabulary_size l = length (vocabulary l))
             (lookups t) /\
      (forall hash l s,
          In l (lookups t) ->
          (In s (vocabulary l) ->
           exists i, lookup_index hash l s = Ok i /\ nth_error (vocabulary l) i = Some s) /\
          (~ In s (vocabulary l) -> lookup_index hash l s = Raise InvalidArgumentError)) /\
      (forall p ex s,
          (ex "Soil_Type" = Some (VStr s) /\ ~ In s sv) \/
          (ex "Wilderness_Area" = Some (VStr s) /\ ~ In s wv) ->
          forall v, eval p ex t <> Ok v).
Proof.
  intros sv wv n use_embedding cfv mode.
  assert (Hlk : forall hash l s,
             In l [lookup_layer sv mode; lookup_layer wv mode] ->
             (In s (vocabulary l) ->
              exists i, lookup_index hash l s = Ok i /\ nth_error (vocabulary l) i = Some s) /\
             (~ In s (vocabulary l) -> lookup_index hash l s = Raise InvalidArgumentError)).
  { intros hash l s [<-|[<-|[]]]; split; intros H.
    - destruct (lookup_index_known hash sv mode s H) as (i & Hi & Hn & _). eauto.
    - now apply lookup_index_unknown.
    - destruct (lookup_index_known hash wv mode s H) as (i & Hi & Hn & _). eauto.
    - now apply lookup_index_unknown. }
  destruct use_embedding.
  - exists (dense_encoding sv wv n), (2 + n).
    split; [apply encode_inputs_dense|].
    split; [reflexivity|].
    split; [repeat constructor|].
    split; [exact Hlk|].
    intros p ex s Hbad v Hv. unfold dense_encoding in Hv.
    rewrite eval_Concatenate in Hv.
    destruct Hbad as [[Hex Hn]|[Hex Hn]].
    + destruct (eval_concat_ok_in _ _ _ _ Hv
                  (Embedding n (length sv) (int_sqrt (length sv))
                     (Lookup (lookup_layer sv mode_int) (Input "Soil_Type" string_t))))
        as (a & Ha).
      { apply in_or_app. right. simpl. auto. }
      apply eval_embedding_inv in Ha as (v0 & Hv0).
      apply Hn. apply (eval_lookup_input_inv p ex "Soil_Type" s sv mode_int
                         (Input "Soil_Type" string_t) v0); auto.
    + destruct (eval_concat_ok_in _ _ _ _ Hv
                  (Embedding (S n) (length wv) (int_sqrt (length wv))
                     (Lookup (lookup_layer wv mode_int)
                             (Input "Wilderness_Area" string_t))))
        as (a & Ha).
      { apply in_or_app. right. simpl. auto. }
      apply eval_embedding_inv in Ha as (v0 & Hv0).
      apply Hn. apply (eval_lookup_input_inv p ex "Wilderness_Area" s wv mode_int
                         (Input "Wilderness_Area" string_t) v0); auto.
  - exists (sparse_encoding sv wv), n.
    split; [apply encode_inputs_sparse|].
    split; [reflexivity|].
    split; [repeat constructor|].
    split; [exact Hlk|].
    intros p ex s Hbad v Hv. unfold sparse_encoding in Hv.
    rewrite eval_Concatenate in Hv.
    destruct Hbad as [[Hex Hn]|[Hex Hn]].
    + destruct (eval_concat_ok_in _ _ _ _ Hv
                  (Lookup (lookup_layer sv mode_binary)
                          (ExpandDims (Input "Soil_Type" string_t))))
        as (a & Ha).
      { apply in_or_app. right. simpl. auto. }
      apply Hn. apply (eval_lookup_input_inv p ex "Soil_Type" s sv mode_binary
                         (ExpandDims (Input "Soil_Type" string_t)) (VVec a)); auto.
    + destruct (eval_concat_ok_in _ _ _ _ Hv
                  (Lookup (lookup_layer wv mode_binary)
                          (ExpandDims (Input "Wilderness_Area" string_t))))
        as (a & Ha).
      { apply in_or_app. right. simpl. auto. }
      apply Hn. apply (eval_lookup_input_inv p ex "Wilderness_Area" s wv mode_binary
                         (ExpandDims (Input "Wilderness_Area" string_t)) (VVec a)); auto.
Qed.

Lemma lookup_closed_vocabulary_witness :
  lookup_index (fun _ => 0) (mkStringLookup ["a"; "b"] None 0 mode_binary) "c"
  = Raise InvalidArgumentError.
Proof.
  destruct (lookup_closed_vocabulary ["a"; "b"] ["x"] 0 false)
    as (t & n' & _ & Hl & _ & H & _).
  apply H.
  - rewrite Hl. left. reflexivity.
  - simpl. intros [E|[E|[]]]; discriminate.
Defined.

(** ** Softmax *)

Local Open Scope R_scope.

Lemma sum_exp_nonneg (z : list R) : 0 <= sum_R (map exp z).
Proof.
  induction z as [|x z IH]; simpl; [lra|].
  pose proof (exp_pos x). lra.
Qed.

Lemma sum_exp_pos (z : list R) : z <> [] -> 0 < sum_R (map exp z).
Proof.
  destruct z as [|x z]; [congruence|]. intros _. simpl.
  pose proof (exp_pos x). pose proof (sum_exp_nonneg z). lra.
Qed.

Lemma exp_le_sum (z : list R) (x : R) : In x z -> exp x <= sum_R (map exp z).
Proof.
  induction z as [|y z IH]; simpl; [tauto|].
  intros [->|Hin].
  - pose proof (sum_exp_nonneg z). lra.
  - specialize (IH Hin). pose proof (exp_pos y). lra.
Qed.

Lemma sum_R_map_div (f : R -> R) (d : R) (z : list R) :
  sum_R (map (fun x => f x / d) z) = sum_R (map f z) / d.
Proof.
  induction z as [|x z IH]; simpl; [unfold Rdiv; ring|].
  rewrite IH. unfold Rdiv. ring.
Qed.

Lemma softmax_probability (z : list R) :
  z <> [] -> probability_vector (length z) (softmax_R z).
Proof.
  intros Hz. pose proof (sum_exp_pos z Hz) as Hpos.
  unfold probability_vector, softmax_R. split; [apply length_map|]. split.
  - apply Forall_map, Forall_forall. intros x Hx.
    pose proof (exp_pos x). pose proof (exp_le_sum z x Hx). split.
    + now apply Rdiv_lt_0_compat.
    + apply (Rmult_le_reg_r (sum_R (map exp z))); [assumption|].
      unfold Rdiv. rewrite Rmult_assoc, Rinv_l by lra. lra.
  - rewrite sum_R_map_div. unfold Rdiv. apply Rinv_r. lra.
Qed.

Local Close Scope R_scope.

Section Layers.

Variable p : params.
Variable ex : string -> option value.

Lemma eval_output_layer (uo : nat) (x : tensor) (v : value) :
  eval p ex (Dense uo 7 softmax x) = Ok v ->
  exists l, v = VVec l /\ probability_vector 7 l.
Proof.
  cbn [eval]. intros H. apply rbind_ok in H as (v0 & _ & H).
  destruct v0 as [| | |a|]; try discriminate. injection H as <-.
  eexists. split; [reflexivity|].
  unfold dense_R, activate.
  match goal with
  | |- probability_vector 7 (softmax_R ?z0) => set (z := z0)
  end.
  assert (Hz : length z = 7) by reflexivity.
  rewrite <- Hz. apply softmax_probability.
  intros E. rewrite E in Hz. discriminate.
Qed.

Lemma eval_output_total (uo : nat) (x : tensor) (a : list R) :
  eval p ex x = Ok (VVec a) ->
  exists l, eval p ex (Dense uo 7 softmax x) = Ok (VVec l) /\ probability_vector 7 l.
Proof.
  intros Hx.
  assert (H : eval p ex (Dense uo 7 softmax x) = Ok (VVec (dense_R p uo 7 softmax a))).
  { cbn [eval]. now rewrite Hx. }
  destruct (eval_output_layer _ _ _ H) as (l & E & Hl).
  injection E as <-. eauto.
Qed.

Lemma eval_hidden_block (u units : nat) (x : tensor) (a : list R) :
  eval p ex x = Ok (VVec a) ->
  eval p ex (hidden_block u units x)
  = Ok (VVec (map (Rmax 0)
                  (batch_norm_from p (S u) 0 (dense_R p u units linear a)))).
Proof.
  intros Hx. unfold hidden_block. cbn [eval]. now rewrite Hx.
Qed.

Lemma eval_batch_norm (u : nat) (x : tensor) (a : list R) :
  eval p ex x = Ok (VVec a) ->
  eval p ex (BatchNormalization u x) = Ok (VVec (batch_norm_from p u 0 a)).
Proof.
  intros Hx. cbn [eval]. now rewrite Hx.
Qed.

Lemma eval_concat2 (x y : tensor) (a b : list R) :
  eval p ex x = Ok (VVec a) -> eval p ex y = Ok (VVec b) ->
  eval p ex (Concatenate [x; y]) = Ok (VVec (a ++ b ++ [])).
Proof.
  intros Hx Hy. rewrite eval_Concatenate. cbn [eval_concat].
  now rewrite Hx, Hy.
Qed.

End Layers.

Lemma classifier_intro (sv wv : list string) (uo : nat) (x : tensor) (w : nat)
    (inputs0 : dict tensor) :
  shape_of x = Ok [w] ->
  (forall p ex, well_formed_example sv wv ex -> exists a, eval p ex x = Ok (VVec a)) ->
  classifier sv wv (mkModel inputs0 (Dense uo 7 softmax x)).
Proof.
  intros Hs Ht. unfold classifier. cbn [outputs].
  split; [eauto|]. split; [apply (shape_dense uo 7 softmax x w Hs); discriminate|].
  split.
  - intros p ex v. apply eval_output_layer.
  - intros p ex Hwf. destruct (Ht p ex Hwf) as (a & Ha).
    eapply eval_output_total; eauto.
Qed.

(** ** Rows of the frame as examples *)

Lemma numeric_column_pos (name : string) :
  In name NUMERIC_FEATURE_NAMES ->
  exists p, column_pos name CSV_HEADER = Ok p /\ p < 10.
Proof.
  unfold NUMERIC_FEATURE_NAMES. intros Hin.
  repeat (destruct Hin as [<-|Hin];
          [eexists; split; [reflexivity | lia]|]).
  contradiction.
Qed.

Lemma reshaped_row_example (sv wv : list string) (x : raw_row) (cells : list cell) :
  reshaped_row 1 x cells ->
  (forall s, nth_error cells 11 = Some (CStr s) -> In s sv) ->
  (forall s, nth_error cells 10 = Some (CStr s) -> In s wv) ->
  well_formed_example sv wv (example_of_row cells).
Proof.
  intros Hr Hsv Hwv.
  pose proof (reshaped_row_decodable _ _ _ Hr) as (Hlen & _).
  destruct Hr as (w & s & l & _ & _ & _ & E).
  assert (Hten : length (loc_cols 0 9 x) = 10) by (apply loc_cols_full; lia).
  assert (H10 : nth_error cells 10 = Some (CStr w)).
  { rewrite E, nth_error_app2 by (rewrite length_map; lia).
    rewrite length_map, Hten. reflexivity. }
  assert (H11 : nth_error cells 11 = Some (CStr s)).
  { rewrite E, nth_error_app2 by (rewrite length_map; lia).
    rewrite length_map, Hten. reflexivity. }
  split; [|split].
  - intros name Hin. destruct (numeric_column_pos name Hin) as (p & Hp & Hlt).
    unfold example_of_row. rewrite Hp.
    rewrite E, nth_error_app1 by (rewrite length_map; lia).
    rewrite nth_error_map.
    destruct (nth_error (loc_cols 0 9 x) p) as [z|] eqn:Ez.
    + simpl. eauto.
    + apply nth_error_None in Ez. lia.
  - exists s. unfold example_of_row. rewrite column_pos_Soil_Type, H11. auto.
  - exists w. unfold example_of_row. rewrite column_pos_Wilderness_Area, H10. auto.
Qed.

Lemma data_rows_well_formed (sv wv : list string) (raw : list raw_row)
    (data : DataFrame) :
  reshape raw = Ok data ->
  CATEGORICAL_FEATURES_WITH_VOCABULARY data = Ok (two_vocabularies sv wv) ->
  forall r, In r (rows data) -> well_formed_example sv wv (example_of_row (snd r)).
Proof.
  intros Hr Hv r Hin.
  pose proof (reshape_ok _ _ Hr) as (Hc & _ & Hrows).
  unfold CATEGORICAL_FEATURES_WITH_VOCABULARY in Hv.
  apply rbind_ok in Hv as (soil & Hs & Hv).
  apply rbind_ok in Hv as (wild & Hw & Hv).
  injection Hv as <- <-.
  destruct (vocabulary_of_spec _ _ _ Hs) as (scol & Hsc & _ & Hsi).
  destruct (vocabulary_of_spec _ _ _ Hw) as (wcol & Hwc & _ & Hwi).
  destruct (Forall2_in_right _ _ _ _ Hrows (in_map snd _ _ Hin)) as (x & _ & Hx).
  apply (reshaped_row_example _ _ x); [exact Hx| |].
  - intros s Hn. apply Hsi. apply (column_In _ _ _ (CStr s) Hsc).
    exists 11, r. rewrite Hc. auto.
  - intros s Hn. apply Hwi. apply (column_In _ _ _ (CStr s) Hwc).
    exists 10, r. rewrite Hc. auto.
Qed.

(** ** The three models *)

Create HintDb shapes.

#[local] Hint Resolve shape_sparse_encoding shape_dense_encoding
  shape_hidden_block shape_concat2 shape_cross_k : shapes.
#[local] Hint Extern 1 (_ <> 0) => discriminate : shapes.

Lemma baseline_classifier (sv wv : list string) (n : nat) :
  exists m n',
    create_baseline_model (two_vocabularies sv wv) n = Ok (m, n') /\
    classifier sv wv m.
Proof.
  do 2 eexists. split; [apply create_baseline_model_eq|].
  apply (classifier_intro sv wv _ _ 32).
  - eauto with shapes.
  - intros p ex Hwf.
    destruct (eval_sparse_encoding_total p ex sv wv Hwf) as (a & Ha).
    eexists. apply eval_hidden_block. apply eval_hidden_block. exact Ha.
Qed.

Lemma wide_and_deep_classifier (sv wv : list string) (n : nat) :
  exists m n',
    create_wide_and_deep_model (two_vocabularies sv wv) n = Ok (m, n') /\
    classifier sv wv m.
Proof.
  do 2 eexists. split; [apply create_wide_and_deep_model_eq|].
  apply (classifier_intro sv wv _ _ (10 + (length sv + length wv) + 32)).
  - eauto 6 with shapes.
  - intros p ex Hwf.
    destruct (eval_sparse_encoding_total p ex sv wv Hwf) as (a & Ha).
    destruct (eval_dense_encoding_total p ex sv wv (1 + n) Hwf) as (b & Hb).
    eexists. apply eval_concat2.
    + apply eval_batch_norm. exact Ha.
    + apply eval_hidden_block. apply eval_hidden_block. exact Hb.
Qed.

Lemma deep_and_cross_classifier (sv wv : list string) (n : nat) :
  exists m n',
    create_deep_and_cross_model (two_vocabularies sv wv) n = Ok (m, n') /\
    classifier sv wv m.
Proof.
  do 2 eexists. split; [apply create_deep_and_cross_model_eq|].
  set (x0 := dense_encoding sv wv n).
  set (w := 10 + (int_sqrt (length sv) + int_sqrt (length wv))).
  assert (H0 : shape_of x0 = Ok [w]) by apply shape_dense_encoding.
  assert (Hw : w <> 0) by discriminate.
  apply (classifier_intro sv wv _ _ (w + 32)).
  - apply shape_concat2; [apply (shape_cross_k x0 w (2 + n) H0 Hw 2)|].
    eauto with shapes.
  - intros p ex Hwf.
    destruct (eval_dense_encoding_total p ex sv wv n Hwf) as (a & Ha).
    fold x0 in Ha.
    assert (Hlen : length a = w).
    { pose proof (eval_has_shape p ex x0 _ _ H0 Ha) as Hs. simpl in Hs. congruence. }
    eexists. apply eval_concat2.
    + apply eval_batch_norm. apply (eval_cross_k p ex x0 a w (2 + n) Ha Hlen 2).
    + apply eval_hidden_block. apply eval_hidden_block. exact Ha.
Qed.

Lemma well_formed_example_agree (sv wv : list string)
    (ex ex' : string -> option value) :
  (forall name, In name (firstn 12 CSV_HEADER) -> ex name = ex' name) ->
  well_formed_example sv wv ex' -> well_formed_example sv wv ex.
Proof.
  intros Hag (Hnum & Hsoil & Hwild). repeat split.
  - intros name Hin. rewrite Hag; [now apply Hnum|].
    cbn in Hin. cbn.
    repeat (destruct Hin as [<-|Hin]; [tauto|]). destruct Hin.
  - rewrite Hag; [exact Hsoil | cbn; tauto].
  - rewrite Hag; [exact Hwild | cbn; tauto].
Qed.

Lemma classifier_classifies (sv wv : list string) (m : Model) :
  classifier sv wv m ->
  keys (inputs m) = FEATURE_NAMES (two_vocabularies sv wv) ->
  classifies sv wv m.
Proof.
  intros (H1 & H2 & H3 & H4) Hk. unfold classifies, model_call. rewrite Hk.
  split; [exact H1|]. split; [exact H2|]. split; [|split].
  - intros p features v.
    destruct (same_keys _ _); [apply H3 | discriminate].
  - intros p features [Hs Hwf]. rewrite Hs. now apply H4.
  - intros p features Hs v. rewrite Hs. discriminate.
Qed.

Lemma features_of_row_spec (cells : list cell) :
  length cells = 13 ->
  keys (features_of_row cells) = firstn 12 CSV_HEADER /\
  (forall name, In name (firstn 12 CSV_HEADER) ->
                features_env (features_of_row cells) name = example_of_row cells name) /\
  In TARGET_FEATURE_NAME (keys (record_of_row cells)) /\
  length (keys (record_of_row cells)) = 13.
Proof.
  intros Hlen.
  do 13 (destruct cells as [|? cells]; [discriminate Hlen|]).
  destruct cells; [|discriminate Hlen].
  split; [reflexivity|]. split; [|split; [cbn; tauto | reflexivity]].
  intros name Hin. cbn [firstn CSV_HEADER In] in Hin.
  repeat (destruct Hin as [<-|Hin]; [
    unfold features_env, features_of_row, record_of_row, example_of_row; cbn;
    repeat match goal with |- context [match ?c with CInt _ => _ | CStr _ => _ end] =>
                             destruct c end; reflexivity |]).
  destruct Hin.
Qed.

Lemma data_rows_well_formed_features (sv wv : list string) (raw : list raw_row)
    (data : DataFrame) :
  reshape raw = Ok data ->
  CATEGORICAL_FEATURES_WITH_VOCABULARY data = Ok (two_vocabularies sv wv) ->
  forall r, In r (rows data) ->
            well_formed_features sv wv (features_of_row (snd r)) /\
            same_keys (keys (record_of_row (snd r)))
                      (FEATURE_NAMES (two_vocabularies sv wv)) = false.
Proof.
  intros Hr Hv r Hin.
  pose proof (data_rows_well_formed sv wv raw data Hr Hv r Hin) as Hwf.
  assert (Hlen : length (snd r) = 13).
  { apply reshape_ok in Hr as (_ & _ & H).
    destruct (Forall2_in_right _ _ _ _ H (in_map snd _ _ Hin)) as (x & _ & Hx).
    eapply reshaped_row_length; eauto. }
  destruct (features_of_row_spec (snd r) Hlen) as (Hk & Henv & _ & Hn).
  split; [split|].
  - rewrite Hk. reflexivity.
  - apply (well_formed_example_agree sv wv _ (example_of_row (snd r)));
      [exact Henv | exact Hwf].
  - unfold same_keys. rewrite Hn. reflexivity.
Qed.

Lemma baseline_classifies (sv wv : list string) (n : nat) :
  exists m n',
    create_baseline_model (two_vocabularies sv wv) n = Ok (m, n') /\
    classifies sv wv m.
Proof.
  destruct (baseline_classifier sv wv n) as (m & n' & Hm & Hc).
  exists m, n'. split; [exact Hm|]. apply classifier_classifies; [exact Hc|].
  rewrite create_baseline_model_eq in Hm. injection Hm as <- _. reflexivity.
Qed.

Lemma wide_and_deep_classifies (sv wv : list string) (n : nat) :
  exists m n',
    create_wide_and_deep_model (two_vocabularies sv wv) n = Ok (m, n') /\
    classifies sv wv m.
Proof.
  destruct (wide_and_deep_classifier sv wv n) as (m & n' & Hm & Hc).
  exists m, n'. split; [exact Hm|]. apply classifier_classifies; [exact Hc|].
  rewrite create_wide_and_deep_model_eq in Hm. injection Hm as <- _. reflexivity.
Qed.

Lemma deep_and_cross_classifies (sv wv : list string) (n : nat) :
  exists m n',
    create_deep_and_cross_model (two_vocabularies sv wv) n = Ok (m, n') /\
    classifies sv wv m.
Proof.
  destruct (deep_and_cross_classifier sv wv n) as (m & n' & Hm & Hc).
  exists m, n'. split; [exact Hm|]. apply classifier_classifies; [exact Hc|].
  rewrite create_deep_and_cross_model_eq in Hm. injection Hm as <- _. reflexivity.
Qed.

Lemma sample_cfv_valid : valid_vocabularies sample_cfv.
Proof.
  unfold valid_vocabularies, sample_cfv.
  repeat (apply Forall_cons; [split; [discriminate|]|]); try apply Forall_nil;
    cbn [snd];
    repeat (apply NoDup_cons; [cbn; intuition discriminate|]); apply NoDup_nil.
Qed.




(** ** The wide and the deep branch *)

Lemma multi_hot_one (size i j : nat) :
  j < size ->
  nth j (multi_hot size [i]) 0%R = if j =? i then 1%R else 0%R.
Proof.
  intros Hj. unfold multi_hot.
  set (f := fun k : nat => if existsb (Nat.eqb k) [i] then 1%R else 0%R).
  rewrite (nth_indep _ 0%R (f 0)) by (now rewrite length_map, length_seq).
  rewrite map_nth, seq_nth by assumption.
  unfold f. simpl. now rewrite orb_false_r.
Qed.

Lemma batch_norm_from_nth (p : params) (uid : nat) (x : list R) :
  forall i0 i,
    i < length x ->
    nth i (batch_norm_from p uid i0 x) 0%R
    = (bn_scale p uid (i0 + i) * nth i x 0%R + bn_offset p uid (i0 + i))%R.
Proof.
  induction x as [|xi x IH]; intros i0 [|i] Hi; simpl in Hi; try lia.
  - simpl. rewrite Nat.add_0_r. unfold bn_offset, bn_scale, Rdiv. ring.
  - cbn [batch_norm_from nth]. rewrite IH by lia.
    replace (S i0 + i) with (i0 + S i) by lia. reflexivity.
Qed.

(** C7.  In [create_wide_and_deep_model] the output layer reads the
    concatenation of two branches.  The wide branch is the sparse encoding
    (numeric features as they are, each categorical feature one-hot over
    its vocabulary) followed by batch normalization only, which at inference
    is an affine map on every channel.  The deep branch is the dense encoding
    (categorical features through an embedding) followed by two hidden
    blocks, each a [Dense] layer, batch normalization, a ReLU and dropout.
    Each branch is computed from every input feature. *)
Theorem wide_and_deep_branches :
  forall (sv wv : list string) (n : nat),
    let cfv := two_vocabularies sv wv in
    let sparse := sparse_encoding sv wv in
    let dense := dense_encoding sv wv (1 + n) in
    let wide := BatchNormalization n sparse in
    let deep := hidden_block (5 + n) 32 (hidden_block (3 + n) 32 dense) in
    encode_inputs cfv (create_model_inputs cfv) false n = Ok (sparse, n) /\
    encode_inputs cfv (create_model_inputs cfv) true (1 + n) = Ok (dense, 3 + n) /\
    (exists m n',
        create_wide_and_deep_model cfv n = Ok (m, n') /\
        outputs m = Dense (7 + n) NUM_CLASSES softmax (Concatenate [wide; deep])) /\
    input_names wide = FEATURE_NAMES cfv /\
    input_names deep = FEATURE_NAMES cfv /\
    (forall p ex name s vocab,
        ex name = Some (VStr s) -> In s vocab ->
        exists i,
          index_of s vocab = Some i /\
          eval p ex (Lookup (lookup_layer vocab mode_binary)
                            (ExpandDims (Input name string_t)))
          = Ok (VVec (multi_hot (length vocab) [i])) /\
          forall j, j < length vocab ->
                    nth j (multi_hot (length vocab) [i]) 0%R
                    = if j =? i then 1%R else 0%R) /\
    (forall p ex a,
        eval p ex sparse = Ok (VVec a) ->
        eval p ex wide = Ok (VVec (batch_norm_from p n 0 a)) /\
        length (batch_norm_from p n 0 a) = length a /\
        forall i, i < length a ->
                  nth i (batch_norm_from p n 0 a) 0%R
                  = (bn_scale p n i * nth i a 0%R + bn_offset p n i)%R) /\
    (forall p ex name s vocab u,
        ex name = Some (VStr s) -> In s vocab ->
        exists i,
          index_of s vocab = Some i /\
          eval p ex (Embedding u (length vocab) (int_sqrt (length vocab))
                       (Lookup (lookup_layer vocab mode_int) (Input name string_t)))
          = Ok (VVec (map (embeddings p u i) (seq 0 (int_sqrt (length vocab)))))) /\
    (forall p ex b,
        eval p ex dense = Ok (VVec b) ->
        eval p ex deep
        = Ok (VVec
                (map (Rmax 0)
                   (batch_norm_from p (6 + n) 0
                      (dense_R p (5 + n) 32 linear
                         (map (Rmax 0)
                            (batch_norm_from p (4 + n) 0
                               (dense_R p (3 + n) 32 linear b)))))))).
Proof.
  intros sv wv n cfv sparse dense wide deep.
  split; [apply encode_inputs_sparse|].
  split; [apply (encode_inputs_dense sv wv (1 + n))|].
  split.
  { do 2 eexists. split; [apply create_wide_and_deep_model_eq | reflexivity]. }
  split; [reflexivity|]. split; [reflexivity|].
  split.
  { intros p ex name s vocab Hex Hin.
    destruct (eval_sparse_lookup p ex name s vocab Hex Hin) as (i & Hi & He).
    exists i. repeat split; auto. intros j Hj. now apply multi_hot_one. }
  split.
  { intros p ex a Ha. split; [now apply eval_batch_norm|].
    split; [apply batch_norm_from_length|].
    intros i Hi. now rewrite batch_norm_from_nth. }
  split.
  { intros p ex name s vocab u. apply eval_dense_lookup. }
  intros p ex b Hb. unfold deep.
  erewrite eval_hidden_block; [reflexivity|].
  apply eval_hidden_block. exact Hb.
Qed.

Lemma wide_and_deep_branches_witness :
  exists i,
    index_of "b" ["a"; "b"; "c"] = Some i /\
    eval sample_params
         (fun _ => Some (VStr "b"))
         (Lookup (lookup_layer ["a"; "b"; "c"] mode_binary)
                 (ExpandDims (Input "Soil_Type" string_t)))
    = Ok (VVec (multi_hot 3 [i])).
Proof.
  destruct (wide_and_deep_branches ["a"; "b"; "c"] ["x"] 0)
    as (_ & _ & _ & _ & _ & H & _).
  destruct (H sample_params
              (fun _ => Some (VStr "b")) "Soil_Type" "b" ["a"; "b"; "c"] eq_refl)
    as (i & Hi & He & _).
  - simpl. auto.
  - exists i. split; [exact Hi | exact He].
Defined.

(** ** Running an experiment *)



Lemma other_cells_persist (train_data test_data : DataFrame) (m : Model) :
  forallb persists (snd (store_splits train_data test_data)) = true /\
  forallb persists (snd (plot_model m)) = true.
Proof. split; reflexivity. Qed.

(* ================================================================== *)
(** * Further properties *)

(** ** The decoded names tell the positions apart *)

Lemma to_uint_not_Nil (n : nat) : Nat.to_uint n <> Decimal.Nil.
Proof.
  intros E. pose proof (DecimalNat.Unsigned.of_to n) as H.
  rewrite E in H. simpl in H. subst n. discriminate E.
Qed.

Lemma str_of_nat_inj (n m : nat) : str_of_nat n = str_of_nat m -> n = m.
Proof.
  unfold str_of_nat. intros E.
  apply DecimalNat.Unsigned.to_uint_inj.
  pose proof (NilZero.usu _ (to_uint_not_Nil n)) as Hn.
  pose proof (NilZero.usu _ (to_uint_not_Nil m)) as Hm.
  rewrite E in Hn. congruence.
Qed.

Lemma NoDup_map_injective {A B} (f : A -> B) (l : list A) :
  (forall x y, f x = f y -> x = y) -> NoDup l -> NoDup (map f l).
Proof.
  intros Hf. induction 1 as [|x l Hx _ IH]; simpl; constructor; [|exact IH].
  intros Hin. apply in_map_iff in Hin as (y & E & Hy).
  apply Hf in E. now subst.
Qed.

Lemma soil_type_values_NoDup : NoDup soil_type_values.
Proof.
  unfold soil_type_values. apply NoDup_map_injective; [|apply seq_NoDup].
  intros x y E. simpl in E. injection E as E.
  apply str_of_nat_inj in E. lia.
Qed.

Lemma wilderness_area_values_NoDup : NoDup wilderness_area_values.
Proof.
  unfold wilderness_area_values. apply NoDup_map_injective; [|apply seq_NoDup].
  intros x y E. simpl in E. injection E as E.
  apply str_of_nat_inj in E. lia.
Qed.

Lemma decode_block_same_name (values : list string) (x y : list Z) (name : string) :
  NoDup values ->
  decode_block values x = Ok name -> decode_block values y = Ok name ->
  exists k v rest v' rest',
    v <> 0%Z /\ v' <> 0%Z /\
    x = repeat 0%Z k ++ v :: rest /\ y = repeat 0%Z k ++ v' :: rest'.
Proof.
  intros Hnd Hx Hy.
  apply decode_block_ok_inv in Hx as (k & v & rest & Hv & -> & Hk).
  apply decode_block_ok_inv in Hy as (k' & v' & rest' & Hv' & -> & Hk').
  assert (k = k').
  { apply (proj1 (NoDup_nth_error values) Hnd).
    - apply nth_error_Some. congruence.
    - congruence. }
  subst k'. exists k, v, rest, v', rest'. auto.
Qed.

(** X2.  The forty soil-type names and the four wilderness-area names are
    pairwise distinct, so decoding keeps the position of the first nonzero
    entry: two blocks decoded to the same name have their first nonzero
    entry at the same position. *)
Theorem decode_block_injective :
  forall (x y : list Z) (name : string),
    NoDup soil_type_values /\ NoDup wilderness_area_values /\
    (decode_block soil_type_values x = Ok name ->
     decode_block soil_type_values y = Ok name ->
     exists k v rest v' rest',
       v <> 0%Z /\ v' <> 0%Z /\
       x = repeat 0%Z k ++ v :: rest /\ y = repeat 0%Z k ++ v' :: rest') /\
    (decode_block wilderness_area_values x = Ok name ->
     decode_block wilderness_area_values y = Ok name ->
     exists k v rest v' rest',
       v <> 0%Z /\ v' <> 0%Z /\
       x = repeat 0%Z k ++ v :: rest /\ y = repeat 0%Z k ++ v' :: rest').
Proof.
  intros x y name.
  split; [apply soil_type_values_NoDup|].
  split; [apply wilderness_area_values_NoDup|].
  split; apply decode_block_same_name;
    [apply soil_type_values_NoDup | apply wilderness_area_values_NoDup].
Qed.

(** ** Edge cases of the split *)

Lemma filter_none {A} (f : A -> bool) (l : list A) :
  (forall x, In x l -> f x = false) -> filter f l = [].
Proof.
  induction l as [|x l IH]; simpl; intros H; [reflexivity|].
  rewrite (H x) by auto. apply IH. auto.
Qed.

Lemma filter_all {A} (f : A -> bool) (l : list A) :
  (forall x, In x l -> f x = true) -> filter f l = l.
Proof.
  induction l as [|x l IH]; simpl; intros H; [reflexivity|].
  rewrite (H x) by auto. f_equal. apply IH. auto.
Qed.

Lemma drawn_from_stream {A} (g : rng) (groups : list (Z * list A)) (rd : A * Q) :
  In rd (assign_draws g groups) -> exists i, snd rd = g i.
Proof.
  intros Hin. apply (in_map snd) in Hin.
  rewrite assign_draws_stream in Hin.
  apply in_map_iff in Hin as (i & E & _). eauto.
Qed.

(** X3.  The split keeps no minimum size for either part: when every draw
    is above 0.85 the train frame has no row and the test frame has all of
    them, and when every draw is at most 0.85 it is the test frame that is
    empty. *)
Theorem split_may_be_one_sided :
  forall (raw : list raw_row) (data : DataFrame) (g : rng)
         (sample_train sample_test : list (nat * list cell) -> list (nat * list cell)),
    reshape raw = Ok data ->
    raw <> [] ->
    (forall l, Permutation (sample_train l) l) ->
    (forall l, Permutation (sample_test l) l) ->
    exists train_data test_data,
      train_test_split g sample_train sample_test data = Ok (train_data, test_data) /\
      ((forall i, Qle_bool (g i) (85 # 100) = false) ->
       rows train_data = [] /\
       Permutation (map snd (rows test_data)) (map snd (rows data))) /\
      ((forall i, Qle_bool (g i) (85 # 100) = true) ->
       rows test_data = [] /\
       Permutation (map snd (rows train_data)) (map snd (rows data))).
Proof.
  intros raw data g sample_train sample_test Hr Hne Hst Hse.
  destruct (reshape_keys _ _ Hr) as (Hp & keys & Hk).
  pose proof (reshape_rows_length _ _ Hr) as Hlen.
  assert (Hrows : rows data <> []).
  { intros E. rewrite E in Hlen. destruct raw; [contradiction|discriminate]. }
  destruct (split_rows_spec g data 12 keys Hp Hk Hrows)
    as (groups & _ & _ & Hperm & _ & Hsplit).
  do 2 eexists.
  split; [unfold train_test_split; rewrite Hsplit; reflexivity|].
  cbn [rows fst snd]. split; intros Hg.
  - rewrite (filter_none selected).
    2:{ intros rd Hin. destruct (drawn_from_stream _ _ _ Hin) as (i & E).
        unfold selected. rewrite E. apply Hg. }
    rewrite (filter_all (fun rd => negb (selected rd))).
    2:{ intros rd Hin. destruct (drawn_from_stream _ _ _ Hin) as (i & E).
        unfold selected. rewrite E, Hg. reflexivity. }
    cbn [map]. rewrite (Permutation_nil (Permutation_sym (Hst []))).
    split; [reflexivity|].
    rewrite map_snd_reset_index.
    apply Permutation_map. rewrite (Hse _). exact Hperm.
  - rewrite (filter_all selected).
    2:{ intros rd Hin. destruct (drawn_from_stream _ _ _ Hin) as (i & E).
        unfold selected. rewrite E. apply Hg. }
    rewrite (filter_none (fun rd => negb (selected rd))).
    2:{ intros rd Hin. destruct (drawn_from_stream _ _ _ Hin) as (i & E).
        unfold selected. rewrite E, Hg. reflexivity. }
    cbn [map]. rewrite (Permutation_nil (Permutation_sym (Hse []))).
    split; [reflexivity|].
    rewrite map_snd_reset_index.
    apply Permutation_map. rewrite (Hst _). exact Hperm.
Qed.

Lemma split_may_be_one_sided_witness :
  exists train_data test_data,
    train_test_split high_rng (fun l => l) (fun l => l) sample_data
    = Ok (train_data, test_data) /\
    rows train_data = [] /\
    Permutation (map snd (rows test_data)) (map snd (rows sample_data)).
Proof.
  assert (Hr : reshape sample_raw = Ok sample_data) by reflexivity.
  assert (Hne : sample_raw <> []) by discriminate.
  destruct (split_may_be_one_sided sample_raw sample_data high_rng
              (fun l => l) (fun l => l) Hr Hne
              (fun l => Permutation_refl l) (fun l => Permutation_refl l))
    as (train_data & test_data & Hs & Hhigh & _).
  exists train_data, test_data. split; [exact Hs|].
  apply Hhigh. intros i. reflexivity.
Defined.

(** X4.  On a frame without rows the split fails: there is no group, so
    [pd.concat] has nothing to concatenate and raises [ValueError]; and on a
    frame without a [Cover_Type] column the grouping raises [KeyError]. *)
Theorem split_empty_frame :
  forall (g : rng)
         (sample_train sample_test : list (nat * list cell) -> list (nat * list cell))
         (data : DataFrame),
    (rows data = [] ->
     (exists p, column_pos "Cover_Type" (columns data) = Ok p) ->
     train_test_split g sample_train sample_test data = Raise ValueError) /\
    (column_pos "Cover_Type" (columns data) = Raise KeyError ->
     train_test_split g sample_train sample_test data = Raise KeyError).
Proof.
  intros g sample_train sample_test data. split.
  - intros Hrows (p & Hp).
    unfold train_test_split, split_rows, groupby.
    rewrite Hp, Hrows. reflexivity.
  - intros Hp. unfold train_test_split, split_rows, groupby.
    rewrite Hp. reflexivity.
Qed.

(** ** Sizes of the vocabularies and of the encodings *)

Lemma column_total (name : string) (p : nat) (raw : list raw_row) (data : DataFrame) :
  reshape raw = Ok data ->
  column_pos name CSV_HEADER = Ok p -> p < 13 ->
  exists col, column name data = Ok col.
Proof.
  intros Hr Hp Hlt. pose proof (reshape_ok _ _ Hr) as (Hc & _ & Hrows).
  unfold column. rewrite Hc, Hp. cbn [rbind].
  apply apply_rows_total, Forall_forall. intros r Hin.
  destruct (Forall2_in_right _ _ _ _ Hrows (in_map snd _ _ Hin)) as (x & _ & Hx).
  pose proof (reshaped_row_length _ _ _ Hx) as Hlen.
  unfold getitem. destruct (nth_error (snd r) p) eqn:E; [eauto|].
  apply nth_error_None in E. lia.
Qed.

Lemma vocabularies_total (raw : list raw_row) (data : DataFrame) :
  reshape raw = Ok data ->
  exists soil wild,
    vocabulary_of "Soil_Type" data = Ok soil /\
    vocabulary_of "Wilderness_Area" data = Ok wild /\
    CATEGORICAL_FEATURES_WITH_VOCABULARY data = Ok (two_vocabularies soil wild).
Proof.
  intros Hr.
  destruct (column_total "Soil_Type" 11 raw data Hr eq_refl) as (scol & Hs); [lia|].
  destruct (column_total "Wilderness_Area" 10 raw data Hr eq_refl) as (wcol & Hw); [lia|].
  unfold CATEGORICAL_FEATURES_WITH_VOCABULARY, vocabulary_of.
  rewrite Hs, Hw. cbn [rbind]. eauto.
Qed.

Lemma vocabulary_bounds (raw : list raw_row) (data : DataFrame)
    (name : string) (p : nat) (values vocab : list string) :
  reshape raw = Ok data -> raw <> [] ->
  column_pos name CSV_HEADER = Ok p ->
  (forall x cells, reshaped_row 1 x cells ->
                   exists s, nth_error cells p = Some (CStr s) /\ In s values) ->
  vocabulary_of name data = Ok vocab ->
  NoDup vocab /\ incl vocab values /\ 1 <= length vocab <= length values.
Proof.
  intros Hr Hne Hp Hcell Hv.
  pose proof (reshape_ok _ _ Hr) as (Hc & _ & Hrows).
  pose proof (reshape_rows_length _ _ Hr) as Hlen.
  destruct (vocabulary_of_spec _ _ _ Hv) as (col & Hcol & Hnd & Hin).
  assert (Hincl : incl vocab values).
  { intros s Hs. apply Hin in Hs.
    apply (column_In _ _ _ _ Hcol) in Hs as (p' & r & Hp' & Hr' & Hn).
    rewrite Hc, Hp in Hp'. injection Hp' as <-.
    destruct (Forall2_in_right _ _ _ _ Hrows (in_map snd _ _ Hr')) as (x & _ & Hx).
    destruct (Hcell _ _ Hx) as (s' & Hs' & Hv'). congruence. }
  split; [exact Hnd|]. split; [exact Hincl|]. split.
  - assert (Hex : exists r, In r (rows data)).
    { destruct (rows data) as [|r rest].
      - simpl in Hlen. destruct raw; [contradiction|discriminate].
      - exists r. now left. }
    destruct Hex as (r & Hr').
    destruct (Forall2_in_right _ _ _ _ Hrows (in_map snd _ _ Hr')) as (x & _ & Hx).
    destruct (Hcell _ _ Hx) as (s & Hs & _).
    assert (Hs' : In s vocab).
    { apply Hin. apply (column_In _ _ _ _ Hcol). exists p, r.
      rewrite Hc. auto. }
    destruct vocab; [contradiction | simpl; lia].
  - now apply NoDup_incl_length.
Qed.

(** X5.  On a reshaped frame with at least one row the metadata cell
    succeeds, and the sizes are bounded: between 1 and 40 soil types and
    between 1 and 4 wilderness areas, hence embeddings of 1 to 6 and of 1 to
    2 dimensions; the sparse encoding is 12 to 54 wide and the dense
    encoding 12 to 18 wide. *)
Theorem vocabulary_and_encoding_sizes :
  forall (raw : list raw_row) (data : DataFrame),
    reshape raw = Ok data ->
    raw <> [] ->
    exists soil wild ws wd,
      CATEGORICAL_FEATURES_WITH_VOCABULARY data = Ok (two_vocabularies soil wild) /\
      1 <= length soil <= 40 /\
      1 <= length wild <= 4 /\
      1 <= int_sqrt (length soil) <= 6 /\
      1 <= int_sqrt (length wild) <= 2 /\
      (forall n t n',
          encode_inputs (two_vocabularies soil wild)
            (create_model_inputs (two_vocabularies soil wild)) false n = Ok (t, n') ->
          last_dim t = Ok ws) /\
      12 <= ws <= 54 /\
      (forall n t n',
          encode_inputs (two_vocabularies soil wild)
            (create_model_inputs (two_vocabularies soil wild)) true n = Ok (t, n') ->
          last_dim t = Ok wd) /\
      12 <= wd <= 18.
Proof.
  intros raw data Hr Hne.
  destruct (vocabularies_total raw data Hr) as (soil & wild & Hs & Hw & Hcfv).
  destruct (vocabulary_bounds raw data "Soil_Type" 11 soil_type_values soil
              Hr Hne eq_refl) as (_ & _ & Hsb); [|exact Hs|].
  { intros x cells Hx. destruct (reshaped_row_names _ _ Hx) as (w & s & _ & _ & H1 & H2).
    eauto. }
  destruct (vocabulary_bounds raw data "Wilderness_Area" 10 wilderness_area_values wild
              Hr Hne eq_refl) as (_ & _ & Hwb); [|exact Hw|].
  { intros x cells Hx. destruct (reshaped_row_names _ _ Hx) as (w & s & H1 & H2 & _ & _).
    eauto. }
  change (length soil_type_values) with 40 in Hsb.
  change (length wilderness_area_values) with 4 in Hwb.
  assert (Hss : 1 <= int_sqrt (length soil) <= 6).
  { unfold int_sqrt. split.
    - change 1 with (Nat.sqrt 1). apply Nat.sqrt_le_mono. lia.
    - change 6 with (Nat.sqrt 40). apply Nat.sqrt_le_mono. lia. }
  assert (Hws : 1 <= int_sqrt (length wild) <= 2).
  { unfold int_sqrt. split.
    - change 1 with (Nat.sqrt 1). apply Nat.sqrt_le_mono. lia.
    - change 2 with (Nat.sqrt 4). apply Nat.sqrt_le_mono. lia. }
  exists soil, wild, (10 + (length soil + length wild)),
    (10 + (int_sqrt (length soil) + int_sqrt (length wild))).
  split; [exact Hcfv|].
  split; [exact Hsb|]. split; [exact Hwb|]. split; [exact Hss|]. split; [exact Hws|].
  split.
  { intros n t n' He. rewrite encode_inputs_sparse in He. injection He as <- _.
    apply last_dim_of_shape, shape_sparse_encoding. }
  split; [lia|]. split; [|lia].
  intros n t n' He. rewrite encode_inputs_dense in He. injection He as <- _.
  apply last_dim_of_shape, shape_dense_encoding.
Qed.

Lemma vocabulary_and_encoding_sizes_witness :
  exists soil wild,
    CATEGORICAL_FEATURES_WITH_VOCABULARY sample_data = Ok (two_vocabularies soil wild) /\
    1 <= length soil <= 40 /\ 1 <= length wild <= 4.
Proof.
  assert (Hne : sample_raw <> []) by discriminate.
  destruct (vocabulary_and_encoding_sizes sample_raw sample_data eq_refl Hne)
    as (soil & wild & ws & wd & H1 & H2 & H3 & _).
  exists soil, wild. auto.
Defined.

(** ** The inputs of a model *)

Lemma str_in_In (name : string) (names : list string) :
  str_in name names = true <-> In name names.
Proof.
  unfold str_in. rewrite existsb_exists. split.
  - intros (x & Hx & E). apply String.eqb_eq in E. now subst.
  - intros H. exists name. split; [assumption | apply String.eqb_refl].
Qed.

Lemma str_in_not_In (name : string) (names : list string) :
  str_in name names = false <-> ~ In name names.
Proof.
  rewrite <- str_in_In. destruct (str_in name names); split; congruence.
Qed.

Lemma keys_dict_set {V} (d : dict V) (k : string) (v : V) :
  keys (dict_set d k v) = if str_in k (keys d) then keys d else keys d ++ [k].
Proof.
  induction d as [|[k' v'] d IH]; [reflexivity|].
  cbn [dict_set]. unfold str_in. cbn [keys map fst existsb].
  rewrite (String.eqb_sym k k').
  destruct (String.eqb_spec k' k) as [->|Hne]; [reflexivity|].
  change (keys ((k', v') :: dict_set d k v)) with (k' :: keys (dict_set d k v)).
  rewrite IH. unfold str_in, keys. cbn [orb].
  destruct (existsb (String.eqb k) (map fst d)); reflexivity.
Qed.

Lemma dict_get_set_same {V} (d : dict V) (k : string) (v : V) :
  dict_get (dict_set d k v) k = Ok v.
Proof.
  induction d as [|[k' v'] d IH]; simpl.
  - now rewrite String.eqb_refl.
  - destruct (String.eqb_spec k' k) as [->|Hne]; simpl.
    + now rewrite String.eqb_refl.
    + apply String.eqb_neq in Hne. now rewrite Hne.
Qed.

Lemma dict_get_set_other {V} (d : dict V) (k k' : string) (v : V) :
  k <> k' -> dict_get (dict_set d k v) k' = dict_get d k'.
Proof.
  intros Hne. induction d as [|[k0 v0] d IH]; simpl.
  - apply String.eqb_neq in Hne. now rewrite Hne.
  - destruct (String.eqb_spec k0 k) as [->|Hne0]; simpl.
    + apply String.eqb_neq in Hne. now rewrite Hne.
    + destruct (String.eqb k0 k'); [reflexivity | exact IH].
Qed.

Lemma create_model_inputs_fold (names : list string) :
  forall d : dict tensor,
    NoDup (keys d) ->
    (forall name, In name (keys d) -> dict_get d name = Ok (model_input name)) ->
    let d' := fold_left
                (fun inputs feature_name =>
                   if str_in feature_name NUMERIC_FEATURE_NAMES
                   then dict_set inputs feature_name (layers_Input feature_name float32)
                   else dict_set inputs feature_name (layers_Input feature_name string_t))
                names d in
    NoDup (keys d') /\
    (forall name, In name (keys d') <-> In name (keys d) \/ In name names) /\
    (forall name, In name (keys d') -> dict_get d' name = Ok (model_input name)) /\
    (NoDup (keys d ++ names) -> keys d' = keys d ++ names).
Proof.
  induction names as [|n names IH]; intros d Hnd Hget; cbn [fold_left].
  - repeat split; auto.
    + intros [H|[]]; exact H.
    + intros _. now rewrite app_nil_r.
  - set (d1 := if str_in n NUMERIC_FEATURE_NAMES
               then dict_set d n (layers_Input n float32)
               else dict_set d n (layers_Input n string_t)).
    assert (E1 : d1 = dict_set d n (model_input n)).
    { unfold d1, model_input, layers_Input. destruct (str_in n NUMERIC_FEATURE_NAMES);
        reflexivity. }
    assert (Hk1 : keys d1 = if str_in n (keys d) then keys d else keys d ++ [n]).
    { rewrite E1. apply keys_dict_set. }
    assert (Hnd1 : NoDup (keys d1)).
    { rewrite Hk1. destruct (str_in n (keys d)) eqn:En; [exact Hnd|].
      apply str_in_not_In in En.
      apply NoDup_app; [exact Hnd | repeat constructor; auto |].
      intros x Hx [<-|[]]. contradiction. }
    assert (Hin1 : forall name, In name (keys d1) <-> In name (keys d) \/ name = n).
    { intros name. rewrite Hk1. destruct (str_in n (keys d)) eqn:En.
      - apply str_in_In in En. split; [auto|]. intros [H| ->]; assumption.
      - rewrite in_app_iff. simpl. intuition. }
    assert (Hget1 : forall name, In name (keys d1) ->
                                 dict_get d1 name = Ok (model_input name)).
    { intros name Hin. rewrite E1.
      destruct (string_dec n name) as [->|Hne].
      - apply dict_get_set_same.
      - rewrite dict_get_set_other by assumption. apply Hget.
        apply Hin1 in Hin as [H|H]; [exact H | congruence]. }
    destruct (IH d1 Hnd1 Hget1) as (R1 & R2 & R3 & R4).
    split; [exact R1|]. split; [|split; [exact R3|]].
    + intros name. rewrite R2, Hin1. simpl. intuition.
    + intros Hall.
      assert (Hn : ~ In n (keys d)).
      { apply NoDup_remove_2 in Hall. intros H. apply Hall. apply in_or_app. now left. }
      apply str_in_not_In in Hn. rewrite Hn in Hk1.
      rewrite R4; rewrite Hk1, <- app_assoc; [reflexivity | exact Hall].
Qed.

(** X6.  [create_model_inputs] returns one input per feature name, each
    keyed by and named after its feature, of type [float32] exactly when
    the name is a numeric feature name and of type string otherwise; the
    dict has no repeated key, and when the feature names are pairwise
    distinct its keys are the feature names in their order. *)
Theorem create_model_inputs_spec :
  forall cfv : dict (list string),
    let inputs := create_model_inputs cfv in
    NoDup (keys inputs) /\
    (forall name, In name (keys inputs) <-> In name (FEATURE_NAMES cfv)) /\
    (forall name,
        In name (FEATURE_NAMES cfv) ->
        dict_get inputs name
        = Ok (Input name
                (if str_in name NUMERIC_FEATURE_NAMES then float32 else string_t))) /\
    (forall name, ~ In name (FEATURE_NAMES cfv) -> dict_get inputs name = Raise KeyError) /\
    (NoDup (FEATURE_NAMES cfv) -> keys inputs = FEATURE_NAMES cfv).
Proof.
  intros cfv inputs.
  destruct (create_model_inputs_fold (FEATURE_NAMES cfv) []) as (R1 & R2 & R3 & R4).
  { constructor. }
  { intros name []. }
  fold (create_model_inputs cfv) in R1, R2, R3, R4. fold inputs in R1, R2, R3, R4.
  assert (Hin : forall name, In name (keys inputs) <-> In name (FEATURE_NAMES cfv)).
  { intros name. rewrite R2. simpl. tauto. }
  split; [exact R1|]. split; [exact Hin|]. split; [|split].
  - intros name H. apply R3. now apply Hin.
  - intros name H. rewrite <- Hin in H. clear - H.
    induction inputs as [|[k v] d IH]; [reflexivity|].
    simpl in *. destruct (String.eqb_spec k name) as [->|Hne]; [tauto|].
    apply IH. tauto.
  - intros Hnd. apply R4. exact Hnd.
Qed.

(** ** The encoding of the inputs, for any dict of vocabularies *)

Lemma dict_get_In {V} (d : dict V) (k : string) (v : V) :
  NoDup (keys d) -> In (k, v) d -> dict_get d k = Ok v.
Proof.
  induction d as [|[k' v'] d IH]; intros Hnd Hin; [contradiction|].
  cbn [keys map fst] in Hnd. apply NoDup_cons_iff in Hnd as [Hk Hnd].
  simpl. destruct Hin as [E|Hin].
  - injection E as -> ->. now rewrite String.eqb_refl.
  - destruct (String.eqb_spec k' k) as [->|Hne].
    + exfalso. apply Hk. change k with (fst (k, v)). now apply in_map.
    + now apply IH.
Qed.

Lemma encode_feature_numeric (cfv : dict (list string)) (inputs : dict tensor)
    (use_embedding : bool) (name : string) (n : nat) :
  In name NUMERIC_FEATURE_NAMES ->
  ~ In name (keys cfv) ->
  dict_get inputs name = Ok (model_input name) ->
  encode_feature cfv inputs use_embedding name n
  = Ok (ExpandDims (Input name float32), n).
Proof.
  intros Hnum Hcat Hget. unfold encode_feature, CATEGORICAL_FEATURE_NAMES.
  apply str_in_not_In in Hcat. rewrite Hcat.
  unfold bind, lift. rewrite Hget. unfold model_input.
  apply str_in_In in Hnum. rewrite Hnum. reflexivity.
Qed.

Lemma encode_feature_categorical (cfv : dict (list string)) (inputs : dict tensor)
    (use_embedding : bool) (name : string) (vocab : list string) (n : nat) :
  NoDup (keys cfv) ->
  In (name, vocab) cfv ->
  ~ In name NUMERIC_FEATURE_NAMES ->
  dict_get inputs name = Ok (model_input name) ->
  encode_feature cfv inputs use_embedding name n
  = Ok (hd (Input name string_t)
           (categorical_encoding use_embedding n [(name, vocab)]),
        if use_embedding then S n else n).
Proof.
  intros Hnd Hin Hnum Hget. unfold encode_feature, CATEGORICAL_FEATURE_NAMES.
  assert (Hk : str_in name (keys cfv) = true).
  { apply str_in_In. change name with (fst (name, vocab)). now apply in_map. }
  rewrite Hk. unfold bind at 1. unfold lift at 1.
  rewrite (dict_get_In cfv name vocab Hnd Hin).
  apply str_in_not_In in Hnum.
  destruct use_embedding; unfold bind, lift; rewrite Hget; unfold model_input;
    rewrite Hnum; reflexivity.
Qed.

Lemma encode_loop_numeric (cfv : dict (list string)) (inputs : dict tensor)
    (use_embedding : bool) (rest : list string) :
  forall (names : list string) (acc : list tensor) (n : nat),
    (forall name, In name names ->
                  In name NUMERIC_FEATURE_NAMES /\ ~ In name (keys cfv) /\
                  dict_get inputs name = Ok (model_input name)) ->
    encode_loop cfv inputs use_embedding (names ++ rest) acc n
    = encode_loop cfv inputs use_embedding rest
        (acc ++ map (fun name => ExpandDims (Input name float32)) names) n.
Proof.
  induction names as [|name names IH]; intros acc n H.
  - simpl. now rewrite app_nil_r.
  - cbn [app encode_loop map]. unfold bind at 1.
    destruct (H name (or_introl eq_refl)) as (H1 & H2 & H3).
    rewrite (encode_feature_numeric cfv inputs use_embedding name n H1 H2 H3).
    rewrite IH by (intros x Hx; apply H; now right).
    now rewrite <- app_assoc.
Qed.

Lemma encode_loop_categorical (cfv : dict (list string)) (inputs : dict tensor)
    (use_embedding : bool) :
  NoDup (keys cfv) ->
  forall (c : dict (list string)) (acc : list tensor) (n : nat),
    (forall kv, In kv c ->
                In kv cfv /\ ~ In (fst kv) NUMERIC_FEATURE_NAMES /\
                dict_get inputs (fst kv) = Ok (model_input (fst kv))) ->
    encode_loop cfv inputs use_embedding (keys c) acc n
    = Ok (acc ++ categorical_encoding use_embedding n c,
          (if use_embedding then length c else 0) + n).
Proof.
  intros Hnd. induction c as [|[name vocab] c IH]; intros acc n H.
  - simpl. rewrite app_nil_r. now destruct use_embedding.
  - cbn [keys map fst encode_loop]. unfold bind at 1.
    destruct (H (name, vocab) (or_introl eq_refl)) as (H1 & H2 & H3).
    cbn [fst] in H2, H3.
    rewrite (encode_feature_categorical cfv inputs use_embedding name vocab n
               Hnd H1 H2 H3).
    fold (keys c). rewrite IH by (intros x Hx; apply H; now right).
    rewrite <- app_assoc.
    destruct use_embedding; cbn [categorical_encoding hd app length];
      f_equal; f_equal; lia.
Qed.

Lemma shapes_of_app (a b : list tensor) (sa sb : list (list nat)) :
  shapes_of a = Ok sa -> shapes_of b = Ok sb -> shapes_of (a ++ b) = Ok (sa ++ sb).
Proof.
  revert sa. induction a as [|t a IH]; intros sa Ha Hb.
  - injection Ha as <-. exact Hb.
  - cbn [shapes_of app] in *.
    apply rbind_ok in Ha as (s & Hs & Ha).
    apply rbind_ok in Ha as (ss & Hss & Ha). injection Ha as <-.
    rewrite Hs. cbn [rbind]. rewrite (IH ss Hss Hb). reflexivity.
Qed.

Lemma shapes_of_categorical_encoding (use_embedding : bool) (c : dict (list string)) :
  forall u,
    shapes_of (categorical_encoding use_embedding u c)
    = Ok (map (fun w => [w]) (map (fun kv => encoded_width use_embedding (snd kv)) c)).
Proof.
  induction c as [|[name vocab] c IH]; intros u; [reflexivity|].
  destruct use_embedding; cbn [categorical_encoding shapes_of].
  - rewrite IH. reflexivity.
  - rewrite IH. reflexivity.
Qed.

Lemma concat_shapes_vectors_sum (w : nat) (ws : list nat) :
  concat_shapes (map (fun w => [w]) (w :: ws)) = Ok [w + sum_nat ws].
Proof.
  revert w. induction ws as [|w' ws IH]; intros w.
  - simpl. now rewrite Nat.add_0_r.
  - change (map (fun w => [w]) (w :: w' :: ws))
      with ([w] :: map (fun w => [w]) (w' :: ws)).
    cbn [concat_shapes]. change ([w'] :: map (fun w0 => [w0]) ws)
      with (map (fun w0 => [w0]) (w' :: ws)).
    rewrite IH. cbn. reflexivity.
Qed.

Lemma int_sqrt_positive (n : nat) : n <> 0 -> 1 <= int_sqrt n.
Proof.
  intros H. unfold int_sqrt. change 1 with (Nat.sqrt 1).
  apply Nat.sqrt_le_mono. lia.
Qed.

Lemma numeric_not_categorical (cfv : dict (list string)) :
  NoDup (FEATURE_NAMES cfv) ->
  forall name, In name NUMERIC_FEATURE_NAMES -> ~ In name (keys cfv).
Proof.
  intros Hnd name H1 H2. unfold FEATURE_NAMES, CATEGORICAL_FEATURE_NAMES in Hnd.
  revert H1 H2. clear - Hnd.
  induction NUMERIC_FEATURE_NAMES as [|x l IH]; [contradiction|].
  cbn [app] in Hnd. apply NoDup_cons_iff in Hnd as [Hx Hnd].
  intros [->|H1] H2.
  - apply Hx. apply in_or_app. now right.
  - now apply IH.
Qed.

Lemma shape_encoded_inputs (use_embedding : bool) (u : nat) (cfv : dict (list string)) :
  shape_of (encoded_inputs use_embedding u cfv)
  = Ok [encoded_inputs_width use_embedding cfv].
Proof.
  unfold encoded_inputs, encoded_inputs_width. rewrite shape_of_Concatenate.
  rewrite (shapes_of_app numeric_encoding _ (map (fun w => [w]) (repeat 1 10)) _
             eq_refl (shapes_of_categorical_encoding use_embedding cfv u)).
  cbn [rbind]. rewrite <- map_app. cbn [repeat app].
  rewrite concat_shapes_vectors_sum. reflexivity.
Qed.

Lemma encode_inputs_general (cfv : dict (list string)) (use_embedding : bool) (n : nat) :
  NoDup (FEATURE_NAMES cfv) ->
  encode_inputs cfv (create_model_inputs cfv) use_embedding n
  = Ok (encoded_inputs use_embedding n cfv,
        (if use_embedding then length cfv else 0) + n).
Proof.
  intros Hnd.
  destruct (create_model_inputs_fold (FEATURE_NAMES cfv) []) as (_ & R2 & R3 & R4).
  { constructor. }
  { intros name []. }
  fold (create_model_inputs cfv) in R2, R3, R4.
  specialize (R4 Hnd). cbn [keys map app] in R4. fold (keys (create_model_inputs cfv)) in R4.
  assert (Hget : forall name, In name (FEATURE_NAMES cfv) ->
                              dict_get (create_model_inputs cfv) name
                              = Ok (model_input name)).
  { intros name H. apply R3, R2. now right. }
  pose proof (numeric_not_categorical cfv Hnd) as Hdisj.
  assert (Hkeys : NoDup (keys cfv)).
  { unfold FEATURE_NAMES, CATEGORICAL_FEATURE_NAMES in Hnd.
    now apply NoDup_app_remove_l in Hnd. }
  unfold encode_inputs. rewrite R4. unfold FEATURE_NAMES, CATEGORICAL_FEATURE_NAMES.
  unfold bind at 1.
  rewrite encode_loop_numeric.
  - rewrite (encode_loop_categorical cfv _ use_embedding Hkeys).
    + cbn [app]. fold numeric_encoding. fold (encoded_inputs use_embedding n cfv).
      unfold layers_concatenate.
      exact (called_ok _ _ _ (shape_encoded_inputs use_embedding n cfv)).
    + intros [name vocab] Hin. cbn [fst].
      assert (Hk : In name (keys cfv)).
      { change name with (fst (name, vocab)). now apply in_map. }
      split; [exact Hin|]. split.
      * intros H. now apply (Hdisj name).
      * apply Hget. unfold FEATURE_NAMES, CATEGORICAL_FEATURE_NAMES.
        apply in_or_app. now right.
  - intros name H. split; [exact H|]. split; [now apply Hdisj|].
    apply Hget. unfold FEATURE_NAMES. apply in_or_app. now left.
Qed.

(** X7.  For any dict of valid categorical vocabularies (not empty, no
    repeated term) whose names are pairwise distinct and differ from the
    numeric feature names, [encode_inputs] on the inputs of
    [create_model_inputs] succeeds: it
    concatenates the ten numeric features, each expanded to width one,
    followed by the categorical features in the order of the dict, one-hot
    over the vocabulary or, with [use_embedding], embedded in
    [int(sqrt(len(vocabulary)))] dimensions by a layer of its own.  The
    result has width ten plus the widths of the categorical encodings, and
    one layer identifier is drawn per embedding, none otherwise.  Every
    feature contributes at least one coordinate. *)
Theorem encode_inputs_any_vocabularies
    (cfv : dict (list string)) (use_embedding : bool) (n : nat) :
  NoDup (FEATURE_NAMES cfv) ->
  valid_vocabularies cfv ->
  let encoded := Concatenate (numeric_encoding
                              ++ categorical_encoding use_embedding n cfv) in
  let width := 10 + sum_nat (map (fun kv => encoded_width use_embedding (snd kv)) cfv) in
  encode_inputs cfv (create_model_inputs cfv) use_embedding n
  = Ok (encoded, (if use_embedding then length cfv else 0) + n) /\
  shape_of encoded = Ok [width] /\
  10 + length cfv <= width.
Proof.
  intros Hnd Hne encoded width.
  split; [exact (encode_inputs_general cfv use_embedding n Hnd)|].
  split; [exact (shape_encoded_inputs use_embedding n cfv)|].
  unfold width. apply Nat.add_le_mono_l.
  clear - Hne. induction Hne as [|[name vocab] c [Hv _] _ IH]; [apply Nat.le_refl|].
  cbn [map sum_nat fold_right length snd] in *.
  assert (1 <= encoded_width use_embedding vocab).
  { unfold encoded_width. destruct use_embedding.
    - apply int_sqrt_positive. now destruct vocab.
    - destruct vocab; [congruence | simpl; lia]. }
  unfold sum_nat in *. lia.
Qed.

Lemma three_vocabularies_valid : valid_vocabularies three_vocabularies.
Proof.
  unfold valid_vocabularies, three_vocabularies.
  repeat (apply Forall_cons; [split; [discriminate|]|]); try apply Forall_nil;
    cbn [snd];
    repeat (apply NoDup_cons; [cbn; intuition discriminate|]); apply NoDup_nil.
Qed.

Lemma encode_inputs_any_vocabularies_witness :
  encode_inputs three_vocabularies (create_model_inputs three_vocabularies) true 4
  = Ok (Concatenate (numeric_encoding ++ categorical_encoding true 4 three_vocabularies),
        7) /\
  shape_of (Concatenate (numeric_encoding
                         ++ categorical_encoding true 4 three_vocabularies))
  = Ok [14] /\
  13 <= 14.
Proof.
  apply (encode_inputs_any_vocabularies three_vocabularies true 4).
  - unfold FEATURE_NAMES, three_vocabularies. cbn.
    repeat (apply NoDup_cons; [cbn; intuition discriminate|]). apply NoDup_nil.
  - exact three_vocabularies_valid.
Defined.

(** ** The three constructors, for any dict of vocabularies *)

Lemma encoded_inputs_width_nonzero (use_embedding : bool) (cfv : dict (list string)) :
  encoded_inputs_width use_embedding cfv <> 0.
Proof. unfold encoded_inputs_width. discriminate. Qed.

Lemma create_baseline_model_general (cfv : dict (list string)) (n : nat) :
  NoDup (FEATURE_NAMES cfv) ->
  create_baseline_model cfv n
  = Ok (mkModel (create_model_inputs cfv)
          (Dense (4 + n) 7 softmax
             (hidden_block (2 + n) 32 (hidden_block n 32 (encoded_inputs false n cfv)))),
        5 + n).
Proof.
  intros Hnd. unfold create_baseline_model.
  rewrite (bind_eq _ _ _ _ _ (encode_inputs_general cfv false n Hnd)).
  cbn [Nat.add].
  pose proof (shape_encoded_inputs false n cfv) as H0.
  rewrite (bind_eq _ _ _ _ _ (hidden_stack_hidden_units _ _ n H0)).
  assert (Hh : shape_of (hidden_block (2 + n) 32
                           (hidden_block n 32 (encoded_inputs false n cfv))) = Ok [32]).
  { eapply shape_hidden_block; [|discriminate].
    eapply shape_hidden_block; [exact H0 | discriminate]. }
  destruct (output_layer_ok _ 32 (4 + n) Hh) as [Ho _].
  rewrite (bind_eq _ _ _ _ _ Ho). reflexivity.
Qed.

Lemma create_wide_and_deep_model_general (cfv : dict (list string)) (n : nat) :
  NoDup (FEATURE_NAMES cfv) ->
  let u := length cfv + S n in
  create_wide_and_deep_model cfv n
  = Ok (mkModel (create_model_inputs cfv)
          (Dense (4 + u) 7 softmax
             (Concatenate
                [ BatchNormalization n (encoded_inputs false n cfv);
                  hidden_block (2 + u) 32
                    (hidden_block u 32 (encoded_inputs true (S n) cfv)) ])),
        5 + u).
Proof.
  intros Hnd u. unfold create_wide_and_deep_model.
  rewrite (bind_eq _ _ _ _ _ (encode_inputs_general cfv false n Hnd)).
  cbn [Nat.add].
  pose proof (shape_encoded_inputs false n cfv) as Hw.
  pose proof (shape_encoded_inputs true (S n) cfv) as Hd.
  rewrite (bind_eq _ _ _ _ _ (layers_BatchNormalization_ok _ _ n Hw)).
  rewrite (bind_eq _ _ _ _ _ (encode_inputs_general cfv true (S n) Hnd)).
  fold u.
  rewrite (bind_eq _ _ _ _ _ (hidden_stack_hidden_units _ _ u Hd)).
  assert (Hh : shape_of (hidden_block (2 + u) 32
                           (hidden_block u 32 (encoded_inputs true (S n) cfv)))
               = Ok [32]).
  { eapply shape_hidden_block; [|discriminate].
    eapply shape_hidden_block; [exact Hd | discriminate]. }
  assert (Hm : shape_of (Concatenate
                  [ BatchNormalization n (encoded_inputs false n cfv);
                    hidden_block (2 + u) 32
                      (hidden_block u 32 (encoded_inputs true (S n) cfv)) ])
               = Ok [encoded_inputs_width false cfv + 32]).
  { apply shape_concat2; [exact Hw | exact Hh]. }
  unfold layers_concatenate.
  rewrite (bind_eq _ _ _ _ _ (called_ok _ _ _ Hm)).
  destruct (output_layer_ok _ _ (4 + u) Hm) as [Ho _].
  rewrite (bind_eq _ _ _ _ _ Ho). reflexivity.
Qed.

Lemma create_deep_and_cross_model_general (cfv : dict (list string)) (n : nat) :
  NoDup (FEATURE_NAMES cfv) ->
  let u := length cfv + n in
  let x0 := encoded_inputs true n cfv in
  let w := encoded_inputs_width true cfv in
  create_deep_and_cross_model cfv n
  = Ok (mkModel (create_model_inputs cfv)
          (Dense (7 + u) 7 softmax
             (Concatenate
                [ BatchNormalization (2 + u) (cross_k x0 w u 2);
                  hidden_block (5 + u) 32 (hidden_block (3 + u) 32 x0) ])),
        8 + u).
Proof.
  intros Hnd u x0 w.
  assert (H0 : shape_of x0 = Ok [w]) by apply shape_encoded_inputs.
  assert (Hw : w <> 0) by apply encoded_inputs_width_nonzero.
  unfold create_deep_and_cross_model.
  rewrite (bind_eq _ _ _ _ _ (encode_inputs_general cfv true n Hnd)).
  fold x0. fold u.
  rewrite (bind_eq _ _ _ _ _ (cross_loop_hidden_units x0 w u H0 Hw)).
  pose proof (shape_cross_k x0 w u H0 Hw 2) as Hs.
  rewrite (bind_eq _ _ _ _ _ (layers_BatchNormalization_ok _ _ _ Hs)).
  rewrite (bind_eq _ _ _ _ _ (hidden_stack_hidden_units _ _ _ H0)).
  assert (Hh : shape_of (hidden_block (2 + S (2 + u)) 32
                           (hidden_block (S (2 + u)) 32 x0)) = Ok [32]).
  { eapply shape_hidden_block; [|discriminate].
    eapply shape_hidden_block; [exact H0 | discriminate]. }
  assert (Hm : shape_of (Concatenate
                  [ BatchNormalization (2 + u) (cross_k x0 w u 2);
                    hidden_block (2 + S (2 + u)) 32
                      (hidden_block (S (2 + u)) 32 x0) ])
               = Ok [w + 32]).
  { apply shape_concat2; [exact Hs | exact Hh]. }
  unfold layers_concatenate.
  rewrite (bind_eq _ _ _ _ _ (called_ok _ _ _ Hm)).
  destruct (output_layer_ok _ _ (4 + S (2 + u)) Hm) as [Ho _].
  rewrite (bind_eq _ _ _ _ _ Ho). reflexivity.
Qed.

(** X8.  For any dict of valid categorical vocabularies (not empty, no
    repeated term) whose names are pairwise distinct and differ from the
    numeric feature names, the three constructors succeed.  Each model
    takes the inputs of [create_model_inputs] and outputs a vector of
    [NUM_CLASSES] entries;
    the baseline model creates five layers with weights, the wide and deep
    model six and one embedding per categorical feature, the deep and
    cross model eight and one embedding per categorical feature. *)
Theorem constructors_any_vocabularies (cfv : dict (list string)) (n : nat) :
  NoDup (FEATURE_NAMES cfv) ->
  valid_vocabularies cfv ->
  exists baseline wide_and_deep deep_and_cross,
    create_baseline_model cfv n = Ok (baseline, 5 + n) /\
    create_wide_and_deep_model cfv n = Ok (wide_and_deep, 6 + length cfv + n) /\
    create_deep_and_cross_model cfv n = Ok (deep_and_cross, 8 + length cfv + n) /\
    Forall (fun m => inputs m = create_model_inputs cfv /\
                     shape_of (outputs m) = Ok [NUM_CLASSES])
           [baseline; wide_and_deep; deep_and_cross].
Proof.
  intros Hnd _.
  pose proof (shape_encoded_inputs false n cfv) as Hs.
  pose proof (shape_encoded_inputs true (S n) cfv) as Hd1.
  pose proof (shape_encoded_inputs true n cfv) as Hd.
  pose proof (encoded_inputs_width_nonzero true cfv) as Hw.
  do 3 eexists.
  split; [apply (create_baseline_model_general cfv n Hnd)|].
  split.
  { rewrite (create_wide_and_deep_model_general cfv n Hnd).
    apply f_equal, f_equal2; [reflexivity | lia]. }
  split.
  { rewrite (create_deep_and_cross_model_general cfv n Hnd).
    apply f_equal, f_equal2; [reflexivity | lia]. }
  repeat constructor; cbn [outputs].
  - eapply shape_dense; [|discriminate].
    eapply shape_hidden_block; [|discriminate].
    eapply shape_hidden_block; [exact Hs | discriminate].
  - eapply shape_dense; [|discriminate].
    apply shape_concat2; [exact Hs|].
    eapply shape_hidden_block; [|discriminate].
    eapply shape_hidden_block; [exact Hd1 | discriminate].
  - eapply shape_dense; [|discriminate].
    apply shape_concat2.
    + apply shape_cross_k; [exact Hd | exact Hw].
    + eapply shape_hidden_block; [|discriminate].
      eapply shape_hidden_block; [exact Hd | discriminate].
Qed.

Lemma constructors_any_vocabularies_witness :
  exists baseline wide_and_deep deep_and_cross,
    create_baseline_model three_vocabularies 0 = Ok (baseline, 5) /\
    create_wide_and_deep_model three_vocabularies 0 = Ok (wide_and_deep, 9) /\
    create_deep_and_cross_model three_vocabularies 0 = Ok (deep_and_cross, 11) /\
    Forall (fun m => inputs m = create_model_inputs three_vocabularies /\
                     shape_of (outputs m) = Ok [NUM_CLASSES])
           [baseline; wide_and_deep; deep_and_cross].
Proof.
  apply (constructors_any_vocabularies three_vocabularies 0).
  - unfold FEATURE_NAMES, three_vocabularies. cbn.
    repeat (apply NoDup_cons; [cbn; intuition discriminate|]). apply NoDup_nil.
  - exact three_vocabularies_valid.
Defined.

(** ** Layers are not shared between the models *)

Lemma layer_ids_categorical_encoding (use_embedding : bool) (c : dict (list string)) :
  forall u,
    flat_map layer_ids (categorical_encoding use_embedding u c)
    = if use_embedding then seq u (length c) else [].
Proof.
  induction c as [|[name vocab] c IH]; intros u.
  - now destruct use_embedding.
  - destruct use_embedding; cbn [categorical_encoding flat_map length seq].
    + rewrite IH. reflexivity.
    + rewrite IH. reflexivity.
Qed.

Lemma layer_ids_encoded_inputs (use_embedding : bool) (u : nat)
    (cfv : dict (list string)) :
  layer_ids (encoded_inputs use_embedding u cfv)
  = if use_embedding then seq u (length cfv) else [].
Proof.
  unfold encoded_inputs.
  change (flat_map layer_ids (numeric_encoding
                              ++ categorical_encoding use_embedding u cfv)
          = if use_embedding then seq u (length cfv) else []).
  rewrite flat_map_app. rewrite layer_ids_categorical_encoding. reflexivity.
Qed.

Ltac ids_in_range :=
  unfold ids_within; apply Forall_forall;
  let i := fresh "i" in
  let Hi := fresh "Hi" in
  intros i Hi;
  cbn [layer_ids hidden_block cross_k flat_map outputs] in Hi;
  rewrite ?layer_ids_encoded_inputs in Hi;
  repeat match goal with
         | H : In _ (_ :: _) |- _ => destruct H as [H|H]
         | H : In _ (_ ++ _) |- _ => apply in_app_or in H; destruct H as [H|H]
         | H : In _ [] |- _ => destruct H
         | H : In _ (seq _ _) |- _ => apply in_seq in H
         end;
  lia.

Lemma notebook_models_intervals (cfv : dict (list string)) (n : nat) :
  NoDup (FEATURE_NAMES cfv) ->
  let k := length cfv in
  exists baseline wide_and_deep deep_and_cross,
    notebook_models cfv n
    = Ok ((baseline, wide_and_deep, deep_and_cross), 19 + 2 * k + n) /\
    ids_within n (5 + n) (outputs baseline) /\
    ids_within (5 + n) (11 + k + n) (outputs wide_and_deep) /\
    ids_within (11 + k + n) (19 + 2 * k + n) (outputs deep_and_cross).
Proof.
  intros Hnd k.
  pose proof (create_baseline_model_general cfv n Hnd) as Hb.
  pose proof (create_wide_and_deep_model_general cfv (5 + n) Hnd) as Hwd.
  pose proof (create_deep_and_cross_model_general cfv
                (5 + (length cfv + S (5 + n))) Hnd) as Hdc.
  cbv zeta in Hwd, Hdc. fold k in Hwd, Hdc.
  assert (Hk : k = length cfv) by reflexivity. clearbody k.
  do 3 eexists.
  split.
  { unfold notebook_models.
    rewrite (bind_eq _ _ _ _ _ Hb).
    rewrite (bind_eq _ _ _ _ _ Hwd).
    rewrite (bind_eq _ _ _ _ _ Hdc).
    unfold ret. apply f_equal, f_equal2; [reflexivity | lia]. }
  split; [|split]; ids_in_range.
Qed.

Lemma intervals_disjoint (lo mid hi : nat) (a b : tensor) :
  ids_within lo mid a -> ids_within mid hi b ->
  forall i, ~ (In i (layer_ids a) /\ In i (layer_ids b)).
Proof.
  unfold ids_within. rewrite !Forall_forall. intros Ha Hb i [H1 H2].
  apply Ha in H1. apply Hb in H2. lia.
Qed.

Lemma ids_within_weaken (lo lo' hi hi' : nat) (t : tensor) :
  lo' <= lo -> hi <= hi' -> ids_within lo hi t -> ids_within lo' hi' t.
Proof.
  unfold ids_within. intros Hlo Hhi H. eapply Forall_impl; [|exact H].
  cbv beta. intros i Hi. lia.
Qed.

(** X9.  The cells that create [baseline_model], [wide_and_deep_model]
    and [deep_and_cross_model] one after the other create 19 layers with
    weights and two embeddings per categorical feature, and no layer
    belongs to two of the models: the layers of each model are numbered in
    an interval of its own. *)
Theorem notebook_models_share_no_layer (cfv : dict (list string)) (n : nat) :
  NoDup (FEATURE_NAMES cfv) ->
  let k := length cfv in
  exists baseline wide_and_deep deep_and_cross,
    notebook_models cfv n
    = Ok ((baseline, wide_and_deep, deep_and_cross), 19 + 2 * k + n) /\
    ids_within n (5 + n) (outputs baseline) /\
    ids_within (5 + n) (11 + k + n) (outputs wide_and_deep) /\
    ids_within (11 + k + n) (19 + 2 * k + n) (outputs deep_and_cross) /\
    (forall i,
        ~ (In i (layer_ids (outputs baseline)) /\
           In i (layer_ids (outputs wide_and_deep))) /\
        ~ (In i (layer_ids (outputs baseline)) /\
           In i (layer_ids (outputs deep_and_cross))) /\
        ~ (In i (layer_ids (outputs wide_and_deep)) /\
           In i (layer_ids (outputs deep_and_cross)))).
Proof.
  intros Hnd k.
  destruct (notebook_models_intervals cfv n Hnd) as (b & wd & dc & E & I1 & I2 & I3).
  fold k in E, I2, I3.
  exists b, wd, dc.
  split; [exact E|]. split; [exact I1|]. split; [exact I2|]. split; [exact I3|].
  intros i. split; [|split].
  - exact (intervals_disjoint _ _ _ _ _ I1 I2 i).
  - apply (intervals_disjoint n (11 + k + n) (19 + 2 * k + n)); [|exact I3].
    eapply ids_within_weaken; [| |exact I1]; lia.
  - exact (intervals_disjoint _ _ _ _ _ I2 I3 i).
Qed.

Lemma notebook_models_share_no_layer_witness :
  exists baseline wide_and_deep deep_and_cross,
    notebook_models sample_cfv 0
    = Ok ((baseline, wide_and_deep, deep_and_cross), 23) /\
    ids_within 0 5 (outputs baseline) /\
    ids_within 5 13 (outputs wide_and_deep) /\
    ids_within 13 23 (outputs deep_and_cross) /\
    (forall i,
        ~ (In i (layer_ids (outputs baseline)) /\
           In i (layer_ids (outputs wide_and_deep))) /\
        ~ (In i (layer_ids (outputs baseline)) /\
           In i (layer_ids (outputs deep_and_cross))) /\
        ~ (In i (layer_ids (outputs wide_and_deep)) /\
           In i (layer_ids (outputs deep_and_cross)))).
Proof.
  apply (notebook_models_share_no_layer sample_cfv 0).
  unfold FEATURE_NAMES, sample_cfv. cbn.
  repeat (apply NoDup_cons; [cbn; intuition discriminate|]). apply NoDup_nil.
Defined.

(** ** The two loops of the constructors, for any list of units *)

Lemma layer_ids_hidden_blocks (units_list : list nat) :
  forall (x : tensor) (n : nat),
    layer_ids (hidden_blocks n units_list x)
    = rev (seq n (2 * length units_list)) ++ layer_ids x.
Proof.
  induction units_list as [|units rest IH]; intros x n; [reflexivity|].
  cbn [hidden_blocks]. rewrite IH.
  replace (2 * length (units :: rest)) with (S (S (2 * length rest)))
    by (cbn [length]; lia).
  cbn [seq rev hidden_block layer_ids Nat.add].
  now rewrite <- !app_assoc.
Qed.

Lemma last_cons_default {A} (l : list A) :
  forall a d d', last (a :: l) d = last (a :: l) d'.
Proof.
  induction l as [|b l IH]; intros a d d'; [reflexivity|].
  change (last (b :: l) d = last (b :: l) d'). apply IH.
Qed.

(** X10.  The loop [for units in hidden_units] of the three
    constructors, for any list of non-zero units on features of rank
    one: it succeeds and stacks one [Dense], [BatchNormalization],
    [ReLU], [Dropout] block per entry, in the order of the list.  The
    result is as wide as the last entry (as the features when the list
    is empty), and two layers with weights are created per entry, later
    ones nearer the output. *)
Theorem hidden_stack_any_units (units_list : list nat) :
  forall (x : tensor) (w n : nat),
    shape_of x = Ok [w] ->
    Forall (fun units => units <> 0) units_list ->
    hidden_stack units_list x n
    = Ok (hidden_blocks n units_list x, 2 * length units_list + n) /\
    shape_of (hidden_blocks n units_list x) = Ok [last units_list w] /\
    layer_ids (hidden_blocks n units_list x)
    = rev (seq n (2 * length units_list)) ++ layer_ids x.
Proof.
  induction units_list as [|units rest IH]; intros x w n Hx Hne.
  - repeat split; assumption.
  - apply Forall_cons_iff in Hne as [Hu Hne].
    pose proof (shape_hidden_block n units x w Hx Hu) as Hb.
    destruct (IH (hidden_block n units x) units (2 + n) Hb Hne) as (E & S1 & _).
    split; [|split].
    + rewrite (hidden_stack_cons units rest x w n Hx Hu). rewrite E.
      cbn [hidden_blocks length]. apply f_equal, f_equal2; [reflexivity | lia].
    + cbn [hidden_blocks]. rewrite S1. f_equal. f_equal.
      destruct rest as [|units' rest]; [reflexivity|].
      change (last (units :: units' :: rest) w) with (last (units' :: rest) w).
      apply last_cons_default.
    + apply layer_ids_hidden_blocks.
Qed.

Lemma hidden_stack_any_units_witness :
  hidden_stack [64; 16; 8] (encoded_inputs false 0 sample_cfv) 3
  = Ok (hidden_blocks 3 [64; 16; 8] (encoded_inputs false 0 sample_cfv), 9) /\
  shape_of (hidden_blocks 3 [64; 16; 8] (encoded_inputs false 0 sample_cfv))
  = Ok [8] /\
  layer_ids (hidden_blocks 3 [64; 16; 8] (encoded_inputs false 0 sample_cfv))
  = [8; 7; 6; 5; 4; 3].
Proof.
  apply (hidden_stack_any_units [64; 16; 8] (encoded_inputs false 0 sample_cfv) 16 3).
  - reflexivity.
  - repeat constructor; discriminate.
Defined.

(** X11.  The loop [for _ in hidden_units] of the cross branch, for any
    list: it runs once per entry and never reads the entries, so that two
    lists of the same length build the same graph; every pass creates one
    [Dense] layer, as wide as [x0], and the result is as wide as [x0]. *)
Theorem cross_loop_any_passes {U V : Type} (passes : list U) (other : list V)
    (x0 : tensor) (w u : nat) :
  shape_of x0 = Ok [w] ->
  w <> 0 ->
  length other = length passes ->
  cross_loop passes x0 x0 u
  = Ok (cross_k x0 w u (length passes), length passes + u) /\
  shape_of (cross_k x0 w u (length passes)) = Ok [w] /\
  cross_loop other x0 x0 u = cross_loop passes x0 x0 u.
Proof.
  intros H0 Hw Hlen.
  assert (G : forall (T : Type) (l : list T),
             cross_loop l x0 x0 u = Ok (cross_k x0 w u (length l), length l + u)).
  { intros T l. pose proof (cross_loop_cross_k x0 w u H0 Hw l 0) as Hc.
    cbn [cross_k Nat.add] in Hc. rewrite Nat.add_0_r in Hc. rewrite Hc.
    now rewrite (Nat.add_comm u). }
  split; [apply G|]. split; [now apply shape_cross_k|].
  rewrite (G V other), (G U passes), Hlen. reflexivity.
Qed.

Lemma cross_loop_any_passes_witness :
  cross_loop [1; 2; 3] (encoded_inputs true 0 sample_cfv)
             (encoded_inputs true 0 sample_cfv) 2
  = Ok (cross_k (encoded_inputs true 0 sample_cfv) 12 2 3, 5) /\
  shape_of (cross_k (encoded_inputs true 0 sample_cfv) 12 2 3) = Ok [12] /\
  cross_loop ["a"; "b"; "c"] (encoded_inputs true 0 sample_cfv)
             (encoded_inputs true 0 sample_cfv) 2
  = cross_loop [1; 2; 3] (encoded_inputs true 0 sample_cfv)
               (encoded_inputs true 0 sample_cfv) 2.
Proof.
  apply (cross_loop_any_passes [1; 2; 3] ["a"; "b"; "c"]
           (encoded_inputs true 0 sample_cfv) 12 2).
  - reflexivity.
  - discriminate.
  - reflexivity.
Defined.

(** ** Batches *)

Lemma firstn_add_skipn {A} (a b : nat) :
  forall l : list A, firstn a l ++ firstn b (skipn a l) = firstn (a + b) l.
Proof.
  induction a as [|a IH]; intros l; [reflexivity|].
  destruct l as [|x l]; cbn [firstn skipn app Nat.add].
  - now rewrite firstn_nil.
  - f_equal. apply IH.
Qed.

Lemma concat_chunks {A} (n : nat) (l : list A) (k : nat) :
  concat (map (fun i => firstn n (skipn (i * n) l)) (seq 0 k)) = firstn (k * n) l.
Proof.
  induction k as [|k IH]; [reflexivity|].
  rewrite seq_S, map_app, concat_app, IH. cbn [map concat Nat.add].
  rewrite app_nil_r. rewrite firstn_add_skipn. f_equal. lia.
Qed.

Lemma ceil_div_bounds (len n : nat) :
  n <> 0 ->
  len <= (len + n - 1) / n * n /\ (len + n - 1) / n * n < len + n.
Proof.
  intros Hn. pose proof (Nat.div_mod_eq (len + n - 1) n) as E.
  pose proof (Nat.mod_upper_bound (len + n - 1) n Hn) as Hr.
  set (q := (len + n - 1) / n) in *. set (r := (len + n - 1) mod n) in *.
  nia.
Qed.

Lemma batches_spec {A} (n : nat) (l : list A) :
  n <> 0 ->
  concat (batches n l) = l /\
  Forall (fun b => b <> [] /\ length b <= n) (batches n l) /\
  (forall i, S i < length (batches n l) -> length (nth i (batches n l) []) = n).
Proof.
  intros Hn. destruct (ceil_div_bounds (length l) n Hn) as [Hlo Hhi].
  unfold batches. set (k := (length l + n - 1) / n) in *.
  split; [|split].
  - rewrite concat_chunks. now apply firstn_all2.
  - apply Forall_forall. intros b Hb.
    apply in_map_iff in Hb as (i & <- & Hi). apply in_seq in Hi.
    assert (Hlen : length (firstn n (skipn (i * n) l)) = Nat.min n (length l - i * n))
      by now rewrite length_firstn, length_skipn.
    split.
    + intros E. rewrite E in Hlen. cbn [length] in Hlen. nia.
    + rewrite Hlen. lia.
  - intros i Hi. rewrite length_map, length_seq in Hi.
    rewrite (nth_indep _ [] (firstn n (skipn (0 * n) l)))
      by (rewrite length_map, length_seq; lia).
    rewrite (map_nth (fun i => firstn n (skipn (i * n) l)) (seq 0 k) 0 i).
    rewrite seq_nth by lia. cbn [Nat.add].
    rewrite length_firstn, length_skipn. nia.
Qed.

(** ** From the frames to the datasets, through the files *)

Lemma to_int_not_Nil (z : Z) :
  Z.to_int z <> Decimal.Pos Decimal.Nil /\ Z.to_int z <> Decimal.Neg Decimal.Nil.
Proof.
  destruct z as [|q|q]; cbn [Z.to_int]; split; intros E;
    try discriminate E; injection E as E;
    exact (DecimalPos.Unsigned.to_uint_nonnil q E).
Qed.

Lemma int_of_string_str_of_Z (z : Z) :
  NilZero.int_of_string (str_of_Z z) = Some (Z.to_int z).
Proof.
  unfold str_of_Z. apply NilZero.isi; apply to_int_not_Nil.
Qed.

Lemma parse_int32_str_of_Z (z : Z) :
  in_int32 z = true -> parse_int32 (str_of_Z z) = Some z.
Proof.
  intros Hz. unfold parse_int32.
  now rewrite int_of_string_str_of_Z, DecimalZ.of_to, Hz.
Qed.

Lemma str_of_Z_nonempty (z : Z) : str_of_Z z <> "".
Proof.
  intros E. pose proof (int_of_string_str_of_Z z) as H.
  rewrite E in H. discriminate H.
Qed.

Lemma parse_field_fits (default : csv_default) (c : cell) :
  cell_fits default c ->
  parse_field default (field_of_cell c) = TfOk (value_of_cell c).
Proof.
  destruct default as [z0|s0], c as [z|s]; cbn [cell_fits]; try contradiction;
    intros H; cbn [parse_field field_of_cell value_of_cell].
  - pose proof (str_of_Z_nonempty z) as Hne. apply String.eqb_neq in Hne.
    rewrite Hne. now rewrite parse_int32_str_of_Z.
  - apply String.eqb_neq in H. now rewrite H.
Qed.

Lemma parse_record_fits (defaults : list csv_default) (cells : list cell) :
  Forall2 cell_fits defaults cells ->
  parse_record defaults (map field_of_cell cells) = TfOk (map value_of_cell cells).
Proof.
  induction 1 as [|d c defaults cells Hc _ IH]; [reflexivity|].
  cbn [map parse_record]. now rewrite (parse_field_fits d c Hc), IH.
Qed.

Lemma pop_label_header (values : list csv_value) :
  length values = 13 ->
  pop_label TARGET_FEATURE_NAME CSV_HEADER values
  = TfOk (combine (firstn 12 CSV_HEADER) (firstn 12 values),
          nth 12 values (CsvInt 0)).
Proof.
  intros H.
  do 13 (destruct values as [|? values]; [discriminate H|]).
  destruct values; [reflexivity | discriminate H].
Qed.

Lemma parse_lines_fits (path : string) (size : nat) (shuffle0 : bool)
    (rows0 : list (list cell)) :
  Forall (Forall2 cell_fits COLUMN_DEFAULTS) rows0 ->
  parse_lines (get_dataset_from_csv path size shuffle0)
              (map (map field_of_cell) rows0)
  = TfOk (map element_of_cells rows0).
Proof.
  induction 1 as [|cells rows0 Hc _ IH]; [reflexivity|].
  cbn [map parse_lines]. rewrite IH.
  cbn [get_dataset_from_csv column_defaults label_name column_names].
  rewrite (parse_record_fits _ _ Hc).
  assert (Hlen : length (map value_of_cell cells) = 13).
  { rewrite length_map. apply Forall2_length in Hc. now rewrite <- Hc. }
  rewrite (pop_label_header _ Hlen). unfold process, element_of_cells.
  rewrite firstn_map.
  change (CsvInt 0) with (value_of_cell (CInt 0)).
  now rewrite (map_nth value_of_cell cells (CInt 0) 12).
Qed.

Lemma read_dataset_fits (fs : files)
    (shuffled : nat -> list element -> list element)
    (path : string) (shuffle0 : bool) (df : DataFrame) :
  dict_get fs path = Ok (to_csv df) ->
  Forall (fun r => Forall2 cell_fits COLUMN_DEFAULTS (snd r)) (rows df) ->
  read_dataset fs shuffled (get_dataset_from_csv path batch_size shuffle0)
  = TfOk (batches batch_size
            (let elements := map (fun r => element_of_cells (snd r)) (rows df) in
             if shuffle0 then shuffled 0 elements else elements)).
Proof.
  intros Hf Hrows. unfold read_dataset.
  cbn [get_dataset_from_csv csv_file_path header ds_batch_size ds_num_epochs shuffle].
  rewrite Hf. cbn [to_csv tl].
  change (mkCsvDataset path batch_size CSV_HEADER COLUMN_DEFAULTS
            TARGET_FEATURE_NAME 1 true shuffle0)
    with (get_dataset_from_csv path batch_size shuffle0).
  rewrite <- (map_map snd (map field_of_cell)).
  rewrite parse_lines_fits by (apply Forall_map; exact Hrows).
  rewrite map_map. cbn [Nat.eqb batch_size seq flat_map].
  now rewrite app_nil_r.
Qed.

(** X13.  What the notebook stores, it reads back.  After
    [train_data.to_csv(train_data_file, index=False)] and the same for the
    test frame, iterating over
    [get_dataset_from_csv(train_data_file, batch_size, shuffle=True)] and
    [get_dataset_from_csv(test_data_file, batch_size)] succeeds when every
    cell fits the default of its column (an [int32] under [[0]], a
    non-empty string under [["NA"]]).  The header line is skipped; each
    other line gives the twelve features under the names of [CSV_HEADER]
    and the [Cover_Type] cell as label.  The test elements come in the
    order of the rows, the train elements in the order of the shuffle; the
    batches are not empty and hold at most [batch_size] elements, and only
    the last batch of a dataset can hold fewer. *)
Theorem stored_splits_read_back
    (train_data test_data : DataFrame) (fs : files)
    (shuffled : nat -> list element -> list element) :
  Forall (fun r => Forall2 cell_fits COLUMN_DEFAULTS (snd r)) (rows train_data) ->
  Forall (fun r => Forall2 cell_fits COLUMN_DEFAULTS (snd r)) (rows test_data) ->
  (forall e l, Permutation (shuffled e l) l) ->
  let fs' := files_after (snd (store_splits train_data test_data)) fs in
  let elements := fun df => map (fun r => element_of_cells (snd r)) (rows df) in
  exists train_batches test_batches,
    read_dataset fs' shuffled (get_dataset_from_csv train_data_file batch_size true)
    = TfOk train_batches /\
    read_dataset fs' shuffled (get_dataset_from_csv test_data_file batch_size false)
    = TfOk test_batches /\
    Permutation (concat train_batches) (elements train_data) /\
    concat test_batches = elements test_data /\
    Forall (fun batches0 =>
              Forall (fun b => b <> [] /\ length b <= batch_size) batches0 /\
              forall i, S i < length batches0 ->
                        length (nth i batches0 []) = batch_size)
           [train_batches; test_batches].
Proof.
  intros Htrain Htest Hperm fs' elements.
  assert (Hb : batch_size <> 0) by discriminate.
  assert (Ftest : dict_get fs' test_data_file = Ok (to_csv test_data)).
  { unfold fs'. cbn. apply dict_get_set_same. }
  assert (Ftrain : dict_get fs' train_data_file = Ok (to_csv train_data)).
  { unfold fs'. cbn. rewrite dict_get_set_other by discriminate.
    apply dict_get_set_same. }
  do 2 eexists.
  split; [exact (read_dataset_fits fs' shuffled _ true train_data Ftrain Htrain)|].
  split; [exact (read_dataset_fits fs' shuffled _ false test_data Ftest Htest)|].
  cbv zeta.
  destruct (batches_spec batch_size (shuffled 0 (elements train_data)) Hb)
    as (C1 & B1 & L1).
  destruct (batches_spec batch_size (elements test_data) Hb) as (C2 & B2 & L2).
  split; [unfold elements in C1; rewrite C1; apply Hperm|].
  split; [exact C2|].
  repeat constructor; assumption.
Qed.

Lemma stored_splits_read_back_witness :
  exists train_batches test_batches,
    read_dataset (files_after (snd (store_splits sample_data sample_data)) [])
                 (fun _ l => l)
                 (get_dataset_from_csv train_data_file batch_size true)
    = TfOk train_batches /\
    read_dataset (files_after (snd (store_splits sample_data sample_data)) [])
                 (fun _ l => l)
                 (get_dataset_from_csv test_data_file batch_size false)
    = TfOk test_batches /\
    Permutation (concat train_batches)
                (map (fun r => element_of_cells (snd r)) (rows sample_data)) /\
    concat test_batches
    = map (fun r => element_of_cells (snd r)) (rows sample_data) /\
    Forall (fun batches0 =>
              Forall (fun b => b <> [] /\ length b <= batch_size) batches0 /\
              forall i, S i < length batches0 ->
                        length (nth i batches0 []) = batch_size)
           [train_batches; test_batches].
Proof.
  apply (stored_splits_read_back sample_data sample_data [] (fun _ l => l)).
  - repeat constructor; (reflexivity || discriminate).
  - repeat constructor; (reflexivity || discriminate).
  - intros e l. apply Permutation_refl.
Defined.

(** ** From the raw data to the predictions *)

Lemma In_loc_cols (a b : nat) (x : raw_row) (z : Z) :
  In z (loc_cols a b x) -> In z x.
Proof.
  unfold loc_cols. intros H.
  rewrite <- (firstn_skipn a x). apply in_or_app. right.
  rewrite <- (firstn_skipn (b + 1 - a) (skipn a x)). apply in_or_app. now left.
Qed.

Lemma decoded_name_nonempty (w : string) :
  In w wilderness_area_values \/ In w soil_type_values -> w <> "".
Proof.
  unfold wilderness_area_values, soil_type_values.
  intros [H|H]; apply in_map_iff in H as (i & <- & _); discriminate.
Qed.

Lemma numeric_cells_fit (zs : list Z) :
  Forall (fun z => in_int32 z = true) zs ->
  Forall2 cell_fits (repeat (DefaultInt 0) (length zs)) (map CInt zs).
Proof.
  induction 1 as [|z zs Hz _ IH]; [constructor|].
  cbn [length repeat map]. constructor; [exact Hz | exact IH].
Qed.

Lemma reshaped_row_fits (x : raw_row) (cells : list cell) :
  reshaped_row 1 x cells -> raw_fits x = true ->
  Forall2 cell_fits COLUMN_DEFAULTS cells.
Proof.
  intros Hr Hfit.
  pose proof (reshaped_row_decodable _ _ _ Hr) as (Hlen & _).
  destruct (reshaped_row_names _ _ Hr) as (w0 & s0 & Hw0 & Hwin & Hs0 & Hsin).
  destruct Hr as (w & s & l & Hw & Hs & Hl & ->).
  assert (Hten : length (loc_cols 0 9 x) = 10) by (apply loc_cols_full; lia).
  assert (Hall : forall z, In z x -> in_int32 z = true /\ in_int32 (z - 1) = true).
  { intros z Hz. unfold raw_fits in Hfit. rewrite forallb_forall in Hfit.
    apply andb_true_iff. now apply Hfit. }
  rewrite nth_error_app2 in Hw0, Hs0 by (rewrite length_map; lia).
  rewrite length_map, Hten in Hw0, Hs0. cbn in Hw0, Hs0.
  injection Hw0 as ->. injection Hs0 as ->.
  change COLUMN_DEFAULTS
    with (repeat (DefaultInt 0) 10 ++ [DefaultStr "NA"; DefaultStr "NA"; DefaultInt 0]).
  apply Forall2_app.
  - rewrite <- Hten. apply numeric_cells_fit. apply Forall_forall.
    intros z Hz. apply Hall. eapply In_loc_cols; eauto.
  - repeat constructor; cbn [cell_fits].
    + apply decoded_name_nonempty. now left.
    + apply decoded_name_nonempty. now right.
    + destruct (Hall l (nth_error_In _ _ Hl)) as [_ Hl1].
      rewrite wrap_int64_small; [exact Hl1|].
      unfold in_int32 in Hl1. apply andb_true_iff in Hl1 as [H1 H2].
      apply Z.leb_le in H1, H2. lia.
Qed.

Lemma reshape_rows_fit (raw : list raw_row) (data : DataFrame) :
  reshape raw = Ok data ->
  Forall (fun x => raw_fits x = true) raw ->
  Forall (Forall2 cell_fits COLUMN_DEFAULTS) (map snd (rows data)).
Proof.
  intros Hr Hfit. apply reshape_ok in Hr as (_ & _ & H).
  apply Forall_forall. intros cells Hin.
  destruct (Forall2_in_right _ _ _ _ H Hin) as (x & Hx & Hrow).
  rewrite Forall_forall in Hfit. exact (reshaped_row_fits x cells Hrow (Hfit x Hx)).
Qed.

Lemma split_cells_from_data (g : rng)
    (sample_train sample_test : list (nat * list cell) -> list (nat * list cell))
    (data train_data test_data : DataFrame) :
  (forall l, Permutation (sample_train l) l) ->
  (forall l, Permutation (sample_test l) l) ->
  train_test_split g sample_train sample_test data = Ok (train_data, test_data) ->
  Permutation (map snd (rows train_data) ++ map snd (rows test_data))
              (map snd (rows data)).
Proof.
  intros Hst Hse H. unfold train_test_split in H.
  apply rbind_ok in H as ([train test] & Hs & H). injection H as <- <-.
  cbn [rows fst snd]. rewrite !map_snd_reset_index, <- map_app.
  apply Permutation_map. rewrite (Hst _), (Hse _).
  exact (split_rows_perm g data train test Hs).
Qed.

Lemma example_of_features_row (cells : list cell) (name : string) :
  length cells = 13 ->
  In name (firstn 12 CSV_HEADER) ->
  example_of_features (fst (element_of_cells cells)) name = example_of_row cells name.
Proof.
  intros Hlen Hin.
  do 13 (destruct cells as [|? cells]; [discriminate Hlen|]).
  destruct cells; [|discriminate Hlen].
  cbn [firstn CSV_HEADER In] in Hin.
  repeat (destruct Hin as [<-|Hin]; [
    unfold example_of_features, element_of_cells, example_of_row; cbn;
    repeat match goal with |- context [match ?c with CInt _ => _ | CStr _ => _ end] =>
                             destruct c end; reflexivity |]).
  destruct Hin.
Qed.

Lemma example_of_features_label (cells : list cell) :
  length cells = 13 ->
  example_of_features (fst (element_of_cells cells)) TARGET_FEATURE_NAME = None.
Proof.
  intros Hlen.
  do 13 (destruct cells as [|? cells]; [discriminate Hlen|]).
  destruct cells; [reflexivity | discriminate Hlen].
Qed.

(** X14.  From the raw data to the predictions, end to end.  Let the
    raw rows reshape into [data], their cells fit [int32], the
    vocabularies be read off [data], and the split of [data] be stored in
    the two files.  Then both datasets of [run_experiment] can be read,
    and every element they yield is a well-formed example: its features
    do not hold the target column, its categorical values belong to the
    vocabularies, and each of the three models turns it into a vector of 7
    probabilities.  Neither [fit] nor [evaluate] can meet a record it
    cannot parse or a categorical value it cannot look up. *)
Theorem datasets_are_classified
    (raw : list raw_row) (data train_data test_data : DataFrame)
    (sv wv : list string) (g : rng)
    (sample_train sample_test : list (nat * list cell) -> list (nat * list cell))
    (fs : files) (shuffled : nat -> list element -> list element) (n : nat)
    (path : string) (shuffle0 : bool) :
  reshape raw = Ok data ->
  Forall (fun x => raw_fits x = true) raw ->
  CATEGORICAL_FEATURES_WITH_VOCABULARY data = Ok (two_vocabularies sv wv) ->
  (forall l, Permutation (sample_train l) l) ->
  (forall l, Permutation (sample_test l) l) ->
  train_test_split g sample_train sample_test data = Ok (train_data, test_data) ->
  (forall e l, Permutation (shuffled e l) l) ->
  In (path, shuffle0) [(train_data_file, true); (test_data_file, false)] ->
  exists batches0,
    read_dataset (files_after (snd (store_splits train_data test_data)) fs) shuffled
                 (get_dataset_from_csv path batch_size shuffle0)
    = TfOk batches0 /\
    forall features target,
      In (features, target) (concat batches0) ->
      example_of_features features TARGET_FEATURE_NAME = None /\
      well_formed_example sv wv (example_of_features features) /\
      forall create,
        In create [create_baseline_model; create_wide_and_deep_model;
                   create_deep_and_cross_model] ->
        exists m n',
          create (two_vocabularies sv wv) n = Ok (m, n') /\
          forall p, exists l,
              eval p (example_of_features features) (outputs m) = Ok (VVec l) /\
              probability_vector 7 l.
Proof.
  intros Hr Hfit Hv Hst Hse Hsplit Hsh Hpath.
  set (fs' := files_after (snd (store_splits train_data test_data)) fs).
  pose proof (reshape_rows_fit raw data Hr Hfit) as Hcells.
  pose proof (split_cells_from_data g _ _ _ _ _ Hst Hse Hsplit) as Hperm.
  assert (Hsub : forall df, In df [train_data; test_data] ->
                            forall r, In r (rows df) -> In (snd r) (map snd (rows data))).
  { intros df Hdf r Hin. apply (Permutation_in _ Hperm). apply in_or_app.
    destruct Hdf as [<-|[<-|[]]]; [left | right]; now apply in_map. }
  assert (Hfits : forall df, In df [train_data; test_data] ->
                             Forall (fun r => Forall2 cell_fits COLUMN_DEFAULTS (snd r))
                                    (rows df)).
  { intros df Hdf. apply Forall_forall. intros r Hin.
    rewrite Forall_forall in Hcells. apply Hcells. now apply (Hsub df Hdf). }
  assert (Ftest : dict_get fs' test_data_file = Ok (to_csv test_data)).
  { unfold fs'. cbn. apply dict_get_set_same. }
  assert (Ftrain : dict_get fs' train_data_file = Ok (to_csv train_data)).
  { unfold fs'. cbn. rewrite dict_get_set_other by discriminate.
    apply dict_get_set_same. }
  assert (Hb : batch_size <> 0) by discriminate.
  assert (Hel : forall df, In df [train_data; test_data] ->
                forall features target,
                  In (features, target)
                     (map (fun r => element_of_cells (snd r)) (rows df)) ->
                  example_of_features features TARGET_FEATURE_NAME = None /\
                  well_formed_example sv wv (example_of_features features) /\
                  forall create,
                    In create [create_baseline_model; create_wide_and_deep_model;
                               create_deep_and_cross_model] ->
                    exists m n',
                      create (two_vocabularies sv wv) n = Ok (m, n') /\
                      forall p, exists l,
                          eval p (example_of_features features) (outputs m)
                          = Ok (VVec l) /\
                          probability_vector 7 l).
  { intros df Hdf features target Hin.
    apply in_map_iff in Hin as (r & E & Hin).
    pose proof (Hsub df Hdf r Hin) as Hdata.
    apply in_map_iff in Hdata as (r0 & E0 & Hin0).
    assert (Hlen : length (snd r) = 13).
    { pose proof (Hfits df Hdf) as Hf. rewrite Forall_forall in Hf.
      specialize (Hf r Hin). apply Forall2_length in Hf. now rewrite <- Hf. }
    assert (Hwf : well_formed_example sv wv (example_of_features features)).
    { apply (well_formed_example_agree sv wv _ (example_of_row (snd r))).
      - intros name Hname. replace features with (fst (element_of_cells (snd r)))
          by now rewrite E.
        now apply example_of_features_row.
      - rewrite <- E0. exact (data_rows_well_formed sv wv raw data Hr Hv r0 Hin0). }
    split.
    { replace features with (fst (element_of_cells (snd r))) by now rewrite E.
      now apply example_of_features_label. }
    split; [exact Hwf|].
    intros create Hc.
    assert (Hcl : exists m n', create (two_vocabularies sv wv) n = Ok (m, n') /\
                               classifier sv wv m).
    { destruct Hc as [<-|[<-|[<-|[]]]].
      - apply baseline_classifier.
      - apply wide_and_deep_classifier.
      - apply deep_and_cross_classifier. }
    destruct Hcl as (m & n' & Hm & _ & _ & _ & Hev).
    exists m, n'. split; [exact Hm|]. intros p. now apply Hev. }
  destruct Hpath as [E|[E|[]]]; injection E as <- <-.
  - eexists. split.
    + exact (read_dataset_fits fs' shuffled _ true train_data Ftrain
               (Hfits train_data (or_introl eq_refl))).
    + intros features target Hin. cbv beta iota zeta in Hin.
      destruct (batches_spec batch_size
                  (shuffled 0 (map (fun r => element_of_cells (snd r))
                                   (rows train_data))) Hb) as (C & _).
      rewrite C in Hin. apply (Permutation_in _ (Hsh _ _)) in Hin.
      exact (Hel train_data (or_introl eq_refl) features target Hin).
  - eexists. split.
    + exact (read_dataset_fits fs' shuffled _ false test_data Ftest
               (Hfits test_data (or_intror (or_introl eq_refl)))).
    + intros features target Hin. cbv beta iota zeta in Hin.
      destruct (batches_spec batch_size
                  (map (fun r => element_of_cells (snd r)) (rows test_data)) Hb)
        as (C & _).
      rewrite C in Hin.
      exact (Hel test_data (or_intror (or_introl eq_refl)) features target Hin).
Qed.

Lemma datasets_are_classified_witness :
  exists batches0,
    read_dataset
      (files_after (snd (store_splits (fst sample_split) (snd sample_split))) [])
      (fun _ l => l)
      (get_dataset_from_csv test_data_file batch_size false)
    = TfOk batches0 /\
    forall features target,
      In (features, target) (concat batches0) ->
      example_of_features features TARGET_FEATURE_NAME = None /\
      well_formed_example
        ["soil_type_1"; "soil_type_40"; "soil_type_6"]
        ["area_type_1"; "area_type_4"; "area_type_2"]
        (example_of_features features) /\
      forall create,
        In create [create_baseline_model; create_wide_and_deep_model;
                   create_deep_and_cross_model] ->
        exists m n',
          create sample_cfv 0 = Ok (m, n') /\
          forall p, exists l,
              eval p (example_of_features features) (outputs m) = Ok (VVec l) /\
              probability_vector 7 l.
Proof.
  apply (datasets_are_classified sample_raw sample_data
           (fst sample_split) (snd sample_split)
           ["soil_type_1"; "soil_type_40"; "soil_type_6"]
           ["area_type_1"; "area_type_4"; "area_type_2"]
           sample_rng (fun l => l) (fun l => l) [] (fun _ l => l) 0
           test_data_file false).
  - vm_compute. reflexivity.
  - repeat constructor.
  - vm_compute. reflexivity.
  - intros l. apply Permutation_refl.
  - intros l. apply Permutation_refl.
  - vm_compute. reflexivity.
  - intros e l. apply Permutation_refl.
  - right. left. reflexivity.
Defined.

(** ** A model computes with its own layers only *)

Lemma dot_from_ext (x : list R) (w w' : nat -> R) :
  (forall i, w i = w' i) -> forall i0, dot_from i0 x w = dot_from i0 x w'.
Proof.
  intros H. induction x as [|xi x IH]; intros i0; [reflexivity|].
  cbn [dot_from]. now rewrite H, IH.
Qed.

Lemma dense_R_ext (p p' : params) (uid units : nat) (act : activation) (x : list R) :
  (forall i j, kernel p uid i j = kernel p' uid i j) ->
  (forall j, bias p uid j = bias p' uid j) ->
  dense_R p uid units act x = dense_R p' uid units act x.
Proof.
  intros Hk Hb. unfold dense_R. f_equal. apply map_ext. intros j.
  rewrite Hb. f_equal. apply dot_from_ext. intros i. apply Hk.
Qed.

Lemma batch_norm_from_ext (p p' : params) (uid : nat) (x : list R) :
  (forall j, gamma p uid j = gamma p' uid j) ->
  (forall j, beta p uid j = beta p' uid j) ->
  (forall j, moving_mean p uid j = moving_mean p' uid j) ->
  (forall j, moving_variance p uid j = moving_variance p' uid j) ->
  forall i, batch_norm_from p uid i x = batch_norm_from p' uid i x.
Proof.
  intros Hg Hb Hm Hv. induction x as [|xi x IH]; intros i; [reflexivity|].
  cbn [batch_norm_from]. now rewrite Hg, Hb, Hm, Hv, IH.
Qed.

Lemma lookup_index_ext (hash hash' : string -> nat) (l : StringLookup) (s : string) :
  (forall s, hash s = hash' s) -> lookup_index hash l s = lookup_index hash' l s.
Proof.
  intros H. unfold lookup_index. now rewrite H.
Qed.

Lemma params_agree_on_impl (P Q : nat -> Prop) (p p' : params) :
  (forall u, Q u -> P u) -> params_agree_on P p p' -> params_agree_on Q p p'.
Proof.
  intros HPQ [Hh H]. split; [exact Hh|]. intros u Hu. apply H, HPQ, Hu.
Qed.

Lemma eval_concat_params (p p' : params) (ex : string -> option value)
    (xs : list tensor) :
  Forall (fun t => eval p ex t = eval p' ex t) xs ->
  eval_concat p ex xs = eval_concat p' ex xs.
Proof.
  induction 1 as [|t xs Ht _ IH]; [reflexivity|].
  cbn [eval_concat]. now rewrite Ht, IH.
Qed.

Lemma eval_params_agree (ex : string -> option value) (p p' : params) :
  forall t,
    params_agree_on (fun u => In u (layer_ids t)) p p' ->
    eval p ex t = eval p' ex t.
Proof.
  induction t as [name dt|x IH|l x IH|u i o x IH|xs IH|u n a x IH|u x IH|x IH|r x IH
                  |x y IHx IHy|x y IHx IHy] using tensor_induction;
    intros H; cbn [layer_ids] in H.
  - reflexivity.
  - cbn [eval]. now rewrite (IH H).
  - cbn [eval]. rewrite (IH H). destruct H as [Hh _].
    destruct (eval p' ex x) as [[| | | |]|]; cbn [rbind]; try reflexivity;
      destruct (lookup_mode l); try reflexivity.
    + now rewrite (lookup_index_ext _ _ l s Hh).
    + now rewrite (lookup_index_ext _ _ l s Hh).
    + rewrite (apply_rows_ext _ (lookup_index (oov_hash p') l)); [reflexivity|].
      intros s _. now apply lookup_index_ext.
  - cbn [eval].
    rewrite IH by (eapply params_agree_on_impl; [|exact H]; cbn; intros; now right).
    destruct H as [_ H]. destruct (H u (or_introl eq_refl)) as (_ & _ & _ & _ & _ & _ & He).
    destruct (eval p' ex x) as [[| | | |]|]; cbn [rbind]; try reflexivity.
    destruct (i0 <? i); [|reflexivity].
    do 2 f_equal. apply map_ext. intros j. apply He.
  - rewrite !eval_Concatenate. apply eval_concat_params.
    induction IH as [|t xs Ht _ IHxs]; constructor.
    + apply Ht. eapply params_agree_on_impl; [|exact H].
      cbn. intros v Hv. apply in_or_app. now left.
    + apply IHxs. eapply params_agree_on_impl; [|exact H].
      cbn. intros v Hv. apply in_or_app. now right.
  - cbn [eval].
    rewrite IH by (eapply params_agree_on_impl; [|exact H]; cbn; intros; now right).
    destruct H as [_ H]. destruct (H u (or_introl eq_refl)) as (Hk & Hb & _).
    destruct (eval p' ex x) as [[| | | |]|]; cbn [rbind]; try reflexivity.
    now rewrite (dense_R_ext p p' u n a v Hk Hb).
  - cbn [eval].
    rewrite IH by (eapply params_agree_on_impl; [|exact H]; cbn; intros; now right).
    destruct H as [_ H].
    destruct (H u (or_introl eq_refl)) as (_ & _ & Hg & Hb & Hm & Hv & _).
    destruct (eval p' ex x) as [[| | | |]|]; cbn [rbind]; try reflexivity.
    now rewrite (batch_norm_from_ext p p' u v Hg Hb Hm Hv 0).
  - cbn [eval]. now rewrite (IH H).
  - cbn [eval]. now rewrite (IH H).
  - cbn [eval].
    rewrite IHx by (eapply params_agree_on_impl; [|exact H]; cbn; intros;
                    apply in_or_app; now left).
    rewrite IHy by (eapply params_agree_on_impl; [|exact H]; cbn; intros;
                    apply in_or_app; now right).
    reflexivity.
  - cbn [eval].
    rewrite IHx by (eapply params_agree_on_impl; [|exact H]; cbn; intros;
                    apply in_or_app; now left).
    rewrite IHy by (eapply params_agree_on_impl; [|exact H]; cbn; intros;
                    apply in_or_app; now right).
    reflexivity.
Qed.

(** X15.  Training one of the notebook's models does not touch the
    other two.  When the three models are created one after the other,
    any change of the weights that leaves alone the layers outside one
    model (and the handling of unknown tokens) leaves every prediction of
    the other two models as it was. *)
Theorem fitting_one_model_keeps_the_others
    (cfv : dict (list string)) (n n' : nat)
    (baseline wide_and_deep deep_and_cross fitted other : Model)
    (p p' : params) (ex : string -> option value) :
  NoDup (FEATURE_NAMES cfv) ->
  notebook_models cfv n = Ok ((baseline, wide_and_deep, deep_and_cross), n') ->
  In (fitted, other)
     [ (baseline, wide_and_deep); (baseline, deep_and_cross);
       (wide_and_deep, baseline); (wide_and_deep, deep_and_cross);
       (deep_and_cross, baseline); (deep_and_cross, wide_and_deep) ] ->
  params_agree_on (fun u => ~ In u (layer_ids (outputs fitted))) p p' ->
  eval p ex (outputs other) = eval p' ex (outputs other).
Proof.
  intros Hnd Hm Hpair Hag.
  destruct (notebook_models_intervals cfv n Hnd) as (b & wd & dc & E & I1 & I2 & I3).
  rewrite E in Hm. injection Hm as <- <- <- _.
  set (k := length cfv) in *.
  assert (I1' : ids_within n (11 + k + n) (outputs b))
    by (eapply ids_within_weaken; [| |exact I1]; lia).
  assert (I3' : ids_within (5 + n) (19 + 2 * k + n) (outputs dc))
    by (eapply ids_within_weaken; [| |exact I3]; lia).
  apply eval_params_agree.
  eapply params_agree_on_impl; [|exact Hag].
  cbv beta. intros u Hu Hf.
  destruct Hpair as [Eq|[Eq|[Eq|[Eq|[Eq|[Eq|[]]]]]]]; injection Eq as <- <-.
  - exact (intervals_disjoint _ _ _ _ _ I1 I2 u (conj Hf Hu)).
  - exact (intervals_disjoint _ _ _ _ _ I1' I3 u (conj Hf Hu)).
  - exact (intervals_disjoint _ _ _ _ _ I1 I2 u (conj Hu Hf)).
  - exact (intervals_disjoint _ _ _ _ _ I2 I3 u (conj Hf Hu)).
  - exact (intervals_disjoint _ _ _ _ _ I1' I3 u (conj Hu Hf)).
  - exact (intervals_disjoint _ _ _ _ _ I2 I3 u (conj Hu Hf)).
Qed.

Lemma fitting_one_model_keeps_the_others_witness :
  (exists l,
      eval sample_params (features_env seen_features)
           (outputs (snd (fst sample_models))) = Ok (VVec l) /\
      probability_vector 7 l) /\
  eval sample_params (features_env seen_features) (outputs (snd (fst sample_models)))
  = eval retrained_params (features_env seen_features)
         (outputs (snd (fst sample_models))).
Proof.
  split.
  - destruct (wide_and_deep_classifier
                ["soil_type_1"; "soil_type_40"; "soil_type_6"]
                ["area_type_1"; "area_type_4"; "area_type_2"] 5)
      as (m & n' & Hm & _ & _ & _ & Hev).
    assert (E : create_wide_and_deep_model sample_cfv 5
                = Ok (snd (fst sample_models), 13)) by (vm_compute; reflexivity).
    change (two_vocabularies ["soil_type_1"; "soil_type_40"; "soil_type_6"]
              ["area_type_1"; "area_type_4"; "area_type_2"])
      with sample_cfv in Hm.
    rewrite E in Hm. injection Hm as <- _.
    apply Hev. repeat split.
    + intros name Hin. cbn in Hin.
      repeat (destruct Hin as [<-|Hin]; [eexists; reflexivity|]). destruct Hin.
    + exists "soil_type_40". split; [reflexivity | cbn; tauto].
    + exists "area_type_1". split; [reflexivity | cbn; tauto].
  - apply (fitting_one_model_keeps_the_others sample_cfv 0 23
             (fst (fst sample_models)) (snd (fst sample_models)) (snd sample_models)
             (fst (fst sample_models)) (snd (fst sample_models))).
    + unfold FEATURE_NAMES, sample_cfv. cbn.
      repeat (apply NoDup_cons; [cbn; intuition discriminate|]). apply NoDup_nil.
    + vm_compute. reflexivity.
    + left. reflexivity.
    + split; [reflexivity|]. intros u Hu.
      assert (Hge : (u <? 5) = false).
      { apply Nat.ltb_ge. destruct (le_lt_dec 5 u) as [H|H]; [exact H|].
        exfalso. apply Hu. cbn. lia. }
      cbn [sample_params retrained_params kernel bias gamma beta moving_mean
           moving_variance embeddings].
      rewrite Hge. repeat split.
Defined.

(** ** The cross branch is a residual branch *)

Lemma dot_from_zero (x : list R) (w : nat -> R) :
  (forall i, w i = 0%R) -> forall i0, dot_from i0 x w = 0%R.
Proof.
  intros H. induction x as [|xi x IH]; intros i0; [reflexivity|].
  cbn [dot_from]. rewrite H, IH. ring.
Qed.

Lemma dense_R_zero (p : params) (uid units : nat) (x : list R) :
  (forall i j, kernel p uid i j = 0%R) ->
  (forall j, bias p uid j = 0%R) ->
  dense_R p uid units linear x = repeat 0%R units.
Proof.
  intros Hk Hb. unfold dense_R, activate.
  rewrite (map_ext _ (fun _ => 0%R)).
  - generalize 0 at 1. induction units as [|units IH]; intros s; [reflexivity|].
    cbn [seq map repeat]. now rewrite IH.
  - intros j. rewrite Hb, dot_from_zero by (intros i; apply Hk). ring.
Qed.

Lemma zip_with_zero_residual (a c : list R) :
  length a = length c ->
  zip_with Rplus (zip_with Rmult a (repeat 0%R (length c))) c = c.
Proof.
  revert a. induction c as [|y c IH]; intros [|x a] H; try discriminate H.
  - reflexivity.
  - cbn [length repeat zip_with]. rewrite IH by (cbn in H; lia).
    f_equal. ring.
Qed.

(** X16.  The cross branch is residual: each pass adds
    [x0 * Dense(cross)] to [cross].  While the [Dense] layers of the
    passes output zero (zero kernel and bias), the branch returns its
    input [x0] unchanged, whatever the number of passes. *)
Theorem cross_branch_residual
    (p : params) (ex : string -> option value) (x0 : tensor) (a : list R)
    (w u k : nat) :
  eval p ex x0 = Ok (VVec a) ->
  length a = w ->
  dense_layers_zero p u k ->
  eval p ex (cross_k x0 w u k) = Ok (VVec a) /\ cross_R p a w u k = a.
Proof.
  intros H0 Ha Hz.
  assert (Hc : cross_R p a w u k = a).
  { induction k as [|k IH]; [reflexivity|].
    cbn [cross_R].
    rewrite IH by (intros i Hi; apply Hz; lia).
    destruct (Hz k (Nat.lt_succ_diag_r k)) as [Hk Hb].
    rewrite (dense_R_zero p (u + k) w a Hk Hb). rewrite <- Ha.
    now apply zip_with_zero_residual. }
  split; [|exact Hc].
  rewrite (eval_cross_k p ex x0 a w u H0 Ha k). now rewrite Hc.
Qed.

Lemma cross_branch_residual_witness :
  eval sample_params (fun _ => Some (VNum 3%R))
       (cross_k (ExpandDims (Input "Slope" float32)) 1 0 2)
  = Ok (VVec [3%R]) /\
  cross_R sample_params [3%R] 1 0 2 = [3%R].
Proof.
  apply (cross_branch_residual sample_params (fun _ => Some (VNum 3%R))
           (ExpandDims (Input "Slope" float32)) [3%R] 1 0 2).
  - reflexivity.
  - reflexivity.
  - intros i Hi. split; intros; reflexivity.
Defined.

(** ** The edge cases on sample inputs *)

Lemma decode_block_injective_witness :
  exists k v rest v' rest',
    v <> 0%Z /\ v' <> 0%Z /\
    one_at 40 3 = repeat 0%Z k ++ v :: rest /\
    [0; 0; 0; 7; 1]%Z = repeat 0%Z k ++ v' :: rest'.
Proof.
  apply (proj1 (proj2 (proj2
           (decode_block_injective (one_at 40 3) [0; 0; 0; 7; 1]%Z "soil_type_4"))));
    reflexivity.
Defined.

Lemma split_empty_frame_witness :
  train_test_split sample_rng (fun l => l) (fun l => l) (mkDataFrame CSV_HEADER [])
  = Raise ValueError.
Proof.
  apply (proj1 (split_empty_frame sample_rng (fun l => l) (fun l => l)
                  (mkDataFrame CSV_HEADER []))).
  - reflexivity.
  - exists 12. reflexivity.
Defined.

Lemma create_model_inputs_spec_witness :
  keys (create_model_inputs three_vocabularies) = FEATURE_NAMES three_vocabularies /\
  dict_get (create_model_inputs three_vocabularies) "Region"
  = Ok (Input "Region" string_t) /\
  dict_get (create_model_inputs three_vocabularies) "Cover_Type" = Raise KeyError.
Proof.
  destruct (create_model_inputs_spec three_vocabularies) as (_ & _ & Hget & Hno & Hkeys).
  split; [|split].
  - apply Hkeys. unfold FEATURE_NAMES, three_vocabularies. cbn.
    repeat (apply NoDup_cons; [cbn; intuition discriminate|]). apply NoDup_nil.
  - apply (Hget "Region"). cbn. tauto.
  - apply Hno. cbn. intuition discriminate.
Defined.
